(** * Ajo: rotational savings (ROSCA) settlement engine

    A shallow embedding of the triple-ledger wallet (models/user_schema.js),
    the circle and backstop-reserve schemas (models/Circles.js,
    models/BackstopReserve.js), the payout processor
    (services/CycleManager.js) and the join middleware
    (middleware/circleAuth.js), followed by the properties of the
    specification that concern them.

    Conventions of the embedding.

    - A JavaScript [Number] is an IEEE 754 binary64 value, taken from the
      Standard Library's executable specification of floating-point
      arithmetic ([SpecFloat], precision 53, maximal exponent 1024).
    - A [Decimal128] field is only ever read by the code through
      [parseFloat(field.toString())] and only ever written through
      [Decimal128.fromString(n.toString())]; it is represented by the Number
      that [parseFloat] reads from it.
    - A mongoose collection is a finite map from document ids to documents; a
      loaded document carries the values it was loaded with next to its
      current ones, so that [save] can run the pre-save hook on the modified
      paths and write only these.
    - [new Date()] is an argument [now] of the operation. *)

From Stdlib Require Import ZArith List Bool String Lia.
From Stdlib Require Import Floats.SpecFloat.
From stdpp Require Import gmap strings.
Import ListNotations.

(** ** JavaScript numbers *)

Module Number.

Definition prec : Z := 53.
Definition emax : Z := 1024.

Definition number : Type := spec_float.

Definition add : number -> number -> number := SFadd prec emax.
Definition sub : number -> number -> number := SFsub prec emax.
Definition mul : number -> number -> number := SFmul prec emax.
Definition div : number -> number -> number := SFdiv prec emax.

(** [a < b], [a > b] and [a === b] on numbers. *)
Definition lt (a b : number) : bool := SFltb a b.
Definition gt (a b : number) : bool := SFltb b a.
Definition le (a b : number) : bool := SFleb a b.
Definition ge (a b : number) : bool := SFleb b a.
Definition strictEq (a b : number) : bool := SFeqb a b.

Definition isNaN (a : number) : bool :=
  match a with S754_nan => true | _ => false end.

(** An integer literal, and the length of an array, as a number. *)
Definition ofZ (z : Z) : number := binary_normalize prec emax z 0 false.
Definition ofNat (n : nat) : number := ofZ (Z.of_nat n).

(** A decimal literal [n/d] (such as 0.015 = 15/1000) denotes the binary64
    value nearest to it, which is what a correctly rounded division of the
    two integers returns when both are below 2^53 and so converted
    exactly. *)
Definition decimal (n d : Z) : number := div (ofZ n) (ofZ d).

(** [Decimal128.fromString(x.toString())] followed by
    [parseFloat(d.toString())]: the shortest decimal rendering of a
    binary64 value reads back as the same value; only the sign of zero is
    lost, since [(-0).toString()] is ["0"]. *)
Definition toDecimal128 (x : number) : number :=
  match x with
  | S754_zero _ => S754_zero false
  | _ => x
  end.

#[global] Instance number_eq_dec : EqDecision number.
Proof. solve_decision. Defined.

End Number.

Import Number.

(** The arithmetic is computed on closed numbers only, by [vm_compute]. *)
Arguments add : simpl never.
Arguments sub : simpl never.
Arguments mul : simpl never.
Arguments div : simpl never.
Arguments lt : simpl never.
Arguments gt : simpl never.
Arguments le : simpl never.
Arguments ge : simpl never.
Arguments strictEq : simpl never.
Arguments ofZ : simpl never.
Arguments ofNat : simpl never.
Arguments decimal : simpl never.

Declare Scope num_scope.
Delimit Scope num_scope with num.
Infix "+" := add : num_scope.
Infix "-" := sub : num_scope.
Infix "*" := mul : num_scope.

(** ** Identifiers, time, errors *)

Definition UserId : Type := nat.
Definition CircleId : Type := nat.
Definition Time : Type := nat.

(** The errors thrown by the modelled code, named after their messages;
    [TypeError] is the runtime's error on reading a property of [null]. *)
Inductive Error : Type :=
| CircleNotFound
| CircleNotActive
| RecipientNotFound
| BackstopInsufficient (need have : number)
| NotAMember
| AlreadyPaid
| InsufficientAvailableBalance
| InsufficientFunds
| PaymentExceedsDebt
| TypeError.

(** ** models/user_schema.js: data *)

Inductive Tier : Type := Bronze | Silver | Gold.
Inductive UserStatus : Type := UActive | Frozen | Blacklisted.
Inductive BlacklistReason : Type := ExcessiveDebt | Fraud | ManualReview.

#[global] Instance Tier_eq_dec : EqDecision Tier.
Proof. solve_decision. Defined.
#[global] Instance UserStatus_eq_dec : EqDecision UserStatus.
Proof. solve_decision. Defined.
#[global] Instance BlacklistReason_eq_dec : EqDecision BlacklistReason.
Proof. solve_decision. Defined.

Definition DEBT_BLACKLIST_THRESHOLD : number := ofZ 500000.
Definition TRUST_SCORE_MIN : Z := 300.
Definition TRUST_SCORE_MAX : Z := 850.

Record Wallet : Type := mkWallet {
  availableBalance : number;
  vaultBalance : number;
  debtBalance : number
}.

(** The fields of the schema the modelled code reads or writes. The trust
    score is an integer: it starts at the default 400 and is only ever moved
    by 50, 10 or 5. The schema's bounds on it are validated on save; see
    [trust_updates_in_range] for why [save] never fails on them. *)
Record User : Type := mkUser {
  fullName : string;
  wallet : Wallet;
  trustScore : Z;
  userTier : Tier;
  status : UserStatus;
  activeCircles : list CircleId;
  blacklistedAt : option Time;
  blacklistReason : option BlacklistReason
}.

(** The events a user document emits. *)
Inductive Event : Type :=
| UserBlacklisted (userId : UserId) (debtAmount : number).

(** ** models/BackstopReserve.js: data *)

Record Loan : Type := mkLoan {
  loanCircle : CircleId;
  loanAmount : number;
  defaultedUser : UserId;
  recovered : bool;
  createdAt : Time
}.

Record BackstopReserve : Type := mkReserve {
  balance : number;
  totalDeployed : number;
  activeLoans : list Loan
}.

(** [new BackstopReserve()]: the schema defaults. *)
Definition newBackstopReserve : BackstopReserve :=
  {| balance := ofZ 0; totalDeployed := ofZ 0; activeLoans := [] |}.

(** ** models/Circles.js: data *)

Inductive PaymentStatus : Type := Pending | Paid | Defaulted | Excused.
Inductive CircleStatus : Type := Forming | Active | Paused | Completed | CDefaulted.

#[global] Instance PaymentStatus_eq_dec : EqDecision PaymentStatus.
Proof. solve_decision. Defined.
#[global] Instance CircleStatus_eq_dec : EqDecision CircleStatus.
Proof. solve_decision. Defined.

Record Member : Type := mkMember {
  user : UserId;
  paymentStatus : PaymentStatus;
  lastPaymentDate : option Time;
  totalContributionsMade : nat
}.

Record Circle : Type := mkCircle {
  title : string;
  contributionAmount : number;
  totalPot : number;
  payoutOrder : list UserId;
  currentTurn : nat;
  cycleCount : nat;
  members : list Member;
  backstopBalance : number;
  totalFeesCollected : number;
  circleStatus : CircleStatus;
  lastPayoutDate : option Time
}.

(** ** The database and the documents loaded from it *)

(** The three collections, and the events emitted so far. The reserve
    collection holds at most the one document [BackstopReserve.findOne()]
    returns. *)
Record World : Type := mkWorld {
  users : gmap UserId User;
  circles : gmap CircleId Circle;
  reserve : option BackstopReserve;
  emitted : list Event
}.

(** A loaded user document: its id, whether it was never saved, the values
    it had when loaded or last saved, and the current values. *)
Record UserDoc : Type := mkDoc {
  docId : UserId;
  isNew : bool;
  pristine : User;
  this : User
}.

(** Operations run on the world and either throw or return. *)
Definition M (A : Type) : Type := World -> World * (Error + A).

Definition ret {A} (a : A) : M A := fun w => (w, inr a).
Definition throw {A} (e : Error) : M A := fun w => (w, inl e).
Definition bind {A B} (m : M A) (k : A -> M B) : M B :=
  fun w => match m w with
           | (w', inl e) => (w', inl e)
           | (w', inr a) => k a w'
           end.

#[global] Instance M_ret : MRet M := @ret.
#[global] Instance M_bind : MBind M := fun A B k m => bind m k.

(** The document of a user as a query loads it: not new, and unchanged. *)
Definition loadDoc (w : World) (id : UserId) : option UserDoc :=
  match users w !! id with
  | Some u => Some {| docId := id; isNew := false; pristine := u; this := u |}
  | None => None
  end.

(** [User.findById(id)], [Circle.findById(id)], [BackstopReserve.findOne()]. *)
Definition findUser (id : UserId) : M (option UserDoc) :=
  fun w => (w, inr (loadDoc w id)).

Definition findCircle (id : CircleId) : M (option Circle) :=
  fun w => (w, inr (circles w !! id)).

Definition findReserve : M (option BackstopReserve) :=
  fun w => (w, inr (reserve w)).

Definition saveCircle (id : CircleId) (c : Circle) : M unit :=
  fun w => ({| users := users w; circles := <[id := c]> (circles w);
               reserve := reserve w; emitted := emitted w |}, inr tt).

Definition saveReserve (r : BackstopReserve) : M unit :=
  fun w => ({| users := users w; circles := circles w;
               reserve := Some r; emitted := emitted w |}, inr tt).

(** ** models/user_schema.js: hook and methods *)

Definition setWallet (u : User) (w : Wallet) : User :=
  {| fullName := fullName u; wallet := w; trustScore := trustScore u;
     userTier := userTier u; status := status u;
     activeCircles := activeCircles u; blacklistedAt := blacklistedAt u;
     blacklistReason := blacklistReason u |}.

Definition setTrustScore (u : User) (t : Z) : User :=
  {| fullName := fullName u; wallet := wallet u; trustScore := t;
     userTier := userTier u; status := status u;
     activeCircles := activeCircles u; blacklistedAt := blacklistedAt u;
     blacklistReason := blacklistReason u |}.

Definition setUserTier (u : User) (t : Tier) : User :=
  {| fullName := fullName u; wallet := wallet u; trustScore := trustScore u;
     userTier := t; status := status u;
     activeCircles := activeCircles u; blacklistedAt := blacklistedAt u;
     blacklistReason := blacklistReason u |}.

Definition setStatus (u : User) (s : UserStatus) : User :=
  {| fullName := fullName u; wallet := wallet u; trustScore := trustScore u;
     userTier := userTier u; status := s;
     activeCircles := activeCircles u; blacklistedAt := blacklistedAt u;
     blacklistReason := blacklistReason u |}.

Definition setActiveCircles (u : User) (l : list CircleId) : User :=
  {| fullName := fullName u; wallet := wallet u; trustScore := trustScore u;
     userTier := userTier u; status := status u;
     activeCircles := l; blacklistedAt := blacklistedAt u;
     blacklistReason := blacklistReason u |}.

Definition blacklist (u : User) (now : Time) : User :=
  {| fullName := fullName u; wallet := wallet u; trustScore := trustScore u;
     userTier := userTier u; status := Blacklisted;
     activeCircles := activeCircles u; blacklistedAt := Some now;
     blacklistReason := Some ExcessiveDebt |}.

Definition setThis (d : UserDoc) (u : User) : UserDoc :=
  {| docId := docId d; isNew := isNew d; pristine := pristine d; this := u |}.

(** [doc.isModified(path)]: mongoose marks a path when a value different
    from the current one is assigned to it; every path is assigned at most
    once between two saves here, so this is a comparison with the loaded
    value. *)
Definition isModified {A} `{EqDecision A} (path : User -> A) (d : UserDoc) : bool :=
  bool_decide (path (this d) <> path (pristine d)).

(** The tier of a trust score (pre-save hook, second part). *)
Definition tierOf (trust : Z) : Tier :=
  if (750 <=? trust)%Z then Gold
  else if (550 <=? trust)%Z then Silver
  else Bronze.

(** [UserSchema.pre('save')]: auto-blacklist on excessive debt, then
    auto-tier. Returns the document and the events emitted. *)
Definition preSave (now : Time) (d : UserDoc) : UserDoc * list Event :=
  let '(d1, evs) :=
    if isModified (fun u => debtBalance (wallet u)) d || isNew d then
      let debt := debtBalance (wallet (this d)) in
      if gt debt DEBT_BLACKLIST_THRESHOLD
         && bool_decide (status (this d) <> Blacklisted)
      then (setThis d (blacklist (this d) now), [UserBlacklisted (docId d) debt])
      else (d, [])
    else (d, []) in
  let d2 :=
    if isModified trustScore d1
    then setThis d1 (setUserTier (this d1) (tierOf (trustScore (this d1))))
    else d1 in
  (d2, evs).

(** What [save] writes: the modified paths of the document over the stored
    document, every other path of the stored document being kept. *)
Definition pick {A} `{EqDecision A} (old new stored : A) : A :=
  if decide (new = old) then stored else new.

Definition persist (old new stored : User) : User :=
  {| fullName := pick (fullName old) (fullName new) (fullName stored);
     wallet :=
       {| availableBalance :=
            pick (availableBalance (wallet old)) (availableBalance (wallet new))
                 (availableBalance (wallet stored));
          vaultBalance :=
            pick (vaultBalance (wallet old)) (vaultBalance (wallet new))
                 (vaultBalance (wallet stored));
          debtBalance :=
            pick (debtBalance (wallet old)) (debtBalance (wallet new))
                 (debtBalance (wallet stored)) |};
     trustScore := pick (trustScore old) (trustScore new) (trustScore stored);
     userTier := pick (userTier old) (userTier new) (userTier stored);
     status := pick (status old) (status new) (status stored);
     activeCircles :=
       pick (activeCircles old) (activeCircles new) (activeCircles stored);
     blacklistedAt :=
       pick (blacklistedAt old) (blacklistedAt new) (blacklistedAt stored);
     blacklistReason :=
       pick (blacklistReason old) (blacklistReason new) (blacklistReason stored) |}.

(** [doc.save()]: run the hook, then insert a new document, or update the
    stored one with the modified paths. No modelled path deletes a user, so
    the stored document of a loaded one is always there. *)
Definition save (now : Time) (d : UserDoc) : M UserDoc :=
  fun w =>
    let '(d1, evs) := preSave now d in
    let users' :=
      if isNew d1 then <[docId d1 := this d1]> (users w)
      else alter (persist (pristine d1) (this d1)) (docId d1) (users w) in
    ({| users := users'; circles := circles w; reserve := reserve w;
        emitted := emitted w ++ evs |},
     inr {| docId := docId d1; isNew := false;
            pristine := this d1; this := this d1 |}).

(** [applyDefaultPenalty(baseAmount)] *)
Definition penaltyRate : number := decimal 5 100.

Definition applyDefaultPenalty (baseAmount : number) (now : Time) (d : UserDoc)
  : M UserDoc :=
  let totalOwed := (baseAmount * (ofZ 1 + penaltyRate))%num in
  let currentDebt := debtBalance (wallet (this d)) in
  let w1 := {| availableBalance := availableBalance (wallet (this d));
               vaultBalance := vaultBalance (wallet (this d));
               debtBalance := toDecimal128 (currentDebt + totalOwed)%num |} in
  let u1 := setWallet (this d) w1 in
  let u2 := setTrustScore u1 (Z.max TRUST_SCORE_MIN (trustScore u1 - 50)) in
  save now (setThis d u2).

(** [canJoinCircle()] *)
Inductive JoinDenial : Type :=
| DeniedBlacklisted
| DeniedFrozen
| DeniedTierLimit (tier : Tier) (maxCircles : nat).

Record JoinCheck : Type := mkJoinCheck {
  allowed : bool;
  reason : option JoinDenial
}.

Definition tierLimits (t : Tier) : nat :=
  match t with Bronze => 2 | Silver => 5 | Gold => 10 end.

Definition canJoinCircle (u : User) : JoinCheck :=
  if bool_decide (status u = Blacklisted) then
    {| allowed := false; reason := Some DeniedBlacklisted |}
  else if bool_decide (status u = Frozen) then
    {| allowed := false; reason := Some DeniedFrozen |}
  else
    let maxCircles := tierLimits (userTier u) in
    if (maxCircles <=? length (activeCircles u))%nat then
      {| allowed := false; reason := Some (DeniedTierLimit (userTier u) maxCircles) |}
    else {| allowed := true; reason := None |}.

(** [escrowToVault(amount)] *)
Definition escrowToVault (amount : number) (now : Time) (d : UserDoc) : M UserDoc :=
  let available := availableBalance (wallet (this d)) in
  if lt available amount then throw InsufficientAvailableBalance
  else
    let vault := vaultBalance (wallet (this d)) in
    let w1 := {| availableBalance := toDecimal128 (available - amount)%num;
                 vaultBalance := toDecimal128 (vault + amount)%num;
                 debtBalance := debtBalance (wallet (this d)) |} in
    save now (setThis d (setWallet (this d) w1)).

(** [repayDebt(amount)]: returns the remaining debt and the saved document. *)
Definition repayDebt (amount : number) (now : Time) (d : UserDoc)
  : M (number * UserDoc) :=
  let available := availableBalance (wallet (this d)) in
  let debt := debtBalance (wallet (this d)) in
  if gt amount available then throw InsufficientFunds
  else if gt amount debt then throw PaymentExceedsDebt
  else
    let w1 := {| availableBalance := toDecimal128 (available - amount)%num;
                 vaultBalance := vaultBalance (wallet (this d));
                 debtBalance := toDecimal128 (debt - amount)%num |} in
    let u1 := setWallet (this d) w1 in
    let u2 := setTrustScore u1 (Z.min TRUST_SCORE_MAX (trustScore u1 + 10)) in
    let u3 := if strictEq (debtBalance (wallet u2)) (ofZ 0)
                 && bool_decide (status u2 = Frozen)
              then setStatus u2 UActive else u2 in
    d' ← save now (setThis d u3);
    ret (debtBalance (wallet (this d')), d').

(** ** services/CycleManager.js *)

(** The settlement receipt [processCirclePayout] returns. *)
Record Receipt : Type := mkReceipt {
  recipient : string;
  grossAmount : number;
  platformFee : number;
  netPayout : number;
  withheldInVault : number;
  availableNow : number;
  defaultsCovered : nat;
  backstopLoan : number;
  nextTurn : nat
}.

Definition platformFeeRate : number := decimal 15 1000.

(** [{ Bronze: 0.20, Silver: 0.10, Gold: 0.10 }] *)
Definition withholdingRates (t : Tier) : number :=
  match t with
  | Bronze => decimal 20 100
  | Silver => decimal 10 100
  | Gold => decimal 10 100
  end.

(** [.populate('members.user')]: every member carries the document of its
    user, or [null] when there is none. The join route refuses a user who is
    a member already, so no two members share a user document. *)
Definition populateMembers (ms : list Member) : M (list (Member * option UserDoc)) :=
  fun w => (w, inr (map (fun m => (m, loadDoc w (user m))) ms)).

(** [.populate('payoutOrder')]: the documents of the users of the array;
    mongoose drops from a populated array the ids it finds no document for. *)
Definition populatePayoutOrder (ids : list UserId) : M (list UserId) :=
  fun w => (w, inr (filter (fun i => is_Some (users w !! i)) ids)).

(** The virtual [currentRecipient], on the populated array. *)
Definition currentRecipient (order : list UserId) (turn : nat) : option UserId :=
  match order with
  | [] => None
  | _ => order !! (turn mod length order)%nat
  end.

Definition paidMembers {A} (ms : list (Member * A)) : list (Member * A) :=
  filter (fun p => paymentStatus (fst p) = Paid) ms.

Definition setPaymentStatus (m : Member) (s : PaymentStatus) : Member :=
  {| user := user m; paymentStatus := s;
     lastPaymentDate := lastPaymentDate m;
     totalContributionsMade := totalContributionsMade m |}.

(** Step 3, the loop over the members that did not pay: a loan is recorded
    on the reserve in memory, the penalty is applied to (and saved with) the
    member's populated user document, and the member is marked. *)
Fixpoint recordDefaults (circleId : CircleId) (contribution : number) (now : Time)
    (ms : list (Member * option UserDoc)) (r : BackstopReserve)
  : M (list (Member * option UserDoc) * BackstopReserve) :=
  match ms with
  | [] => ret ([], r)
  | (m, od) :: rest =>
    if bool_decide (paymentStatus m = Paid) then
      p ← recordDefaults circleId contribution now rest r;
      ret ((m, od) :: fst p, snd p)
    else
      match od with
      | None => throw TypeError
      | Some d =>
        let r1 := {| balance := balance r; totalDeployed := totalDeployed r;
                     activeLoans := activeLoans r ++
                       [{| loanCircle := circleId;
                           loanAmount := toDecimal128 contribution;
                           defaultedUser := docId d;
                           recovered := false;
                           createdAt := now |}] |} in
        d1 ← applyDefaultPenalty contribution now d;
        d2 ← save now d1;
        p ← recordDefaults circleId contribution now rest r1;
        ret ((setPaymentStatus m Defaulted, Some d2) :: fst p, snd p)
      end
  end.

(** Step 3: a positive shortfall is drawn from the reserve, whose balance
    already holds the fee of this round, or the payout is abandoned; the
    members that did not pay are then recorded. Returns the loan, the
    members and the reserve in memory. *)
Definition coverShortfall (circleId : CircleId) (contribution shortfall : number)
    (now : Time) (ms : list (Member * option UserDoc)) (reserve1 : BackstopReserve)
  : M (number * list (Member * option UserDoc) * BackstopReserve) :=
  if gt shortfall (ofZ 0) then
    let reserveBalance := balance reserve1 in
    if lt reserveBalance shortfall
    then throw (BackstopInsufficient shortfall reserveBalance)
    else
      let reserve2 :=
        {| balance := toDecimal128 (reserveBalance - shortfall)%num;
           totalDeployed := toDecimal128 (totalDeployed reserve1 + shortfall)%num;
           activeLoans := activeLoans reserve1 |} in
      p ← recordDefaults circleId contribution now ms reserve2;
      ret (shortfall, fst p, snd p)
  else ret (ofZ 0, ms, reserve1).

(** Step 5: the recipient's document, loaded before step 3, is credited and
    saved. *)
Definition creditRecipient (availableAmount vaultAmount : number) (now : Time)
    (d : UserDoc) : M UserDoc :=
  let currentAvailable := availableBalance (wallet (this d)) in
  let currentVault := vaultBalance (wallet (this d)) in
  let w1 := {| availableBalance := toDecimal128 (currentAvailable + availableAmount)%num;
               vaultBalance := toDecimal128 (currentVault + vaultAmount)%num;
               debtBalance := debtBalance (wallet (this d)) |} in
  let u1 := setWallet (this d) w1 in
  let u2 := setTrustScore u1 (Z.min 850 (trustScore u1 + 5)) in
  save now (setThis d u2).

(** Step 6, the reset of the payment statuses. *)
Definition resetMember (m : Member) : Member :=
  {| user := user m;
     paymentStatus := Pending;
     lastPaymentDate := lastPaymentDate m;
     totalContributionsMade :=
       if bool_decide (paymentStatus m = Paid)
       then S (totalContributionsMade m) else totalContributionsMade m |}.

(** [completeCircle], the loop over the members: each user is loaded again
    and, when the vault is positive, the vault is released, the circle is
    removed from the user's active circles, and the user is saved. *)
Definition releaseVault (circleId : CircleId) (now : Time) (d : UserDoc) : M unit :=
  let vaultAmount := vaultBalance (wallet (this d)) in
  if gt vaultAmount (ofZ 0) then
    let available := availableBalance (wallet (this d)) in
    let w1 := {| availableBalance := toDecimal128 (available + vaultAmount)%num;
                 vaultBalance := ofZ 0;
                 debtBalance := debtBalance (wallet (this d)) |} in
    let u1 := setWallet (this d) w1 in
    let u2 := setActiveCircles u1
                (filter (fun cid => cid <> circleId) (activeCircles u1)) in
    _ ← save now (setThis d u2);
    ret tt
  else ret tt.

Fixpoint releaseVaults (circleId : CircleId) (now : Time)
    (ms : list (Member * option UserDoc)) : M unit :=
  match ms with
  | [] => ret tt
  | (m, od) :: rest =>
    ou ← match od with
         | Some d => findUser (docId d)
         | None => ret None
         end;
    match ou with
    | None => throw TypeError
    | Some d => _ ← releaseVault circleId now d;
                releaseVaults circleId now rest
    end
  end.

Definition completeCircle (circleId : CircleId) (now : Time)
    (ms : list (Member * option UserDoc)) : M CircleStatus :=
  _ ← releaseVaults circleId now ms;
  ret Completed.

(** [processCirclePayout(circleId, session)]. The only caller, the payout
    route, passes no session: every [save] is written when it is called. *)
Definition processCirclePayout (circleId : CircleId) (now : Time) : M Receipt :=
  oc ← findCircle circleId;
  match oc with
  | None => throw CircleNotFound
  | Some circle =>
    ms ← populateMembers (members circle);
    order ← populatePayoutOrder (payoutOrder circle);
    if bool_decide (circleStatus circle <> Active) then throw CircleNotActive
    else
    orecipient ← match currentRecipient order (currentTurn circle) with
                 | Some rid => findUser rid
                 | None => ret None
                 end;
    match orecipient with
    | None => throw RecipientNotFound
    | Some recipientDoc =>
      (* step 1: collection *)
      let contribution := contributionAmount circle in
      let expectedTotal := totalPot circle in
      let successfulPayments := paidMembers ms in
      let actualCollected := (ofNat (length successfulPayments) * contribution)%num in
      let shortfall := (expectedTotal - actualCollected)%num in
      let defaultCount := (length ms - length successfulPayments)%nat in
      (* step 2: platform fee *)
      let fee := (expectedTotal * platformFeeRate)%num in
      let net := (expectedTotal - fee)%num in
      let backstopBalance' := toDecimal128 (backstopBalance circle + fee)%num in
      let totalFeesCollected' := toDecimal128 (totalFeesCollected circle + fee)%num in
      oreserve ← findReserve;
      let reserve0 := default newBackstopReserve oreserve in
      let reserve1 := {| balance := toDecimal128 (balance reserve0 + fee)%num;
                         totalDeployed := totalDeployed reserve0;
                         activeLoans := activeLoans reserve0 |} in
      (* step 3: defaults *)
      step3 ← coverShortfall circleId contribution shortfall now ms reserve1;
      let '(loan, ms3, reserve3) := step3 in
      (* step 4: withholding *)
      let withholdingRate := withholdingRates (userTier (this recipientDoc)) in
      let vaultAmount := (net * withholdingRate)%num in
      let availableAmount := (net - vaultAmount)%num in
      (* step 5: ledgers *)
      recipientDoc' ← creditRecipient availableAmount vaultAmount now recipientDoc;
      (* step 6: rotation *)
      let currentTurn' := ((currentTurn circle + 1) mod length order)%nat in
      let ms6 := map (fun p => (resetMember (fst p), snd p)) ms3 in
      let wrapped := bool_decide (currentTurn' = 0%nat) in
      let cycleCount' := if wrapped then S (cycleCount circle) else cycleCount circle in
      status' ←
        (if wrapped && (length order <=? cycleCount')%nat
         then completeCircle circleId now ms6
         else ret (circleStatus circle));
      _ ← saveCircle circleId
            {| title := title circle;
               contributionAmount := contributionAmount circle;
               totalPot := totalPot circle;
               payoutOrder := payoutOrder circle;
               currentTurn := currentTurn';
               cycleCount := cycleCount';
               members := map fst ms6;
               backstopBalance := backstopBalance';
               totalFeesCollected := totalFeesCollected';
               circleStatus := status';
               lastPayoutDate := Some now |};
      _ ← saveReserve reserve3;
      ret {| recipient := fullName (this recipientDoc');
             grossAmount := expectedTotal;
             platformFee := fee;
             netPayout := net;
             withheldInVault := vaultAmount;
             availableNow := availableAmount;
             defaultsCovered := defaultCount;
             backstopLoan := loan;
             nextTurn := currentTurn' |}
    end
  end.

(** [processContribution(circleId, userId, session)] *)
Fixpoint markPaid (userId : UserId) (now : Time) (ms : list Member) : list Member :=
  match ms with
  | [] => []
  | m :: rest =>
    if bool_decide (user m = userId)
    then {| user := user m; paymentStatus := Paid;
            lastPaymentDate := Some now;
            totalContributionsMade := totalContributionsMade m |} :: rest
    else m :: markPaid userId now rest
  end.

Definition setMembers (c : Circle) (ms : list Member) : Circle :=
  {| title := title c; contributionAmount := contributionAmount c;
     totalPot := totalPot c; payoutOrder := payoutOrder c;
     currentTurn := currentTurn c; cycleCount := cycleCount c;
     members := ms; backstopBalance := backstopBalance c;
     totalFeesCollected := totalFeesCollected c;
     circleStatus := circleStatus c; lastPayoutDate := lastPayoutDate c |}.

Definition processContribution (circleId : CircleId) (userId : UserId) (now : Time)
  : M number :=
  oc ← findCircle circleId;
  match oc with
  | None => throw TypeError
  | Some circle =>
    match List.find (fun m => bool_decide (user m = userId)) (members circle) with
    | None => throw NotAMember
    | Some member =>
      if bool_decide (paymentStatus member = Paid) then throw AlreadyPaid
      else
        ou ← findUser userId;
        match ou with
        | None => throw TypeError
        | Some d =>
          d1 ← escrowToVault (contributionAmount circle) now d;
          d2 ← save now d1;
          _ ← saveCircle circleId (setMembers circle (markPaid userId now (members circle)));
          ret (vaultBalance (wallet (this d2)))
        end
    end
  end.

(** ** middleware/circleAuth.js *)

Inductive DenyCode : Type :=
| BLACKLISTED | ACTIVE_DEBT | FROZEN | TIER_LIMIT | LOW_TRUST.

Inductive EntryResult : Type :=
| UserNotFound404
| Denied403 (code : DenyCode)
| Next (userData : User).

Definition validateCircleEntry (userId : UserId) (w : World) : EntryResult :=
  match users w !! userId with
  | None => UserNotFound404
  | Some u =>
    if bool_decide (status u = Blacklisted) then Denied403 BLACKLISTED
    else
      let debt := debtBalance (wallet u) in
      if gt debt (ofZ 0) then Denied403 ACTIVE_DEBT
      else if bool_decide (status u = Frozen) then Denied403 FROZEN
      else if negb (allowed (canJoinCircle u)) then Denied403 TIER_LIMIT
      else if (trustScore u <? 350)%Z then Denied403 LOW_TRUST
      else Next u
  end.

(** A run of defaults on one user document: [applyDefaultPenalty] called
    with each base amount in turn, at the given times. *)
Fixpoint penalties (ops : list (number * Time)) (d : UserDoc) : M UserDoc :=
  match ops with
  | [] => ret d
  | (baseAmount, now) :: rest =>
    d' ← applyDefaultPenalty baseAmount now d;
    penalties rest d'
  end.

(** ** Vocabulary of the properties *)

(** A document is fresh in a world when it was loaded from it (or last saved
    to it) and has not been changed since. *)
Definition fresh (d : UserDoc) (w : World) : Prop :=
  isNew d = false /\ pristine d = this d /\ users w !! docId d = Some (this d).

(** The user a default leaves in memory before the hook runs. *)
Definition penalized (u : User) (baseAmount : number) : User :=
  setTrustScore
    (setWallet u
       {| availableBalance := availableBalance (wallet u);
          vaultBalance := vaultBalance (wallet u);
          debtBalance :=
            toDecimal128 (debtBalance (wallet u)
                          + baseAmount * (ofZ 1 + penaltyRate))%num |})
    (Z.max TRUST_SCORE_MIN (trustScore u - 50)).

(** The quantities of a payout round, read off the circle and the world
    the round starts in: the payout order as populated, the recipient, the
    number of members that have paid, the shortfall, the fee, and the
    reserve (the defaults of the schema when there is no reserve yet). *)
Definition populatedOrder (w : World) (c : Circle) : list UserId :=
  filter (fun i => is_Some (users w !! i)) (payoutOrder c).

Definition recipientOf (w : World) (c : Circle) : option UserId :=
  currentRecipient (populatedOrder w c) (currentTurn c).

Definition paidCount (c : Circle) : nat :=
  length (filter (fun m => paymentStatus m = Paid) (members c)).

Definition collectedOf (c : Circle) : number :=
  (ofNat (paidCount c) * contributionAmount c)%num.

Definition shortfallOf (c : Circle) : number :=
  (totalPot c - collectedOf c)%num.

Definition feeOf (c : Circle) : number :=
  (totalPot c * platformFeeRate)%num.

Definition netOf (c : Circle) : number :=
  (totalPot c - feeOf c)%num.

Definition reserveOf (w : World) : BackstopReserve :=
  default newBackstopReserve (reserve w).

(** The balance the sufficiency check of step 3 reads: the balance of the
    reserve with the fee of the round already added. *)
Definition creditedBalance (w : World) (c : Circle) : number :=
  toDecimal128 (balance (reserveOf w) + feeOf c)%num.

(** What a successful round returns and leaves behind, as functions of the
    circle and the world it starts in: the receipt, the circle after the
    rotation has advanced, and the reserve. *)
Definition loanOf (c : Circle) : number :=
  if gt (shortfallOf c) (ofZ 0) then shortfallOf c else ofZ 0.

Definition receiptOf (w : World) (c : Circle) (recipientUser : User) : Receipt :=
  {| recipient := fullName recipientUser;
     grossAmount := totalPot c;
     platformFee := feeOf c;
     netPayout := netOf c;
     withheldInVault := (netOf c * withholdingRates (userTier recipientUser))%num;
     availableNow :=
       (netOf c - netOf c * withholdingRates (userTier recipientUser))%num;
     defaultsCovered := (length (members c) - paidCount c)%nat;
     backstopLoan := loanOf c;
     nextTurn := ((currentTurn c + 1) mod length (populatedOrder w c))%nat |}.

Definition nextTurnOf (w : World) (c : Circle) : nat :=
  ((currentTurn c + 1) mod length (populatedOrder w c))%nat.

Definition nextCycleCount (w : World) (c : Circle) : nat :=
  if bool_decide (nextTurnOf w c = 0%nat) then S (cycleCount c) else cycleCount c.

Definition completes (w : World) (c : Circle) : bool :=
  bool_decide (nextTurnOf w c = 0%nat)
  && (length (populatedOrder w c) <=? nextCycleCount w c)%nat.

Definition advancedCircle (w : World) (c : Circle) (now : Time) : Circle :=
  {| title := title c;
     contributionAmount := contributionAmount c;
     totalPot := totalPot c;
     payoutOrder := payoutOrder c;
     currentTurn := nextTurnOf w c;
     cycleCount := nextCycleCount w c;
     members := map resetMember (members c);
     backstopBalance := toDecimal128 (backstopBalance c + feeOf c)%num;
     totalFeesCollected := toDecimal128 (totalFeesCollected c + feeOf c)%num;
     circleStatus := if completes w c then Completed else circleStatus c;
     lastPayoutDate := Some now |}.

Definition newLoans (circleId : CircleId) (c : Circle) (now : Time) : list Loan :=
  map (fun m => {| loanCircle := circleId;
                   loanAmount := toDecimal128 (contributionAmount c);
                   defaultedUser := user m;
                   recovered := false;
                   createdAt := now |})
      (filter (fun m => paymentStatus m <> Paid) (members c)).

Definition settledReserve (circleId : CircleId) (w : World) (c : Circle)
    (now : Time) : BackstopReserve :=
  if gt (shortfallOf c) (ofZ 0) then
    {| balance := toDecimal128 (creditedBalance w c - shortfallOf c)%num;
       totalDeployed :=
         toDecimal128 (totalDeployed (reserveOf w) + shortfallOf c)%num;
       activeLoans := activeLoans (reserveOf w) ++ newLoans circleId c now |}
  else
    {| balance := creditedBalance w c;
       totalDeployed := totalDeployed (reserveOf w);
       activeLoans := activeLoans (reserveOf w) |}.

(** The populated members of a round: none of the documents is new, and
    each is the document of the member's user. *)
Definition populated (ms : list (Member * option UserDoc)) : Prop :=
  Forall (fun p => forall d, p.2 = Some d ->
                     isNew d = false /\ docId d = user p.1) ms.

(** The loans step 3 records for the populated members that did not pay. *)
Definition loansFor (circleId : CircleId) (contribution : number) (now : Time)
    (ms : list (Member * option UserDoc)) : list Loan :=
  map (fun p => {| loanCircle := circleId;
                   loanAmount := toDecimal128 contribution;
                   defaultedUser := user p.1;
                   recovered := false;
                   createdAt := now |})
      (filter (fun p => paymentStatus p.1 <> Paid) ms).

(** The members of a circle as [populate] loads them in a world. *)
Definition populatedMembers (w : World) (ms : list Member)
  : list (Member * option UserDoc) :=
  map (fun m => (m, loadDoc w (user m))) ms.

(** The world a successful round leaves, given the world [w3] its saves of
    user documents lead to. *)
Definition settledWorld (circleId : CircleId) (w w3 : World) (c : Circle)
    (now : Time) : World :=
  {| users := users w3;
     circles := <[circleId := advancedCircle w c now]> (circles w);
     reserve := Some (settledReserve circleId w c now);
     emitted := emitted w3 |}.

(** A user whose vault [completeCircle] has released. *)
Definition releasedUser (circleId : CircleId) (u : User) : User :=
  setActiveCircles
    (setWallet u
       {| availableBalance :=
            toDecimal128 (availableBalance (wallet u) + vaultBalance (wallet u))%num;
          vaultBalance := ofZ 0;
          debtBalance := debtBalance (wallet u) |})
    (filter (fun cid => cid <> circleId) (activeCircles u)).

(** Every member of the circle, and everyone in its payout order, has a
    user document. *)
Definition membersExist (w : World) (c : Circle) : Prop :=
  (forall m, m ∈ members c -> is_Some (users w !! user m)) /\
  (forall i, i ∈ payoutOrder c -> is_Some (users w !! i)).

(** Two worlds that differ at most in the contents of the user documents
    and in the events emitted. *)
Definition usersOnly (w w' : World) : Prop :=
  circles w' = circles w /\ reserve w' = reserve w /\
  forall i, is_Some (users w' !! i) <-> is_Some (users w !! i).

(** What may happen to a circle between two payouts (members contribute,
    users default or repay): the rotation of the circle is not touched and
    no user document is deleted. *)
Definition keepsRotation (circleId : CircleId) (w w' : World) : Prop :=
  (forall i, is_Some (users w !! i) -> is_Some (users w' !! i)) /\
  forall c, circles w !! circleId = Some c ->
    exists c', circles w' !! circleId = Some c' /\
               payoutOrder c' = payoutOrder c /\
               currentTurn c' = currentTurn c /\
               cycleCount c' = cycleCount c.

Definition fullCollection (circleId : CircleId) (w : World) : Prop :=
  exists c, circles w !! circleId = Some c /\
            forall m, m ∈ members c -> paymentStatus m = Paid.

(** [n] consecutive successful payouts of a circle, each one made when
    every member has paid. *)
Inductive payoutRounds (circleId : CircleId) : nat -> World -> World -> Prop :=
| rounds_O w : payoutRounds circleId 0 w w
| rounds_S n w0 w1 w2 w3 now r :
    payoutRounds circleId n w0 w1 ->
    keepsRotation circleId w1 w2 ->
    fullCollection circleId w2 ->
    processCirclePayout circleId now w2 = (w3, inr r) ->
    payoutRounds circleId (S n) w0 w3.

(** ** Scenarios *)

(** The scenario of the repository's test 5: a debt of 490,000, then a
    default of 20,000 (21,000 with the penalty), then two more defaults. *)
Definition riskyUser : User :=
  {| fullName := "Risky User";
     wallet := {| availableBalance := ofZ 0; vaultBalance := ofZ 0;
                  debtBalance := ofZ 490000 |};
     trustScore := 400; userTier := Bronze; status := UActive;
     activeCircles := []; blacklistedAt := None; blacklistReason := None |}.

Definition riskyWorld : World :=
  {| users := {[ 7%nat := riskyUser ]}; circles := ∅;
     reserve := None; emitted := [] |}.

Definition riskyDoc : UserDoc :=
  {| docId := 7%nat; isNew := false; pristine := riskyUser; this := riskyUser |}.


(** A frozen account with a debt of 3,000 and 5,000 available. *)
Definition frozenUser : User :=
  {| fullName := "Frozen Member";
     wallet := {| availableBalance := ofZ 5000; vaultBalance := ofZ 20000;
                  debtBalance := ofZ 3000 |};
     trustScore := 845; userTier := Gold; status := Frozen;
     activeCircles := [1%nat]; blacklistedAt := None; blacklistReason := None |}.

Definition frozenWorld : World :=
  {| users := {[ 4%nat := frozenUser ]}; circles := ∅;
     reserve := None; emitted := [] |}.

Definition frozenDoc : UserDoc :=
  {| docId := 4%nat; isNew := false; pristine := frozenUser; this := frozenUser |}.

(** A member account of the payout scenarios: tier Bronze, trust score 400,
    no debt, member of circle 1. *)
Definition memberUser (name : string) (available vault : number) : User :=
  {| fullName := name;
     wallet := {| availableBalance := available; vaultBalance := vault;
                  debtBalance := ofZ 0 |};
     trustScore := 400; userTier := Bronze; status := UActive;
     activeCircles := [1%nat]; blacklistedAt := None; blacklistReason := None |}.

Definition memberOf (id : UserId) (s : PaymentStatus) : Member :=
  {| user := id; paymentStatus := s; lastPaymentDate := None;
     totalContributionsMade := 0 |}.

(** An active circle of the given members, in which everyone contributes
    [contribution] and the pot is [pot], at the given point of its rotation. *)
Definition circleOf (contribution pot : number) (ms : list Member)
    (turn cycles : nat) : Circle :=
  {| title := "Lagos Weekly";
     contributionAmount := contribution;
     totalPot := pot;
     payoutOrder := map user ms;
     currentTurn := turn;
     cycleCount := cycles;
     members := ms;
     backstopBalance := ofZ 0;
     totalFeesCollected := ofZ 0;
     circleStatus := Active;
     lastPayoutDate := None |}.

(** The scenario of the specification: three members, contributions of
    10,000, users 1 and 2 have paid, user 3 has not; user 1 is the
    recipient; the reserve holds the 1,000,000 it is created with. *)
Definition scenarioWorld : World :=
  {| users := {[ 1%nat := memberUser "User 1" (ofZ 40000) (ofZ 10000);
                 2%nat := memberUser "User 2" (ofZ 40000) (ofZ 10000);
                 3%nat := memberUser "User 3" (ofZ 50000) (ofZ 0) ]};
     circles := {[ 1%nat := circleOf (ofZ 10000) (ofZ 30000)
                              [memberOf 1 Paid; memberOf 2 Paid; memberOf 3 Pending]
                              0 0 ]};
     reserve := Some {| balance := ofZ 1000000; totalDeployed := ofZ 0;
                        activeLoans := [] |};
     emitted := [] |}.

(** A circle of two members at the start of its rotation, both of whom have
    paid; the worlds after its first payout, after both members have
    contributed again, and after its second payout. *)
Definition rotationWorld : World :=
  {| users := {[ 1%nat := memberUser "User 1" (ofZ 40000) (ofZ 10000);
                 2%nat := memberUser "User 2" (ofZ 40000) (ofZ 10000) ]};
     circles := {[ 1%nat := circleOf (ofZ 10000) (ofZ 20000)
                              [memberOf 1 Paid; memberOf 2 Paid] 0 0 ]};
     reserve := Some {| balance := ofZ 1000000; totalDeployed := ofZ 0;
                        activeLoans := [] |};
     emitted := [] |}.

Definition rotationWorld1 : World :=
  (processCirclePayout 1 100 rotationWorld).1.

Definition rotationWorld1' : World :=
  (processContribution 1 2 120 (processContribution 1 1 110 rotationWorld1).1).1.

Definition rotationWorld2 : World :=
  (processCirclePayout 1 200 rotationWorld1').1.

Definition withReserveBalance (w : World) (b : number) : World :=
  {| users := users w; circles := circles w;
     reserve := Some {| balance := b; totalDeployed := ofZ 0; activeLoans := [] |};
     emitted := emitted w |}.

Definition drainedWorld : World := withReserveBalance scenarioWorld (ofZ 5000).


(** Four members contributing 7,777 each, of whom only user 1 has paid, and
    a reserve of 50,000. *)
Definition backstopDriftWorld : World :=
  {| users := {[ 1%nat := memberUser "User 1" (ofZ 40000) (ofZ 7777);
                 2%nat := memberUser "User 2" (ofZ 40000) (ofZ 0);
                 3%nat := memberUser "User 3" (ofZ 40000) (ofZ 0);
                 4%nat := memberUser "User 4" (ofZ 40000) (ofZ 0) ]};
     circles := {[ 1%nat := circleOf (ofZ 7777) (ofZ 31108)
                              [memberOf 1 Paid; memberOf 2 Pending;
                               memberOf 3 Pending; memberOf 4 Pending]
                              0 0 ]};
     reserve := Some {| balance := ofZ 50000; totalDeployed := ofZ 0;
                        activeLoans := [] |};
     emitted := [] |}.

(** The last round of a circle of two: turn 1 of rotation 1. User 2, the
    recipient, has paid. User 1 has not, and holds nothing in the vault (the
    completion of circle 2, of which user 1 was a member too, released
    it). *)
Definition closingWorld : World :=
  {| users := {[ 1%nat := {| fullName := "User 1";
                             wallet := {| availableBalance := ofZ 60000;
                                          vaultBalance := ofZ 0;
                                          debtBalance := ofZ 0 |};
                             trustScore := 400; userTier := Bronze;
                             status := UActive; activeCircles := [1%nat];
                             blacklistedAt := None; blacklistReason := None |};
                 2%nat := memberUser "User 2" (ofZ 40000) (ofZ 10000) ]};
     circles := {[ 1%nat := circleOf (ofZ 10000) (ofZ 20000)
                              [memberOf 1 Pending; memberOf 2 Paid] 1 1 ]};
     reserve := Some {| balance := ofZ 1000000; totalDeployed := ofZ 0;
                        activeLoans := [] |};
     emitted := [] |}.

(** ** routes/circles.js *)

(** What a route handler answers with status 400: the message of the error
    it has caught, which is one of its own or one thrown below it. *)
Inductive RouteError : Type :=
| UserOrCircleNotFound
| UserAlreadyMember
| NotMember
| Uncaught (e : Error).

Definition Route (A : Type) : Type := World -> World * (RouteError + A).

(** A user id as a request carries it: a string. [findById] and the arrays
    of ids cast the string to the ObjectId it spells, whatever the case of
    its hexadecimal digits; the routes' own membership tests compare the
    string itself with [m.user.toString()], the lowercase hexadecimal form
    of the stored id, and so hold only for a string that is that form. (A
    string that spells no ObjectId makes the first [findById] throw, before
    anything is read or written.) *)
Record RawId : Type := mkRawId {
  idOf : UserId;
  canonical : bool
}.

Definition canon (i : UserId) : RawId := {| idOf := i; canonical := true |}.

(** [m.user.toString() === userId] *)
Definition spells (m : Member) (userId : RawId) : bool :=
  canonical userId && bool_decide (user m = idOf userId).

Definition newMember (userId : UserId) : Member :=
  {| user := userId; paymentStatus := Pending; lastPaymentDate := None;
     totalContributionsMade := 0 |}.

(** [POST /join]: the user becomes a member and the last of the payout
    order, the pot is recomputed, a circle of two or more becomes Active,
    and the circle is added to the user's active circles. The circle is
    saved first, the user next. Answers the status of the circle. *)
Definition joinRoute (userId : RawId) (circleId : CircleId) (now : Time)
  : Route CircleStatus :=
  fun w =>
    match loadDoc w (idOf userId), circles w !! circleId with
    | Some d, Some circle =>
      if existsb (fun m => spells m userId) (members circle)
      then (w, inl UserAlreadyMember)
      else
        let members' := members circle ++ [newMember (idOf userId)] in
        let payoutOrder' := payoutOrder circle ++ [idOf userId] in
        let memberCount := length payoutOrder' in
        let contrib := contributionAmount circle in
        let status' := if (2 <=? length members')%nat then Active
                       else circleStatus circle in
        let circle' :=
          {| title := title circle;
             contributionAmount := contributionAmount circle;
             totalPot := toDecimal128 (ofNat memberCount * contrib)%num;
             payoutOrder := payoutOrder';
             currentTurn := currentTurn circle;
             cycleCount := cycleCount circle;
             members := members';
             backstopBalance := backstopBalance circle;
             totalFeesCollected := totalFeesCollected circle;
             circleStatus := status';
             lastPayoutDate := lastPayoutDate circle |} in
        let d' := setThis d (setActiveCircles (this d)
                               (activeCircles (this d) ++ [circleId])) in
        match saveCircle circleId circle' w with
        | (w1, _) =>
          match save now d' w1 with
          | (w2, inl e) => (w2, inl (Uncaught e))
          | (w2, inr _) => (w2, inr status')
          end
        end
    | _, _ => (w, inl UserOrCircleNotFound)
    end.

(** The member that [members.find] returns, the first whose user the
    request spells, gets a payment status. *)
Fixpoint markStatus (userId : RawId) (s : PaymentStatus) (ms : list Member)
  : list Member :=
  match ms with
  | [] => []
  | m :: rest =>
    if spells m userId
    then setPaymentStatus m s :: rest
    else m :: markStatus userId s rest
  end.

(** [POST /contribute]: the member's contribution is moved to the vault and
    the member is marked Paid, whatever the member's status was. Answers the
    amount. *)
Definition contributeRoute (userId : RawId) (circleId : CircleId) (now : Time)
  : Route number :=
  fun w =>
    match circles w !! circleId with
    | None => (w, inl (Uncaught TypeError))
    | Some circle =>
      match List.find (fun m => spells m userId) (members circle) with
      | None => (w, inl NotMember)
      | Some _ =>
        match loadDoc w (idOf userId) with
        | None => (w, inl (Uncaught TypeError))
        | Some d =>
          let amount := contributionAmount circle in
          match escrowToVault amount now d w with
          | (w1, inl e) => (w1, inl (Uncaught e))
          | (w1, inr d1) =>
            match save now d1 w1 with
            | (w2, inl e) => (w2, inl (Uncaught e))
            | (w2, inr _) =>
              match saveCircle circleId
                      (setMembers circle (markStatus userId Paid (members circle)))
                      w2 with
              | (w3, _) => (w3, inr amount)
              end
            end
          end
        end
      end
    end.

(** [POST /default]: the penalty is applied to the user and the member is
    marked Defaulted. Answers the user as saved. *)
Definition defaultRoute (userId : RawId) (circleId : CircleId) (now : Time)
  : Route User :=
  fun w =>
    match circles w !! circleId with
    | None => (w, inl (Uncaught TypeError))
    | Some circle =>
      match List.find (fun m => spells m userId) (members circle) with
      | None => (w, inl NotMember)
      | Some _ =>
        match loadDoc w (idOf userId) with
        | None => (w, inl (Uncaught TypeError))
        | Some d =>
          match applyDefaultPenalty (contributionAmount circle) now d w with
          | (w1, inl e) => (w1, inl (Uncaught e))
          | (w1, inr d1) =>
            match saveCircle circleId
                    (setMembers circle (markStatus userId Defaulted (members circle)))
                    w1 with
            | (w2, _) => (w2, inr (this d1))
            end
          end
        end
      end
    end.

(** [POST /payout]: [processCirclePayout] called without a session. *)
Definition payoutRoute (circleId : CircleId) (now : Time) : Route Receipt :=
  fun w =>
    match processCirclePayout circleId now w with
    | (w', inl e) => (w', inl (Uncaught e))
    | (w', inr r) => (w', inr r)
    end.

(** ** Further scenarios *)

(** The scenario of the specification before anyone has joined a second
    time: the same circle, still Forming; and the same circle when none of
    the users of its payout order exists. *)
Definition formingWorld : World :=
  {| users := users scenarioWorld;
     circles := {[ 1%nat :=
       {| title := "Lagos Weekly"; contributionAmount := ofZ 10000;
          totalPot := ofZ 10000; payoutOrder := [1%nat]; currentTurn := 0;
          cycleCount := 0; members := [memberOf 1 Pending];
          backstopBalance := ofZ 0; totalFeesCollected := ofZ 0;
          circleStatus := Forming; lastPayoutDate := None |} ]};
     reserve := reserve scenarioWorld; emitted := [] |}.

Definition orphanWorld : World :=
  {| users := ∅; circles := circles scenarioWorld;
     reserve := reserve scenarioWorld; emitted := [] |}.

(** The requests the circle routes answer, and the database each leaves,
    whether the answer is a success or an error: nothing is rolled back. *)
Inductive Request : Type :=
| PostJoin (userId : RawId) (circleId : CircleId)
| PostPayout (circleId : CircleId)
| PostContribute (userId : RawId) (circleId : CircleId)
| PostDefault (userId : RawId) (circleId : CircleId).

Definition handle (now : Time) (rq : Request) (w : World) : World :=
  match rq with
  | PostJoin userId circleId => (joinRoute userId circleId now w).1
  | PostPayout circleId => (payoutRoute circleId now w).1
  | PostContribute userId circleId => (contributeRoute userId circleId now w).1
  | PostDefault userId circleId => (defaultRoute userId circleId now w).1
  end.

Fixpoint handleAll (rqs : list (Time * Request)) (w : World) : World :=
  match rqs with
  | [] => w
  | (now, rq) :: rest => handleAll rest (handle now rq w)
  end.

(** A circle of two at the start of its rotation. User 1, the recipient, is
    a Silver member with a trust score of 560 and a debt of 495,000, and has
    not paid; user 2 has paid. *)
Definition debtorUser : User :=
  {| fullName := "User 1";
     wallet := {| availableBalance := ofZ 5000; vaultBalance := ofZ 0;
                  debtBalance := ofZ 495000 |};
     trustScore := 560; userTier := Silver; status := UActive;
     activeCircles := [1%nat]; blacklistedAt := None; blacklistReason := None |}.

Definition debtorWorld : World :=
  {| users := {[ 1%nat := debtorUser;
                 2%nat := memberUser "User 2" (ofZ 40000) (ofZ 10000) ]};
     circles := {[ 1%nat := circleOf (ofZ 10000) (ofZ 20000)
                              [memberOf 1 Pending; memberOf 2 Paid] 0 0 ]};
     reserve := Some {| balance := ofZ 1000000; totalDeployed := ofZ 0;
                        activeLoans := [] |};
     emitted := [] |}.

(** The requests to join of a sequence all spell the user id in its
    lowercase hexadecimal form. *)
Definition canonicalJoin (rq : Request) : Prop :=
  match rq with
  | PostJoin userId _ => canonical userId = true
  | _ => True
  end.

Definition canonicalJoins (rqs : list (Time * Request)) : Prop :=
  Forall (fun p => canonicalJoin p.2) rqs.

(** ** Further vocabulary *)

(** A reputation as the schema and the hook mean it to be: the trust score
    within its bounds, and the tier the one of the trust score. *)
Definition reputable (u : User) : Prop :=
  (TRUST_SCORE_MIN <= trustScore u <= TRUST_SCORE_MAX)%Z /\
  userTier u = tierOf (trustScore u).

(** The document of user [i] as loaded when the stored user was [u]. *)
Definition loaded (i : UserId) (u : User) : UserDoc :=
  {| docId := i; isNew := false; pristine := u; this := u |}.

(** What the hook makes of a document loaded as [u] and changed to [u']. *)
Definition hooked (now : Time) (i : UserId) (u u' : User) : User :=
  this (preSave now {| docId := i; isNew := false; pristine := u; this := u' |}).1.

(** The changes the code makes to a user in memory, besides [penalized]:
    the credit of step 5, the escrow of a contribution, the entry into a
    circle, and the repayment of a debt. *)
Definition credited (u : User) (availableAmount vaultAmount : number) : User :=
  setTrustScore
    (setWallet u
       {| availableBalance :=
            toDecimal128 (availableBalance (wallet u) + availableAmount)%num;
          vaultBalance := toDecimal128 (vaultBalance (wallet u) + vaultAmount)%num;
          debtBalance := debtBalance (wallet u) |})
    (Z.min 850 (trustScore u + 5)).

Definition escrowed (u : User) (amount : number) : User :=
  setWallet u
    {| availableBalance := toDecimal128 (availableBalance (wallet u) - amount)%num;
       vaultBalance := toDecimal128 (vaultBalance (wallet u) + amount)%num;
       debtBalance := debtBalance (wallet u) |}.

Definition joined (u : User) (circleId : CircleId) : User :=
  setActiveCircles u (activeCircles u ++ [circleId]).

Definition repaid (u : User) (amount : number) : User :=
  let u2 :=
    setTrustScore
      (setWallet u
         {| availableBalance :=
              toDecimal128 (availableBalance (wallet u) - amount)%num;
            vaultBalance := vaultBalance (wallet u);
            debtBalance := toDecimal128 (debtBalance (wallet u) - amount)%num |})
      (Z.min TRUST_SCORE_MAX (trustScore u + 10)) in
  if strictEq (debtBalance (wallet u2)) (ofZ 0)
     && bool_decide (status u2 = Frozen)
  then setStatus u2 UActive else u2.

(** A property of the stored users, and what it takes for a change [f] made
    to a loaded document to keep it when the document is saved, whatever has
    been stored for the user in the meantime. *)
Definition allUsers (Pr : UserId -> User -> Prop) (w : World) : Prop :=
  forall i u, users w !! i = Some u -> Pr i u.

Definition keptBy (Pr : UserId -> User -> Prop) (f : User -> User) : Prop :=
  forall now i u s,
    Pr i u -> Pr i s -> Pr i (persist u (hooked now i u (f u)) s).

(** A property every change the circle routes make to a user keeps. *)
Definition stable (Pr : UserId -> User -> Prop) : Prop :=
  (forall a, keptBy Pr (fun u => penalized u a)) /\
  (forall a v, keptBy Pr (fun u => credited u a v)) /\
  (forall cid, keptBy Pr (releasedUser cid)) /\
  (forall a, keptBy Pr (fun u => escrowed u a)) /\
  (forall cid, keptBy Pr (fun u => joined u cid)).

(** The users of the members that have not paid. *)
Definition defaulters (ms : list Member) : list UserId :=
  map user (filter (fun m => paymentStatus m <> Paid) ms).

(** The trust score of every stored user is within the bounds the schema
    validates on save. *)
Definition trusted (w : World) : Prop :=
  allUsers (fun _ u => (TRUST_SCORE_MIN <= trustScore u <= TRUST_SCORE_MAX)%Z) w.

(** Two worlds with the same user documents and the same circles, whatever
    their contents. *)
Definition sameDocuments (w w' : World) : Prop :=
  (forall i, is_Some (users w' !! i) <-> is_Some (users w !! i)) /\
  (forall c, is_Some (circles w' !! c) <-> is_Some (circles w !! c)).

(** The standing of a user: the debt, the reputation and the status. *)
Definition standing (u : User)
  : number * Z * Tier * UserStatus * option Time * option BlacklistReason :=
  (debtBalance (wallet u), trustScore u, userTier u, status u,
   blacklistedAt u, blacklistReason u).

(** The circle a join leaves. *)
Definition joinedCircle (c : Circle) (userId : UserId) : Circle :=
  {| title := title c;
     contributionAmount := contributionAmount c;
     totalPot :=
       toDecimal128 (ofNat (length (payoutOrder c ++ [userId]))
                     * contributionAmount c)%num;
     payoutOrder := payoutOrder c ++ [userId];
     currentTurn := currentTurn c;
     cycleCount := cycleCount c;
     members := members c ++ [newMember userId];
     backstopBalance := backstopBalance c;
     totalFeesCollected := totalFeesCollected c;
     circleStatus := if (2 <=? length (members c ++ [newMember userId]))%nat
                     then Active else circleStatus c;
     lastPayoutDate := lastPayoutDate c |}.

(** A circle as the routes build it: the payout order lists the users of
    the members, in the order of the members; no two members share a user;
    and the pot of a circle that has members is the number of members times
    the contribution. A database is consistent when every circle is such a
    circle and every member has a user document. *)
Definition wellFormed (c : Circle) : Prop :=
  payoutOrder c = map user (members c) /\
  NoDup (map user (members c)) /\
  (members c = [] \/
   totalPot c
   = toDecimal128 (ofNat (length (members c)) * contributionAmount c)%num).

Definition consistent (w : World) : Prop :=
  forall circleId c, circles w !! circleId = Some c ->
    wellFormed c /\ forall m, m ∈ members c -> is_Some (users w !! user m).

(** A blacklisted user with a debt, and a circle that has completed. *)
Definition outcastUser : User :=
  {| fullName := "User 9";
     wallet := {| availableBalance := ofZ 0; vaultBalance := ofZ 0;
                  debtBalance := ofZ 600000 |};
     trustScore := 300; userTier := Bronze; status := Blacklisted;
     activeCircles := [2%nat; 3%nat]; blacklistedAt := Some 50%nat;
     blacklistReason := Some ExcessiveDebt |}.

(** The same user with 600,000 available, alone in the database. *)
Definition solventOutcast : User :=
  setWallet outcastUser
    {| availableBalance := ofZ 600000; vaultBalance := ofZ 0;
       debtBalance := ofZ 600000 |}.

Definition outcastWorld : World :=
  {| users := {[ 9%nat := solventOutcast ]}; circles := ∅;
     reserve := None; emitted := [] |}.



(** The scenario of the specification once the user document of the third
    member, who has not paid, is gone from the collection. *)
Definition bereftWorld : World :=
  {| users := delete 3%nat (users scenarioWorld);
     circles := circles scenarioWorld;
     reserve := reserve scenarioWorld; emitted := [] |}.

(** A frozen account with 40,000 available, a debt of 30,999.55 and a
    trust score of 845, alone in the database. *)
Definition owingUser : User :=
  {| fullName := "User 5";
     wallet := {| availableBalance := ofZ 40000; vaultBalance := ofZ 0;
                  debtBalance := decimal 3099955 100 |};
     trustScore := 845; userTier := Gold; status := Frozen;
     activeCircles := []; blacklistedAt := None; blacklistReason := None |}.

Definition owingWorld : World :=
  {| users := {[ 5%nat := owingUser ]}; circles := ∅;
     reserve := None; emitted := [] |}.

Definition owingDoc : UserDoc :=
  {| docId := 5%nat; isNew := false; pristine := owingUser; this := owingUser |}.
(** * Properties *)

(** ** Numbers *)

Section NumberFacts.

(** The literals of the code are the expected binary64 values. *)
Example platformFeeRate_bits :
  platformFeeRate = S754_finite false 8646911284551352 (-59).
Proof. vm_compute. reflexivity. Qed.

Example threshold_bits :
  DEBT_BLACKLIST_THRESHOLD = S754_finite false 8589934592000000 (-34).
Proof. vm_compute. reflexivity. Qed.


Lemma compare_toDecimal128_r x y :
  SFcompare x (toDecimal128 y) = SFcompare x y.
Proof. destruct x as [[]|[]| |[] ? ?], y as [[]|[]| |[] ? ?]; reflexivity. Qed.

Lemma gt_toDecimal128_l x y : gt (toDecimal128 x) y = gt x y.
Proof. unfold gt, SFltb. by rewrite compare_toDecimal128_r. Qed.


Lemma ge_toDecimal128_l x y : ge (toDecimal128 x) y = ge x y.
Proof. unfold ge, SFleb. by rewrite compare_toDecimal128_r. Qed.

Lemma isNaN_toDecimal128 x : isNaN (toDecimal128 x) = isNaN x.
Proof. by destruct x. Qed.





(** A number strictly equal to 0 is a zero, and is below the blacklist
    threshold. *)
Lemma strictEq_zero x :
  strictEq x (ofZ 0) = true -> exists s, x = S754_zero s.
Proof.
  destruct x as [s|[]| |[] ? ?]; try discriminate. intros _. by exists s.
Qed.

Lemma zero_below_threshold s : gt (S754_zero s) DEBT_BLACKLIST_THRESHOLD = false.
Proof. reflexivity. Qed.

End NumberFacts.

(** ** Documents and [save] *)

Section SaveFacts.

Lemma pick_fresh {A} `{EqDecision A} (old new : A) : pick old new old = new.
Proof. unfold pick. by destruct (decide (new = old)). Qed.

(** Saving a document whose loaded values are the stored ones stores its
    current values. *)
Lemma persist_fresh old new : persist old new old = new.
Proof.
  destruct new as [? [] ? ? ? ? ? ?]. unfold persist. simpl.
  by rewrite !pick_fresh.
Qed.

Lemma preSave_docId now d : docId (preSave now d).1 = docId d.
Proof.
  unfold preSave.
  repeat (match goal with |- context [if ?b then _ else _] => destruct b end;
          simpl); reflexivity.
Qed.

Lemma preSave_isNew now d : isNew (preSave now d).1 = isNew d.
Proof.
  unfold preSave.
  repeat (match goal with |- context [if ?b then _ else _] => destruct b end;
          simpl); reflexivity.
Qed.

Lemma preSave_pristine now d : pristine (preSave now d).1 = pristine d.
Proof.
  unfold preSave.
  repeat (match goal with |- context [if ?b then _ else _] => destruct b end;
          simpl); reflexivity.
Qed.

(** The hook leaves the wallet, the trust score and the active circles
    alone. *)
Lemma preSave_wallet now d : wallet (this (preSave now d).1) = wallet (this d).
Proof.
  unfold preSave.
  repeat (match goal with |- context [if ?b then _ else _] => destruct b end;
          simpl); reflexivity.
Qed.

Lemma preSave_trustScore now d :
  trustScore (this (preSave now d).1) = trustScore (this d).
Proof.
  unfold preSave.
  repeat (match goal with |- context [if ?b then _ else _] => destruct b end;
          simpl); reflexivity.
Qed.

Lemma preSave_activeCircles now d :
  activeCircles (this (preSave now d).1) = activeCircles (this d).
Proof.
  unfold preSave.
  repeat (match goal with |- context [if ?b then _ else _] => destruct b end;
          simpl); reflexivity.
Qed.

Lemma preSave_fullName now d :
  fullName (this (preSave now d).1) = fullName (this d).
Proof.
  unfold preSave.
  repeat (match goal with |- context [if ?b then _ else _] => destruct b end;
          simpl); reflexivity.
Qed.

(** [save] always returns; what it returns and what it writes. *)
Lemma save_eq now d w :
  save now d w =
    ({| users := if isNew d then <[docId d := this (preSave now d).1]> (users w)
                 else alter (persist (pristine d) (this (preSave now d).1))
                            (docId d) (users w);
        circles := circles w; reserve := reserve w;
        emitted := emitted w ++ (preSave now d).2 |},
     inr {| docId := docId d; isNew := false;
            pristine := this (preSave now d).1;
            this := this (preSave now d).1 |}).
Proof.
  unfold save.
  pose proof (preSave_docId now d) as Hid.
  pose proof (preSave_isNew now d) as Hnew.
  pose proof (preSave_pristine now d) as Hp.
  destruct (preSave now d) as [d1 evs]. simpl in *.
  by rewrite Hid, Hnew, Hp.
Qed.

(** A document that is saved with nothing modified leaves the database
    as it is. *)
Lemma preSave_clean now d :
  isNew d = false -> pristine d = this d -> preSave now d = (d, []).
Proof.
  intros Hn Hp. unfold preSave, isModified. rewrite Hn, Hp.
  rewrite bool_decide_eq_false_2 by (intros H; by apply H). simpl.
  rewrite Hp.
  rewrite bool_decide_eq_false_2 by (intros H; by apply H). reflexivity.
Qed.

Lemma alter_persist_clean (u : User) id (m : gmap UserId User) :
  alter (persist u u) id m = m.
Proof.
  apply map_eq. intros i. rewrite lookup_alter.
  destruct (decide (id = i)) as [->|]; [|done].
  destruct (m !! i) as [s|] eqn:E; rewrite ?E; simpl; [|done].
  f_equal. destruct s as [? [] ? ? ? ? ? ?]. unfold persist, pick. simpl.
  repeat (match goal with |- context [decide ?P] => destruct (decide P) end;
          try congruence).
Qed.

End SaveFacts.

Section FreshDocuments.

Lemma loadDoc_fresh w id d : loadDoc w id = Some d -> fresh d w /\ docId d = id.
Proof.
  unfold loadDoc, fresh. destruct (users w !! id) eqn:E; [|done].
  intros [= <-]. simpl. auto.
Qed.

(** Saving a changed document that was fresh stores its values after the
    hook. *)
Lemma save_loaded now d w :
  isNew d = false -> users w !! docId d = Some (pristine d) ->
  save now d w =
    ({| users := <[docId d := this (preSave now d).1]> (users w);
        circles := circles w; reserve := reserve w;
        emitted := emitted w ++ (preSave now d).2 |},
     inr {| docId := docId d; isNew := false;
            pristine := this (preSave now d).1;
            this := this (preSave now d).1 |}).
Proof.
  intros Hn Hs. rewrite save_eq, Hn. do 2 f_equal.
  apply map_eq. intros i. rewrite lookup_alter, lookup_insert.
  destruct (decide (docId d = i)) as [<-|]; [|done].
  rewrite Hs. simpl. by rewrite persist_fresh.
Qed.

Lemma save_loaded_fresh now d w :
  isNew d = false -> users w !! docId d = Some (pristine d) ->
  exists w' d', save now d w = (w', inr d') /\ fresh d' w' /\ docId d' = docId d.
Proof.
  intros Hn Hs. rewrite (save_loaded now d w Hn Hs).
  eexists _, _. split; [reflexivity|]. split; [|reflexivity].
  unfold fresh. simpl. by rewrite lookup_insert_eq.
Qed.

End FreshDocuments.

(** ** Wallet operations *)

Section WalletFacts.

Lemma applyDefaultPenalty_eq baseAmount now d :
  applyDefaultPenalty baseAmount now d
  = save now (setThis d (penalized (this d) baseAmount)).
Proof. reflexivity. Qed.

(** On an account that is blacklisted already, a default changes neither
    the status nor the stamp nor the reason, and emits nothing. *)
Lemma penalty_on_blacklisted baseAmount now d w :
  fresh d w -> status (this d) = Blacklisted ->
  exists w' d',
    applyDefaultPenalty baseAmount now d w = (w', inr d') /\
    fresh d' w' /\ docId d' = docId d /\
    status (this d') = Blacklisted /\
    blacklistedAt (this d') = blacklistedAt (this d) /\
    blacklistReason (this d') = blacklistReason (this d) /\
    emitted w' = emitted w.
Proof.
  intros (Hn & Hp & Hs) Hb. rewrite applyDefaultPenalty_eq.
  set (d2 := setThis d (penalized (this d) baseAmount)).
  assert (Hn2 : isNew d2 = false) by done.
  assert (Hs2 : users w !! docId d2 = Some (pristine d2))
    by (simpl; by rewrite Hp).
  rewrite (save_loaded now d2 w Hn2 Hs2).
  eexists _, _. split; [reflexivity|].
  assert (Hpre : (preSave now d2).2 = [] /\
                 status (this (preSave now d2).1) = Blacklisted /\
                 blacklistedAt (this (preSave now d2).1) = blacklistedAt (this d) /\
                 blacklistReason (this (preSave now d2).1) = blacklistReason (this d)).
  { unfold preSave. simpl. rewrite Hb.
    rewrite (bool_decide_eq_false_2 (Blacklisted <> Blacklisted)) by (intros H; by apply H).
    rewrite andb_false_r.
    repeat (match goal with |- context [if ?b then _ else _] => destruct b end;
            simpl); auto. }
  destruct Hpre as (He & Hst & Hat & Hre).
  unfold fresh. simpl. rewrite lookup_insert_eq, He, app_nil_r. auto 10.
Qed.

Lemma penalties_on_blacklisted ops : forall d w,
  fresh d w -> status (this d) = Blacklisted ->
  exists w' d',
    penalties ops d w = (w', inr d') /\
    fresh d' w' /\ docId d' = docId d /\
    status (this d') = Blacklisted /\
    blacklistedAt (this d') = blacklistedAt (this d) /\
    blacklistReason (this d') = blacklistReason (this d) /\
    emitted w' = emitted w.
Proof.
  induction ops as [|[baseAmount now] rest IH]; intros d w Hf Hb.
  - exists w, d. simpl. auto 10.
  - destruct (penalty_on_blacklisted baseAmount now d w Hf Hb)
      as (w1 & d1 & E1 & Hf1 & Hid1 & Hb1 & Hat1 & Hre1 & Hev1).
    destruct (IH d1 w1 Hf1 Hb1) as (w2 & d2 & E2 & Hf2 & Hid2 & Hb2 & Hat2 & Hre2 & Hev2).
    exists w2, d2. split.
    + simpl. unfold mbind, M_bind, bind. by rewrite E1.
    + split; [exact Hf2|]. repeat split; congruence.
Qed.

End WalletFacts.

(** ** The blacklist trigger *)

Section Blacklist.

(** The default that takes the debt of an account in good standing above
    the threshold blacklists it, stamps the time and gives the reason. *)
Lemma penalty_crossing baseAmount now d w :
  fresh d w ->
  status (this d) <> Blacklisted ->
  gt (debtBalance (wallet (this d))) DEBT_BLACKLIST_THRESHOLD = false ->
  gt (debtBalance (wallet (penalized (this d) baseAmount)))
     DEBT_BLACKLIST_THRESHOLD = true ->
  exists w' d',
    applyDefaultPenalty baseAmount now d w = (w', inr d') /\
    fresh d' w' /\ docId d' = docId d /\
    status (this d') = Blacklisted /\
    blacklistedAt (this d') = Some now /\
    blacklistReason (this d') = Some ExcessiveDebt /\
    emitted w' = emitted w ++
      [UserBlacklisted (docId d)
         (debtBalance (wallet (penalized (this d) baseAmount)))].
Proof.
  intros (Hn & Hp & Hs) Hb Hbelow Habove. rewrite applyDefaultPenalty_eq.
  set (d2 := setThis d (penalized (this d) baseAmount)).
  assert (Hn2 : isNew d2 = false) by done.
  assert (Hs2 : users w !! docId d2 = Some (pristine d2))
    by (simpl; by rewrite Hp).
  rewrite (save_loaded now d2 w Hn2 Hs2).
  eexists _, _. split; [reflexivity|].
  assert (Hmod : isModified (fun u => debtBalance (wallet u)) d2 = true).
  { unfold isModified. apply bool_decide_eq_true_2. subst d2. simpl.
    rewrite Hp. intros E. simpl in Habove. rewrite E in Habove. congruence. }
  assert (Hpre : (preSave now d2).2 =
                   [UserBlacklisted (docId d)
                      (debtBalance (wallet (penalized (this d) baseAmount)))] /\
                 status (this (preSave now d2).1) = Blacklisted /\
                 blacklistedAt (this (preSave now d2).1) = Some now /\
                 blacklistReason (this (preSave now d2).1) = Some ExcessiveDebt).
  { unfold preSave. rewrite Hmod. simpl orb. cbv iota.
    change (this d2) with (penalized (this d) baseAmount).
    rewrite Habove.
    rewrite (bool_decide_eq_true_2 (status (penalized (this d) baseAmount) <> Blacklisted))
      by exact Hb.
    simpl andb. cbv iota.
    match goal with |- context [if ?b then _ else _] => destruct b end;
      simpl; auto. }
  destruct Hpre as (He & Hst & Hat & Hre).
  unfold fresh. simpl. rewrite lookup_insert_eq, He. auto 10.
Qed.

(** C6. When a default takes the debt of an account that is not yet
    blacklisted from at most 500,000 to strictly above it, the account
    becomes Blacklisted, blacklistedAt is stamped with the time of that
    default and blacklistReason is Excessive Debt; however many defaults
    follow, the status, the stamp and the reason stay, and the
    user:blacklisted event has been emitted exactly once. *)
Theorem blacklist_trigger_once
    (w : World) (d : UserDoc) (baseAmount : number) (now : Time)
    (later : list (number * Time)) :
  fresh d w ->
  status (this d) <> Blacklisted ->
  gt (debtBalance (wallet (this d))) DEBT_BLACKLIST_THRESHOLD = false ->
  gt (debtBalance (wallet (penalized (this d) baseAmount)))
     DEBT_BLACKLIST_THRESHOLD = true ->
  exists w' d' u',
    penalties ((baseAmount, now) :: later) d w = (w', inr d') /\
    users w' !! docId d = Some u' /\
    this d' = u' /\
    status u' = Blacklisted /\
    blacklistedAt u' = Some now /\
    blacklistReason u' = Some ExcessiveDebt /\
    emitted w' = emitted w ++
      [UserBlacklisted (docId d)
         (debtBalance (wallet (penalized (this d) baseAmount)))].
Proof.
  intros Hf Hb Hbelow Habove.
  destruct (penalty_crossing baseAmount now d w Hf Hb Hbelow Habove)
    as (w1 & d1 & E1 & Hf1 & Hid1 & Hb1 & Hat1 & Hre1 & Hev1).
  destruct (penalties_on_blacklisted later d1 w1 Hf1 Hb1)
    as (w2 & d2 & E2 & Hf2 & Hid2 & Hb2 & Hat2 & Hre2 & Hev2).
  exists w2, d2, (this d2). split.
  { simpl. unfold mbind, M_bind, bind. by rewrite E1. }
  destruct Hf2 as (_ & _ & Hs2). rewrite Hid2, Hid1 in Hs2.
  repeat split; try congruence.
Qed.

Lemma blacklist_trigger_once_witness :
  exists w' d' u',
    penalties [(ofZ 20000, 10%nat); (ofZ 20000, 20%nat); (ofZ 5000, 30%nat)]
              riskyDoc riskyWorld = (w', inr d') /\
    users w' !! 7%nat = Some u' /\
    this d' = u' /\
    status u' = Blacklisted /\
    blacklistedAt u' = Some 10%nat /\
    blacklistReason u' = Some ExcessiveDebt /\
    emitted w' = [UserBlacklisted 7%nat (ofZ 511000)].
Proof.
  apply (blacklist_trigger_once riskyWorld riskyDoc (ofZ 20000) 10%nat
           [(ofZ 20000, 20%nat); (ofZ 5000, 30%nat)]).
  - unfold fresh. simpl. repeat split.
  - simpl. discriminate.
  - vm_compute. reflexivity.
  - vm_compute. reflexivity.
Defined.

End Blacklist.

(** ** Debt repayment *)

Section Repay.

Lemma preSave_status_below now d :
  gt (debtBalance (wallet (this d))) DEBT_BLACKLIST_THRESHOLD = false ->
  status (this (preSave now d).1) = status (this d).
Proof.
  intros Hb. unfold preSave. rewrite Hb. simpl andb. cbv iota.
  repeat (match goal with |- context [if ?b then _ else _] => destruct b end;
          simpl); reflexivity.
Qed.

(** What [repayDebt(amount)] does with a freshly loaded document. It
    fails with InsufficientFunds when the amount exceeds the available
    balance and, the available balance sufficing, with "Payment exceeds
    debt" when it exceeds the debt, the database being left as it was.
    Otherwise it stores the floating-point differences [available - amount]
    and [debt - amount], as JavaScript numbers round them, increases the
    trust score by 10, capped at 850, and the status changes in one case
    only, as long as the resulting debt does not exceed the blacklist
    threshold: an account that was Frozen and whose resulting debt is
    exactly 0 becomes Active. *)
Theorem repayDebt_spec (w : World) (d : UserDoc) (amount : number) (now : Time) :
  fresh d w ->
  let available := availableBalance (wallet (this d)) in
  let debt := debtBalance (wallet (this d)) in
  (gt amount available = true ->
     repayDebt amount now d w = (w, inl InsufficientFunds)) /\
  (gt amount available = false -> gt amount debt = true ->
     repayDebt amount now d w = (w, inl PaymentExceedsDebt)) /\
  (gt amount available = false -> gt amount debt = false ->
     exists w' d' u',
       repayDebt amount now d w
         = (w', inr (toDecimal128 (debt - amount)%num, d')) /\
       users w' !! docId d = Some u' /\
       this d' = u' /\
       availableBalance (wallet u') = toDecimal128 (available - amount)%num /\
       debtBalance (wallet u') = toDecimal128 (debt - amount)%num /\
       vaultBalance (wallet u') = vaultBalance (wallet (this d)) /\
       trustScore u' = Z.min 850 (trustScore (this d) + 10) /\
       (strictEq (toDecimal128 (debt - amount)%num) (ofZ 0) = true ->
        status (this d) = Frozen -> status u' = UActive) /\
       (gt (toDecimal128 (debt - amount)%num) DEBT_BLACKLIST_THRESHOLD = false ->
        status u'
        = if strictEq (toDecimal128 (debt - amount)%num) (ofZ 0)
             && bool_decide (status (this d) = Frozen)
          then UActive else status (this d))).
Proof.
  intros (Hn & Hp & Hs) available debt. split; [|split].
  - intros H1. unfold repayDebt. fold available. by rewrite H1.
  - intros H1 H2. unfold repayDebt. fold available debt. by rewrite H1, H2.
  - intros H1 H2. unfold repayDebt. fold available debt. rewrite H1, H2.
    match goal with |- context [save now ?x] => set (d3 := x) end.
    assert (Hn3 : isNew d3 = false) by done.
    assert (Hs3 : users w !! docId d3 = Some (pristine d3))
      by (simpl; by rewrite Hp).
    unfold mbind, M_bind, bind. rewrite (save_loaded now d3 w Hn3 Hs3).
    assert (Hw : wallet (this d3) =
                   {| availableBalance := toDecimal128 (available - amount)%num;
                      vaultBalance := vaultBalance (wallet (this d));
                      debtBalance := toDecimal128 (debt - amount)%num |}).
    { subst d3. simpl.
      match goal with |- context [if ?b then _ else _] => destruct b end;
        reflexivity. }
    assert (Ht : trustScore (this d3) = Z.min 850 (trustScore (this d) + 10)).
    { subst d3. simpl.
      match goal with |- context [if ?b then _ else _] => destruct b end;
        reflexivity. }
    eexists _, _, _. split.
    { unfold ret. simpl. rewrite preSave_wallet, Hw. reflexivity. }
    simpl. rewrite lookup_insert_eq, preSave_wallet, preSave_trustScore, Hw, Ht.
    simpl. repeat split.
    + intros Hz Hfr. destruct (strictEq_zero _ Hz) as [s Es].
      rewrite preSave_status_below.
      * subst d3. simpl. fold available debt. rewrite Hz.
        rewrite bool_decide_eq_true_2 by exact Hfr. reflexivity.
      * rewrite Hw. simpl. rewrite Es. apply zero_below_threshold.
    + intros Hb. rewrite preSave_status_below.
      * subst d3. simpl. fold available debt.
        by destruct (strictEq _ _ && bool_decide _).
      * rewrite Hw. simpl. exact Hb.
Qed.

Lemma repayDebt_spec_witness :
  exists w' d' u',
    repayDebt (ofZ 3000) 50%nat frozenDoc frozenWorld
      = (w', inr (ofZ 0, d')) /\
    users w' !! 4%nat = Some u' /\
    this d' = u' /\
    availableBalance (wallet u') = ofZ 2000 /\
    debtBalance (wallet u') = ofZ 0 /\
    vaultBalance (wallet u') = ofZ 20000 /\
    trustScore u' = 850%Z /\
    status u' = UActive.
Proof.
  destruct (repayDebt_spec frozenWorld frozenDoc (ofZ 3000) 50%nat)
    as (_ & _ & H).
  - unfold fresh. simpl. repeat split.
  - destruct H as (w' & d' & u' & E & Hu & Hd & Ha & Hdebt & Hv & Ht & Hst & _).
    + vm_compute. reflexivity.
    + vm_compute. reflexivity.
    + exists w', d', u'. repeat split; try assumption.
      apply Hst; vm_compute; reflexivity.
Defined.

(** C8. A frozen account owes 30,999.55 and repays 8,607.35 out of the
    40,000 it has available: [repayDebt] succeeds, and the debt it stores
    and returns is not 30,999.55 - 8,607.35 = 22,392.20 but the binary64
    value just below it (22,392.199999999997), so the debt has not
    decreased by exactly the amount. The trust score goes from 845 to its
    cap of 850, and the account, which still owes, stays Frozen. *)
Theorem repaid_debt_drifts :
  exists w' d' u',
    repayDebt (decimal 860735 100) 50 owingDoc owingWorld
      = (w', inr (toDecimal128 (decimal 3099955 100
                                - decimal 860735 100)%num, d')) /\
    users w' !! 5%nat = Some u' /\
    this d' = u' /\
    debtBalance (wallet owingUser) = decimal 3099955 100 /\
    debtBalance (wallet u')
      = toDecimal128 (decimal 3099955 100 - decimal 860735 100)%num /\
    strictEq (debtBalance (wallet u')) (decimal 2239220 100) = false /\
    lt (debtBalance (wallet u')) (decimal 2239220 100) = true /\
    availableBalance (wallet u') = decimal 3139265 100 /\
    trustScore u' = 850%Z /\
    status u' = Frozen.
Proof.
  eexists _, _, _. split; [vm_compute; reflexivity|].
  split; [reflexivity|]. repeat split; vm_compute; reflexivity.
Qed.

End Repay.

(** ** The join checks *)

Section Join.

(** [canJoinCircle] itself denies a blacklisted account first, a frozen
    one next, and otherwise applies the tier limit. *)
Lemma canJoinCircle_allowed u :
  allowed (canJoinCircle u) =
    bool_decide (status u = UActive)
    && (length (activeCircles u) <? tierLimits (userTier u))%nat.
Proof.
  unfold canJoinCircle.
  destruct (status u); simpl; try reflexivity.
  destruct (Nat.leb_spec (tierLimits (userTier u)) (length (activeCircles u)));
    simpl; symmetry.
  - apply Nat.ltb_ge. lia.
  - apply Nat.ltb_lt. lia.
Qed.

(** C9. The join check denies with BLACKLISTED a blacklisted account;
    otherwise with ACTIVE_DEBT an account with a debt above 0; otherwise
    with FROZEN a frozen account; otherwise with TIER_LIMIT an account
    whose number of active circles has reached the limit of its tier
    (Bronze 2, Silver 5, Gold 10); otherwise with LOW_TRUST an account
    whose trust score is below 350; and lets every other account pass. *)
Theorem validateCircleEntry_order (w : World) (userId : UserId) (u : User) :
  users w !! userId = Some u ->
  (tierLimits Bronze = 2 /\ tierLimits Silver = 5 /\ tierLimits Gold = 10)%nat /\
  validateCircleEntry userId w =
    if bool_decide (status u = Blacklisted) then Denied403 BLACKLISTED
    else if gt (debtBalance (wallet u)) (ofZ 0) then Denied403 ACTIVE_DEBT
    else if bool_decide (status u = Frozen) then Denied403 FROZEN
    else if (tierLimits (userTier u) <=? length (activeCircles u))%nat
         then Denied403 TIER_LIMIT
    else if (trustScore u <? 350)%Z then Denied403 LOW_TRUST
    else Next u.
Proof.
  intros Hu. split; [auto|]. unfold validateCircleEntry. rewrite Hu.
  rewrite canJoinCircle_allowed.
  destruct (Nat.leb_spec (tierLimits (userTier u)) (length (activeCircles u)))
    as [Hle|Hlt].
  - apply Nat.ltb_ge in Hle. rewrite Hle, andb_false_r. reflexivity.
  - apply Nat.ltb_lt in Hlt. rewrite Hlt, andb_true_r.
    destruct (status u); reflexivity.
Qed.

(** The frozen account of the scenarios, which also owes a debt, is denied
    for the debt: that check comes before the one on frozen accounts. *)
Lemma validateCircleEntry_order_witness :
  (tierLimits Bronze = 2 /\ tierLimits Silver = 5 /\ tierLimits Gold = 10)%nat /\
  validateCircleEntry 4%nat frozenWorld = Denied403 ACTIVE_DEBT.
Proof.
  destruct (validateCircleEntry_order frozenWorld 4%nat frozenUser) as [Ht E].
  - reflexivity.
  - split; [exact Ht|]. rewrite E. vm_compute. reflexivity.
Defined.

End Join.

(** ** The steps of a payout *)

Section Steps.

Lemma bind_inr {A B} (m : M A) (k : A -> M B) w w1 a :
  m w = (w1, inr a) -> (m ≫= k) w = k a w1.
Proof. intros E. unfold mbind, M_bind, bind. by rewrite E. Qed.

Lemma bind_inl {A B} (m : M A) (k : A -> M B) w w1 e :
  m w = (w1, inl e) -> (m ≫= k) w = (w1, inl e).
Proof. intros E. unfold mbind, M_bind, bind. by rewrite E. Qed.

Lemma usersOnly_refl w : usersOnly w w.
Proof. by repeat split. Qed.

Lemma usersOnly_trans w1 w2 w3 :
  usersOnly w1 w2 -> usersOnly w2 w3 -> usersOnly w1 w3.
Proof.
  intros (Hc & Hr & Hu) (Hc' & Hr' & Hu'). repeat split; try congruence.
  - intros H. by apply Hu, Hu'.
  - intros H. by apply Hu', Hu.
Qed.

(** Saving a loaded document touches the users only, and deletes none. *)
Lemma save_usersOnly now d w :
  isNew d = false ->
  exists w' d',
    save now d w = (w', inr d') /\ usersOnly w w' /\
    isNew d' = false /\ docId d' = docId d /\
    fullName (this d') = fullName (this d).
Proof.
  intros Hn. rewrite save_eq, Hn. eexists _, _. split; [reflexivity|].
  repeat split; simpl; try apply preSave_fullName.
  - rewrite lookup_alter. destruct (decide (docId d = i)) as [<-|]; [|done].
    by rewrite fmap_is_Some.
  - rewrite lookup_alter. destruct (decide (docId d = i)) as [<-|]; [|done].
    by rewrite fmap_is_Some.
Qed.

Lemma applyDefaultPenalty_usersOnly baseAmount now d w :
  isNew d = false ->
  exists w' d',
    applyDefaultPenalty baseAmount now d w = (w', inr d') /\ usersOnly w w' /\
    isNew d' = false /\ docId d' = docId d.
Proof.
  intros Hn. rewrite applyDefaultPenalty_eq.
  destruct (save_usersOnly now (setThis d (penalized (this d) baseAmount)) w Hn)
    as (w' & d' & E & Hu & Hn' & Hid & _).
  exists w', d'. auto.
Qed.

Lemma creditRecipient_usersOnly availableAmount vaultAmount now d w :
  isNew d = false ->
  exists w' d',
    creditRecipient availableAmount vaultAmount now d w = (w', inr d') /\
    usersOnly w w' /\ fullName (this d') = fullName (this d).
Proof.
  intros Hn. unfold creditRecipient.
  match goal with |- context [save now ?x] =>
    destruct (save_usersOnly now x w Hn) as (w' & d' & E & Hu & _ & _ & Hf) end.
  exists w', d'. auto.
Qed.

Lemma releaseVault_usersOnly circleId now d w :
  isNew d = false ->
  exists w', releaseVault circleId now d w = (w', inr tt) /\ usersOnly w w'.
Proof.
  intros Hn. unfold releaseVault.
  destruct (gt (vaultBalance (wallet (this d))) (ofZ 0)).
  - match goal with |- context [save now ?x] =>
      destruct (save_usersOnly now x w Hn) as (w' & d' & E & Hu & _) end.
    exists w'. split; [|done]. by rewrite (bind_inr _ _ _ _ _ E).
  - exists w. split; [done|apply usersOnly_refl].
Qed.

End Steps.

Section Loops.

Lemma resetMember_defaulted m :
  paymentStatus m <> Paid ->
  resetMember (setPaymentStatus m Defaulted) = resetMember m.
Proof.
  intros H. unfold resetMember, setPaymentStatus. simpl.
  by rewrite (bool_decide_eq_false_2 _ H).
Qed.

(** Step 3, the loop: it touches the users only; it fails only on a
    member without a user document; and when it returns, the reserve in
    memory has the same balance and total with one loan more for every
    member that did not pay, and the members are the same up to the
    [Defaulted] marks. *)
Lemma recordDefaults_spec circleId contribution now ms : forall r w,
  populated ms ->
  usersOnly w (recordDefaults circleId contribution now ms r w).1 /\
  match (recordDefaults circleId contribution now ms r w).2 with
  | inl e => e = TypeError /\ Exists (fun p => p.2 = None) ms
  | inr (ms', r') =>
      balance r' = balance r /\
      totalDeployed r' = totalDeployed r /\
      activeLoans r' = activeLoans r ++ loansFor circleId contribution now ms /\
      populated ms' /\
      map (fun p => resetMember p.1) ms' = map (fun p => resetMember p.1) ms /\
      map (fun p => docId <$> p.2) ms' = map (fun p => docId <$> p.2) ms
  end.
Proof.
  induction ms as [|[m od] rest IH]; intros r w Hpop.
  - simpl. split; [apply usersOnly_refl|]. unfold loansFor. simpl.
    rewrite app_nil_r. repeat split; constructor.
  - apply Forall_cons in Hpop as [Hhd Hrest]. simpl.
    destruct (bool_decide (paymentStatus m = Paid)) eqn:Epaid.
    + apply bool_decide_eq_true_1 in Epaid.
      specialize (IH r w Hrest). unfold mbind, M_bind, bind.
      destruct (recordDefaults circleId contribution now rest r w)
        as [w1 [e|[ms' r']]]; simpl in *.
      * destruct IH as [Hu [He Hex]]. split; [done|]. split; [done|].
        by apply Exists_cons_tl.
      * destruct IH as (Hu & Hb & Ht & Hl & Hp & Hm & Hd).
        split; [done|]. repeat split; try done.
        -- rewrite Hl. unfold loansFor. rewrite filter_cons_False; [done|].
           simpl. intros H. by apply H.
        -- by apply Forall_cons.
        -- by rewrite Hm.
        -- by rewrite Hd.
    + apply bool_decide_eq_false_1 in Epaid.
      destruct od as [d|];
        [|simpl; split; [apply usersOnly_refl|split; [done|by left]]].
      destruct (Hhd d eq_refl) as [Hn Hid]. simpl in Hid.
      destruct (applyDefaultPenalty_usersOnly contribution now d w Hn)
        as (w1 & d1 & E1 & Hu1 & Hn1 & Hid1).
      destruct (save_usersOnly now d1 w1 Hn1)
        as (w2 & d2 & E2 & Hu2 & Hn2 & Hid2 & _).
      rewrite (bind_inr _ _ _ _ _ E1), (bind_inr _ _ _ _ _ E2).
      match goal with |- context [recordDefaults _ _ _ rest ?r1'] =>
        set (r1 := r1') end.
      specialize (IH r1 w2 Hrest). unfold mbind, M_bind, bind.
      destruct (recordDefaults circleId contribution now rest r1 w2)
        as [w3 [e|[ms' r']]]; simpl in *.
      * destruct IH as [Hu [He Hex]]. split.
        -- eapply usersOnly_trans; [exact Hu1|].
           eapply usersOnly_trans; [exact Hu2|exact Hu].
        -- split; [done|]. by apply Exists_cons_tl.
      * destruct IH as (Hu & Hb & Ht & Hl & Hp & Hm & Hd). split.
        -- eapply usersOnly_trans; [exact Hu1|].
           eapply usersOnly_trans; [exact Hu2|exact Hu].
        -- repeat split; try done.
           ++ rewrite Hl. unfold loansFor. rewrite filter_cons_True by done.
              simpl. rewrite <- app_assoc. simpl. by rewrite Hid.
           ++ apply Forall_cons. split; [|done]. simpl.
              intros d' [= <-]. split; [done|]. congruence.
           ++ by rewrite resetMember_defaulted, Hm.
           ++ rewrite Hd. do 2 f_equal. congruence.
Qed.

Lemma recordDefaults_ok circleId contribution now ms r w :
  populated ms -> Forall (fun p => is_Some p.2) ms ->
  exists p, (recordDefaults circleId contribution now ms r w).2 = inr p.
Proof.
  intros Hpop Hall.
  destruct (recordDefaults_spec circleId contribution now ms r w Hpop) as [_ H].
  destruct (recordDefaults circleId contribution now ms r w) as [w' [e|p]];
    simpl in *; [|by exists p].
  exfalso. destruct H as [_ H]. apply Exists_exists in H as (p & Hin & Hnone).
  rewrite Forall_forall in Hall. specialize (Hall p Hin).
  rewrite Hnone in Hall. by destruct Hall.
Qed.

(** [completeCircle], the loop: it touches the users only, and returns when
    every member carries a document whose user is (still) there. *)
Lemma releaseVaults_spec circleId now ms : forall w,
  usersOnly w (releaseVaults circleId now ms w).1 /\
  (forall e, (releaseVaults circleId now ms w).2 = inl e -> e = TypeError) /\
  (Forall (fun p => exists d, p.2 = Some d /\ is_Some (users w !! docId d)) ms ->
   (releaseVaults circleId now ms w).2 = inr tt).
Proof.
  induction ms as [|[m od] rest IH]; intros w.
  - simpl. split; [apply usersOnly_refl|]. split; [discriminate|done].
  - simpl. unfold mbind, M_bind, bind.
    destruct od as [d|]; simpl.
    + unfold findUser, loadDoc. simpl.
      destruct (users w !! docId d) as [u|] eqn:Eu; simpl.
      * set (d0 := {| docId := docId d; isNew := false; pristine := u; this := u |}).
        destruct (releaseVault_usersOnly circleId now d0 w eq_refl)
          as (w1 & E1 & Hu1).
        rewrite E1. destruct (IH w1) as (Hu & He & Hok). split; [|split].
        -- eapply usersOnly_trans; [exact Hu1|exact Hu].
        -- exact He.
        -- intros Hall. apply Forall_cons in Hall as [_ Hall]. apply Hok.
           eapply Forall_impl; [exact Hall|]. simpl.
           intros p (d' & Hd' & Hs). exists d'. split; [done|].
           by apply Hu1.
      * split; [apply usersOnly_refl|]. split; [by intros e [= <-]|].
        intros Hall.
        apply Forall_cons in Hall as [(d' & [= <-] & Hs) _].
        rewrite Eu in Hs. by destruct Hs.
    + split; [apply usersOnly_refl|]. split; [by intros e [= <-]|].
      intros Hall.
      apply Forall_cons in Hall as [(d' & Hd' & _) _]. discriminate.
Qed.

End Loops.

(** ** The payout as a whole *)

Section Populate.

Variable w : World.

Lemma populatedMembers_populated ms : populated (populatedMembers w ms).
Proof.
  apply Forall_forall. intros p Hin.
  apply list_elem_of_fmap in Hin as (m & -> & _). simpl.
  intros d Hd. by destruct (loadDoc_fresh _ _ _ Hd) as [(Hn & _) Hid].
Qed.

Lemma populatedMembers_paid ms :
  length (paidMembers (populatedMembers w ms))
  = length (filter (fun m => paymentStatus m = Paid) ms).
Proof.
  unfold paidMembers, populatedMembers.
  induction ms as [|m rest IH]; [done|]. simpl.
  destruct (decide (paymentStatus m = Paid)) as [H|H].
  - rewrite !filter_cons_True by done. simpl. by rewrite IH.
  - by rewrite !filter_cons_False.
Qed.

Lemma populatedMembers_loans circleId contribution now ms :
  loansFor circleId contribution now (populatedMembers w ms)
  = map (fun m => {| loanCircle := circleId;
                     loanAmount := toDecimal128 contribution;
                     defaultedUser := user m;
                     recovered := false;
                     createdAt := now |})
        (filter (fun m => paymentStatus m <> Paid) ms).
Proof.
  unfold loansFor, populatedMembers.
  induction ms as [|m rest IH]; [done|]. simpl.
  destruct (decide (paymentStatus m <> Paid)) as [H|H].
  - rewrite !filter_cons_True by done. simpl. by rewrite IH.
  - by rewrite !filter_cons_False.
Qed.

Lemma populatedMembers_reset ms :
  map (fun p => resetMember p.1) (populatedMembers w ms) = map resetMember ms.
Proof. unfold populatedMembers. by rewrite map_map. Qed.

Lemma populatedMembers_exist ms :
  (forall m, m ∈ ms -> is_Some (users w !! user m)) ->
  Forall (fun p => exists d, p.2 = Some d /\ is_Some (users w !! docId d))
         (populatedMembers w ms).
Proof.
  intros H. apply Forall_forall. intros p Hin.
  apply list_elem_of_fmap in Hin as (m & -> & Hm). simpl.
  destruct (H m Hm) as [u Hu]. unfold loadDoc. rewrite Hu.
  eexists. split; [reflexivity|]. simpl. by rewrite Hu.
Qed.

Lemma populatedMembers_missing ms :
  Exists (fun p => p.2 = None) (populatedMembers w ms) ->
  ~ (forall m, m ∈ ms -> is_Some (users w !! user m)).
Proof.
  intros Hex Hall. apply Exists_exists in Hex as (p & Hin & Hnone).
  apply list_elem_of_fmap in Hin as (m & -> & Hm). simpl in Hnone.
  destruct (Hall m Hm) as [u Hu]. unfold loadDoc in Hnone.
  by rewrite Hu in Hnone.
Qed.

End Populate.

Section Shortfall.

(** Step 3 as a whole. Either the shortfall is positive and above the
    balance, and the step throws with the world as it was; or it touches
    the users only and, unless a member has no user document, returns the
    loan, the members and the reserve. *)
Lemma coverShortfall_spec circleId contribution shortfall now ms r1 w :
  populated ms ->
  (gt shortfall (ofZ 0) = true /\ lt (balance r1) shortfall = true /\
   coverShortfall circleId contribution shortfall now ms r1 w
     = (w, inl (BackstopInsufficient shortfall (balance r1))))
  \/
  ((gt shortfall (ofZ 0) = false \/ lt (balance r1) shortfall = false) /\
   usersOnly w (coverShortfall circleId contribution shortfall now ms r1 w).1 /\
   match (coverShortfall circleId contribution shortfall now ms r1 w).2 with
   | inl e => e = TypeError /\ Exists (fun p => p.2 = None) ms
   | inr (loan, ms3, r3) =>
       loan = (if gt shortfall (ofZ 0) then shortfall else ofZ 0) /\
       r3 = (if gt shortfall (ofZ 0) then
               {| balance := toDecimal128 (balance r1 - shortfall)%num;
                  totalDeployed := toDecimal128 (totalDeployed r1 + shortfall)%num;
                  activeLoans := activeLoans r1
                                 ++ loansFor circleId contribution now ms |}
             else r1) /\
       populated ms3 /\
       map (fun p => resetMember p.1) ms3 = map (fun p => resetMember p.1) ms /\
       map (fun p => docId <$> p.2) ms3 = map (fun p => docId <$> p.2) ms
   end).
Proof.
  intros Hpop. unfold coverShortfall.
  destruct (gt shortfall (ofZ 0)) eqn:Egt.
  - destruct (lt (balance r1) shortfall) eqn:Elt; [left; auto|]. right.
    split; [auto|].
    match goal with |- context [recordDefaults _ _ _ ms ?r2'] =>
      set (r2 := r2') end.
    pose proof (recordDefaults_spec circleId contribution now ms r2 w Hpop)
      as [Hu H].
    unfold mbind, M_bind, bind.
    destruct (recordDefaults circleId contribution now ms r2 w)
      as [w1 [e|[ms' r']]]; simpl in *; [auto|].
    destruct H as (Hb & Ht & Hl & Hp & Hm & Hd). split; [done|].
    repeat split; try done.
    destruct r' as [b t l]. simpl in *. by subst.
  - right. split; [auto|]. simpl. split; [apply usersOnly_refl|]. auto.
Qed.

End Shortfall.

Section Payout.

Lemma docs_exist_transfer (w w' : World) (l1 l2 : list (Member * option UserDoc)) :
  map (fun p => docId <$> p.2) l1 = map (fun p => docId <$> p.2) l2 ->
  (forall i, is_Some (users w !! i) -> is_Some (users w' !! i)) ->
  Forall (fun p => exists d, p.2 = Some d /\ is_Some (users w !! docId d)) l2 ->
  Forall (fun p => exists d, p.2 = Some d /\ is_Some (users w' !! docId d)) l1.
Proof.
  revert l2. induction l1 as [|[m1 o1] l1 IH]; intros [|[m2 o2] l2] Hmap Hex Hall;
    try discriminate; [constructor|].
  simpl in Hmap. injection Hmap as Ho Hrest.
  apply Forall_cons in Hall as [(d & Hd & Hs) Hall]. simpl in Hd. subst o2.
  constructor; [|by eapply IH].
  simpl. destruct o1 as [d1|]; [|discriminate]. simpl in Ho.
  injection Ho as Ho. exists d1. split; [done|]. rewrite Ho. by apply Hex.
Qed.

(** What a payout does once the circle is found Active and its recipient
    exists: it is abandoned with the world untouched when the shortfall is
    positive and above the credited balance; otherwise it settles, unless
    a member has no user document. *)
Lemma payout_outcome circleId now w c rid ru :
  circles w !! circleId = Some c -> circleStatus c = Active ->
  recipientOf w c = Some rid -> users w !! rid = Some ru ->
  (gt (shortfallOf c) (ofZ 0) = true /\ lt (creditedBalance w c) (shortfallOf c) = true /\
     processCirclePayout circleId now w
     = (w, inl (BackstopInsufficient (shortfallOf c) (creditedBalance w c))))
  \/ ((gt (shortfallOf c) (ofZ 0) = false \/ lt (creditedBalance w c) (shortfallOf c) = false) /\
     exists w3, usersOnly w w3 /\
       (processCirclePayout circleId now w
          = (settledWorld circleId w w3 c now, inr (receiptOf w c ru))
        \/ (processCirclePayout circleId now w = (w3, inl TypeError) /\
            ~ (forall m, m ∈ members c -> is_Some (users w !! user m))))).
Proof.
  intros Hc Hact Hrid Hru.
  unfold processCirclePayout.
  rewrite (bind_inr _ _ w w (Some c)) by (unfold findCircle; by rewrite Hc).
  cbv beta iota.
  erewrite (bind_inr _ _ w w) by reflexivity.
  erewrite (bind_inr _ _ w w) by reflexivity.
  rewrite (bool_decide_eq_false_2 (circleStatus c <> Active)) by (intros H; by apply H).
  cbv beta iota.
  change (filter (λ i : UserId, is_Some (users w !! i)) (payoutOrder c)) with (populatedOrder w c).
  change (currentRecipient (populatedOrder w c) (currentTurn c)) with (recipientOf w c).
  rewrite Hrid.
  rewrite (bind_inr _ _ w w (Some {| docId := rid; isNew := false; pristine := ru; this := ru |})) by (unfold findUser, loadDoc; by rewrite Hru).
  cbv beta iota.
  erewrite (bind_inr _ _ w w) by reflexivity.
  change (map (λ m : Member, (m, loadDoc w (user m))) (members c)) with (populatedMembers w (members c)).
  rewrite populatedMembers_paid.
  change (length (filter (λ m, paymentStatus m = Paid) (members c))) with (paidCount c).
  change (ofNat (paidCount c) * contributionAmount c)%num with (collectedOf c).
  change (totalPot c - collectedOf c)%num with (shortfallOf c).
  change (totalPot c * platformFeeRate)%num with (feeOf c).
  change (totalPot c - feeOf c)%num with (netOf c).
  change (default newBackstopReserve (reserve w)) with (reserveOf w).
  change (toDecimal128 (balance (reserveOf w) + feeOf c)%num) with (creditedBalance w c).
  simpl this.
  set (ms := populatedMembers w (members c)).
  set (r1 := {| balance := creditedBalance w c; totalDeployed := totalDeployed (reserveOf w); activeLoans := activeLoans (reserveOf w) |}).
  destruct (coverShortfall_spec circleId (contributionAmount c) (shortfallOf c) now ms r1 w
              (populatedMembers_populated w (members c)))
    as [(Hgt & Hlt & E)|(Hsuff & Hu1 & H)].
  { left. rewrite (bind_inl _ _ _ _ _ E). auto. }
  right. split; [exact Hsuff|].
  destruct (coverShortfall circleId (contributionAmount c) (shortfallOf c) now ms r1 w)
    as [w1 [e|[[loan ms3] r3]]] eqn:E; simpl in Hu1, H.
  { destruct H as [-> Hex]. exists w1. split; [done|]. right.
    rewrite (bind_inl _ _ _ _ _ E). split; [done|].
    by apply populatedMembers_missing in Hex. }
  destruct H as (Hloan & Hr3 & Hpop3 & Hm3 & Hd3).
  rewrite (bind_inr _ _ _ _ _ E). cbv beta iota.
  match goal with |- context [creditRecipient ?a ?v now ?d] =>
    destruct (creditRecipient_usersOnly a v now d w1 eq_refl) as (w2 & d' & E2 & Hu2 & Hname) end.
  rewrite (bind_inr _ _ _ _ _ E2).
  change ((currentTurn c + 1) `mod` length (populatedOrder w c))%nat with (nextTurnOf w c).
  change (if bool_decide (nextTurnOf w c = 0%nat) then S (cycleCount c) else cycleCount c)
    with (nextCycleCount w c).
  change (bool_decide (nextTurnOf w c = 0%nat)
          && (length (populatedOrder w c) <=? nextCycleCount w c)%nat)
    with (completes w c).
  set (ms6 := map (λ p : Member * option UserDoc, (resetMember p.1, p.2)) ms3).
  assert (Hmembers : map fst ms6 = map resetMember (members c)).
  { subst ms6. rewrite map_map. simpl. rewrite Hm3. apply populatedMembers_reset. }
  assert (Hlen : length ms = length (members c)) by apply length_map.
  assert (Hdocs : map (λ p : Member * option UserDoc, docId <$> p.2) ms6
                  = map (λ p : Member * option UserDoc, docId <$> p.2) ms).
  { subst ms6. rewrite map_map. simpl. exact Hd3. }
  assert (Hu12 : usersOnly w w2) by (eapply usersOnly_trans; eauto).
  assert (Hr3' : r3 = settledReserve circleId w c now).
  { rewrite Hr3. unfold settledReserve. subst ms.
    rewrite populatedMembers_loans. reflexivity. }
  assert (Hfinal : forall w3 st, usersOnly w w3 ->
            st = (if completes w c then Completed else circleStatus c) ->
            ({| users := users w3;
                circles := <[circleId :=
                   {| title := title c;
                      contributionAmount := contributionAmount c;
                      totalPot := totalPot c;
                      payoutOrder := payoutOrder c;
                      currentTurn := nextTurnOf w c;
                      cycleCount := nextCycleCount w c;
                      members := map fst ms6;
                      backstopBalance := toDecimal128 (backstopBalance c + feeOf c)%num;
                      totalFeesCollected := toDecimal128 (totalFeesCollected c + feeOf c)%num;
                      circleStatus := st;
                      lastPayoutDate := Some now |}]> (circles w3);
                reserve := Some r3; emitted := emitted w3 |},
             @inr Error Receipt
               {| recipient := fullName (this d');
                  grossAmount := totalPot c;
                  platformFee := feeOf c;
                  netPayout := netOf c;
                  withheldInVault := (netOf c * withholdingRates (userTier ru))%num;
                  availableNow := (netOf c - netOf c * withholdingRates (userTier ru))%num;
                  defaultsCovered := (length ms - paidCount c)%nat;
                  backstopLoan := loan;
                  nextTurn := nextTurnOf w c |})
            = (settledWorld circleId w w3 c now, inr (receiptOf w c ru))).
  { intros w3 st (Hcs & _ & _) ->. unfold settledWorld, advancedCircle, receiptOf.
    rewrite Hcs, Hmembers, Hr3', Hname, Hlen, Hloan. reflexivity. }
  destruct (completes w c) eqn:Ecomp.
  - unfold completeCircle.
    destruct (releaseVaults_spec circleId now ms6 w2) as (Hu3 & He3 & Hok3).
    destruct (releaseVaults circleId now ms6 w2) as [w3 [e|[]]] eqn:E3; simpl in *.
    + rewrite (He3 e eq_refl) in *. exists w3. split; [by eapply usersOnly_trans|].
      right. split.
      * erewrite bind_inl; [reflexivity|]. erewrite bind_inl; [reflexivity|exact E3].
      * intros Hall.
        assert (Hex : Forall (fun p => exists d, p.2 = Some d /\
                                is_Some (users w2 !! docId d)) ms6).
        { eapply docs_exist_transfer; [exact Hdocs| |].
          - intros i. apply Hu12.
          - by apply populatedMembers_exist. }
        specialize (Hok3 Hex). discriminate.
    + exists w3. split; [by eapply usersOnly_trans|]. left.
      erewrite bind_inr; [|erewrite bind_inr; [reflexivity|exact E3]].
      erewrite bind_inr by reflexivity. erewrite bind_inr by reflexivity.
      unfold ret. simpl. apply Hfinal; [by eapply usersOnly_trans|done].
  - exists w2. split; [done|]. left.
    erewrite bind_inr by reflexivity.
    erewrite bind_inr by reflexivity. erewrite bind_inr by reflexivity.
    unfold ret. simpl. by apply Hfinal.
Qed.

Lemma recipientOf_exists w c rid :
  recipientOf w c = Some rid -> is_Some (users w !! rid).
Proof.
  unfold recipientOf, currentRecipient, populatedOrder. intros H.
  destruct (filter _ (payoutOrder c)) as [|i l] eqn:E; [discriminate|].
  apply list_elem_of_lookup_2 in H. rewrite <- E in H.
  by apply list_elem_of_filter in H as [H _].
Qed.

(** The three ways a payout is refused before anything is computed. *)
Lemma payout_refused circleId now w :
  match circles w !! circleId with
  | None => processCirclePayout circleId now w = (w, inl CircleNotFound)
  | Some c =>
    if bool_decide (circleStatus c = Active) then
      match recipientOf w c with
      | None => processCirclePayout circleId now w = (w, inl RecipientNotFound)
      | Some rid => True
      end
    else processCirclePayout circleId now w = (w, inl CircleNotActive)
  end.
Proof.
  unfold processCirclePayout.
  destruct (circles w !! circleId) as [c|] eqn:Hc.
  - rewrite (bind_inr _ _ w w (Some c)) by (unfold findCircle; by rewrite Hc).
    cbv beta iota.
    erewrite (bind_inr _ _ w w) by reflexivity.
    erewrite (bind_inr _ _ w w) by reflexivity.
    destruct (decide (circleStatus c = Active)) as [Hact|Hact].
    + rewrite (bool_decide_eq_true_2 _ Hact).
      rewrite (bool_decide_eq_false_2 (circleStatus c <> Active))
        by (intros H; by apply H).
      cbv beta iota.
      change (filter (λ i : UserId, is_Some (users w !! i)) (payoutOrder c))
        with (populatedOrder w c).
      change (currentRecipient (populatedOrder w c) (currentTurn c))
        with (recipientOf w c).
      destruct (recipientOf w c); [done|].
      by erewrite (bind_inr _ _ w w) by reflexivity.
    + rewrite (bool_decide_eq_false_2 _ Hact).
      by rewrite (bool_decide_eq_true_2 (circleStatus c <> Active)).
  - by rewrite (bind_inr _ _ w w None) by (unfold findCircle; by rewrite Hc).
Qed.

(** A payout that returns a receipt: what held before, the receipt, and
    the world it leaves. *)
Lemma payout_inv circleId now w w' r :
  processCirclePayout circleId now w = (w', inr r) ->
  exists c rid ru w3,
    circles w !! circleId = Some c /\
    circleStatus c = Active /\
    recipientOf w c = Some rid /\
    users w !! rid = Some ru /\
    (gt (shortfallOf c) (ofZ 0) = false \/
     lt (creditedBalance w c) (shortfallOf c) = false) /\
    usersOnly w w3 /\
    w' = settledWorld circleId w w3 c now /\
    r = receiptOf w c ru.
Proof.
  intros E. pose proof (payout_refused circleId now w) as Href.
  destruct (circles w !! circleId) as [c|] eqn:Hc; [|congruence].
  destruct (decide (circleStatus c = Active)) as [Hact|Hact];
    [rewrite (bool_decide_eq_true_2 _ Hact) in Href
    |rewrite (bool_decide_eq_false_2 _ Hact) in Href; congruence].
  destruct (recipientOf w c) as [rid|] eqn:Hrid; [|congruence].
  destruct (recipientOf_exists w c rid Hrid) as [ru Hru].
  destruct (payout_outcome circleId now w c rid ru Hc Hact Hrid Hru)
    as [(_ & _ & E')|(Hsuff & w3 & Hu & [E'|[E' _]])]; try congruence.
  rewrite E in E'. injection E' as -> ->.
  exists c, rid, ru, w3. auto 10.
Qed.

(** A payout returns a receipt when the circle is Active, its members and
    its recipient have user documents, and the credited balance of the
    reserve covers a positive shortfall. *)
Lemma payout_ok circleId now w c rid :
  circles w !! circleId = Some c ->
  circleStatus c = Active ->
  recipientOf w c = Some rid ->
  (forall m, m ∈ members c -> is_Some (users w !! user m)) ->
  (gt (shortfallOf c) (ofZ 0) = false \/
   lt (creditedBalance w c) (shortfallOf c) = false) ->
  exists w' r, processCirclePayout circleId now w = (w', inr r).
Proof.
  intros Hc Hact Hrid Hall Hsuff.
  destruct (recipientOf_exists w c rid Hrid) as [ru Hru].
  destruct (payout_outcome circleId now w c rid ru Hc Hact Hrid Hru)
    as [(Hgt & Hlt & _)|(_ & w3 & Hu & [E'|[_ Hno]])].
  - destruct Hsuff; congruence.
  - eauto.
  - by destruct Hno.
Qed.

(** A payout whose positive shortfall the credited balance does not cover
    is abandoned: it throws, and the world is the one it started in. *)
Lemma payout_insufficient circleId now w c rid :
  circles w !! circleId = Some c ->
  circleStatus c = Active ->
  recipientOf w c = Some rid ->
  gt (shortfallOf c) (ofZ 0) = true ->
  lt (creditedBalance w c) (shortfallOf c) = true ->
  processCirclePayout circleId now w
  = (w, inl (BackstopInsufficient (shortfallOf c) (creditedBalance w c))).
Proof.
  intros Hc Hact Hrid Hgt Hlt.
  destruct (recipientOf_exists w c rid Hrid) as [ru Hru].
  destruct (payout_outcome circleId now w c rid ru Hc Hact Hrid Hru)
    as [(_ & _ & E)|([H|H] & _)]; congruence.
Qed.

End Payout.

(** ** Rotation *)

Section Rotation.

Lemma filter_all {A} (P : A -> Prop) `{forall x, Decision (P x)} (l : list A) :
  (forall x, x ∈ l -> P x) -> filter P l = l.
Proof.
  induction l as [|a l IH]; intros Hall; [done|].
  rewrite filter_cons_True by (apply Hall; left).
  f_equal. apply IH. intros x Hx. apply Hall. by right.
Qed.

Lemma populatedOrder_all w c :
  (forall i, i ∈ payoutOrder c -> is_Some (users w !! i)) ->
  populatedOrder w c = payoutOrder c.
Proof. apply filter_all. Qed.

(** Advancing a turn [n mod len] gives [(n + 1) mod len], and the count of
    rotations goes from [n / len] to [(n + 1) / len]. *)
Lemma advance_turn (len n : nat) :
  (0 < len)%nat ->
  ((n mod len + 1) mod len = (n + 1) mod len)%nat /\
  ((if bool_decide (((n mod len + 1) mod len)%nat = 0%nat)
    then S (n / len) else n / len) = (n + 1) / len)%nat.
Proof.
  intros Hlen.
  assert (Hlen0 : len <> 0%nat) by lia.
  pose proof (Nat.div_mod_eq n len) as Hn.
  pose proof (Nat.mod_upper_bound n len Hlen0) as Ht.
  set (q := (n / len)%nat) in *. set (t := (n mod len)%nat) in *.
  destruct (decide (t + 1 = len)%nat) as [Hwrap|Hno].
  - assert (E1 : ((t + 1) mod len = 0)%nat).
    { rewrite Hwrap. by apply Nat.Div0.mod_same. }
    assert (E2 : ((n + 1) mod len = 0)%nat).
    { symmetry. apply (Nat.mod_unique _ _ (S q)); lia. }
    assert (E3 : ((n + 1) / len = S q)%nat).
    { symmetry. apply (Nat.div_unique _ _ _ 0); lia. }
    rewrite E1, E2, E3. by rewrite bool_decide_eq_true_2.
  - assert (E1 : ((t + 1) mod len = t + 1)%nat) by (apply Nat.mod_small; lia).
    assert (E2 : ((n + 1) mod len = t + 1)%nat).
    { symmetry. apply (Nat.mod_unique _ _ q); lia. }
    assert (E3 : ((n + 1) / len = q)%nat).
    { symmetry. apply (Nat.div_unique _ _ _ (t + 1)); lia. }
    rewrite E1, E2, E3. rewrite bool_decide_eq_false_2 by lia. done.
Qed.

(** After [n] rounds from the start of a rotation, the circle is at turn
    [n mod len] of rotation [n / len], with the payout order it had. *)
Lemma rounds_position circleId w0 c0 :
  circles w0 !! circleId = Some c0 ->
  currentTurn c0 = 0%nat -> cycleCount c0 = 0%nat ->
  payoutOrder c0 <> [] ->
  (forall i, i ∈ payoutOrder c0 -> is_Some (users w0 !! i)) ->
  forall n w, payoutRounds circleId n w0 w ->
  exists c, circles w !! circleId = Some c /\
            payoutOrder c = payoutOrder c0 /\
            (forall i, i ∈ payoutOrder c0 -> is_Some (users w !! i)) /\
            currentTurn c = (n mod length (payoutOrder c0))%nat /\
            cycleCount c = (n / length (payoutOrder c0))%nat.
Proof.
  intros Hc0 Ht0 Hn0 Hne Hex0.
  assert (Hlen : (0 < length (payoutOrder c0))%nat).
  { destruct (payoutOrder c0); [done|simpl; lia]. }
  induction 1 as [w|n w0 w1 w2 w3 now r Hrounds IH Hkeep Hfull Hpay].
  - exists c0. repeat split; try done.
    + rewrite Ht0. symmetry. by apply Nat.Div0.mod_0_l.
    + rewrite Hn0. symmetry. by apply Nat.Div0.div_0_l.
  - destruct (IH Hc0 Hex0) as (c1 & Hc1 & Ho1 & Hex1 & Ht1 & Hn1).
    destruct Hkeep as [Hkeepu Hkeepc].
    destruct (Hkeepc c1 Hc1) as (c2 & Hc2 & Ho2 & Ht2 & Hn2).
    destruct (payout_inv circleId now w2 w3 r Hpay)
      as (c & rid & ru & w3' & Hc & _ & _ & _ & _ & Hu & -> & _).
    rewrite Hc2 in Hc. injection Hc as <-.
    assert (Hex2 : forall i, i ∈ payoutOrder c2 -> is_Some (users w2 !! i)).
    { intros i Hi. apply Hkeepu, Hex1. congruence. }
    exists (advancedCircle w2 c2 now). unfold settledWorld. simpl.
    rewrite lookup_insert_eq. split; [done|]. split; [congruence|].
    unfold nextCycleCount, nextTurnOf. rewrite (populatedOrder_all w2 c2 Hex2).
    rewrite Ho2, Ho1, Ht2, Ht1, Hn2, Hn1.
    destruct (advance_turn (length (payoutOrder c0)) n Hlen) as [E1 E2].
    rewrite E2, E1, Nat.add_1_r. repeat split; try done.
    intros i Hi. destruct Hu as (_ & _ & Hu). apply Hu, Hex2. congruence.
Qed.

(** C7. From a circle at turn 0 of rotation 0, whose payout order is not
    empty and names existing users, as many consecutive successful
    payouts with full collection as the payout order has entries leave
    the circle with cycleCount 1 and currentTurn 0. *)
Theorem rotation_after_full_round
    (circleId : CircleId) (w0 w : World) (c0 : Circle) :
  circles w0 !! circleId = Some c0 ->
  circleStatus c0 = Active ->
  currentTurn c0 = 0%nat ->
  cycleCount c0 = 0%nat ->
  payoutOrder c0 <> [] ->
  (forall i, i ∈ payoutOrder c0 -> is_Some (users w0 !! i)) ->
  payoutRounds circleId (length (payoutOrder c0)) w0 w ->
  exists c, circles w !! circleId = Some c /\
            cycleCount c = 1%nat /\ currentTurn c = 0%nat.
Proof.
  intros Hc0 _ Ht0 Hn0 Hne Hex0 Hrounds.
  destruct (rounds_position circleId w0 c0 Hc0 Ht0 Hn0 Hne Hex0 _ _ Hrounds)
    as (c & Hc & _ & _ & Ht & Hn).
  exists c. split; [done|].
  assert (Hlen : length (payoutOrder c0) <> 0%nat)
    by (destruct (payoutOrder c0); [done|simpl; lia]).
  rewrite Hn, Ht. split.
  - by apply Nat.div_same.
  - by apply Nat.Div0.mod_same.
Qed.

Lemma keepsRotation_refl circleId w : keepsRotation circleId w w.
Proof. split; [done|]. intros c Hc. by exists c. Qed.

Lemma keepsRotation_trans circleId w1 w2 w3 :
  keepsRotation circleId w1 w2 -> keepsRotation circleId w2 w3 ->
  keepsRotation circleId w1 w3.
Proof.
  intros [Hu1 Hc1] [Hu2 Hc2]. split; [auto|].
  intros c Hc. destruct (Hc1 c Hc) as (c' & Hc' & Ho & Ht & Hn).
  destruct (Hc2 c' Hc') as (c'' & Hc'' & Ho' & Ht' & Hn').
  exists c''. repeat split; congruence.
Qed.

(** A contribution, whether it is accepted or refused, does not touch the
    rotation of any circle and deletes no user. *)
Lemma processContribution_keepsRotation circleId circleId' userId now w :
  keepsRotation circleId w (processContribution circleId' userId now w).1.
Proof.
  unfold processContribution.
  rewrite (bind_inr _ _ w w (circles w !! circleId')) by reflexivity.
  destruct (circles w !! circleId') as [circle|] eqn:Hc;
    [|apply keepsRotation_refl].
  destruct (List.find _ (members circle)) as [member|];
    [|apply keepsRotation_refl].
  destruct (bool_decide (paymentStatus member = Paid));
    [apply keepsRotation_refl|].
  rewrite (bind_inr _ _ w w (loadDoc w userId)) by reflexivity.
  unfold loadDoc. destruct (users w !! userId) as [u|] eqn:Hu;
    [|apply keepsRotation_refl].
  set (d := {| docId := userId; isNew := false; pristine := u; this := u |}).
  unfold escrowToVault.
  destruct (lt (availableBalance (wallet (this d))) (contributionAmount circle));
    [apply keepsRotation_refl|].
  match goal with |- context [save now ?x] =>
    destruct (save_usersOnly now x w eq_refl)
      as (w1 & d1 & E1 & Hu1 & Hn1 & _) end.
  destruct (save_usersOnly now d1 w1 Hn1) as (w2 & d2 & E2 & Hu2 & _).
  rewrite (bind_inr _ _ _ _ _ E1), (bind_inr _ _ _ _ _ E2).
  erewrite bind_inr by reflexivity. simpl.
  destruct (usersOnly_trans _ _ _ Hu1 Hu2) as (Hcs & _ & Hus).
  split; simpl.
  - intros i. apply Hus.
  - intros c Hc'. rewrite Hcs.
    destruct (decide (circleId' = circleId)) as [->|Hne].
    + rewrite lookup_insert_eq. rewrite Hc in Hc'. injection Hc' as <-.
      eexists. split; [reflexivity|]. done.
    + rewrite lookup_insert_ne by done. by exists c.
Qed.

Lemma rotation_after_full_round_witness :
  exists c, circles rotationWorld2 !! 1%nat = Some c /\
            cycleCount c = 1%nat /\ currentTurn c = 0%nat.
Proof.
  apply (rotation_after_full_round 1%nat rotationWorld rotationWorld2
           (circleOf (ofZ 10000) (ofZ 20000)
              [memberOf 1 Paid; memberOf 2 Paid] 0 0)).
  - reflexivity.
  - reflexivity.
  - reflexivity.
  - reflexivity.
  - discriminate.
  - intros i Hi. apply list_elem_of_In in Hi. simpl in Hi.
    destruct Hi as [<-|[<-|[]]]; eexists; reflexivity.
  - change (length (payoutOrder (circleOf (ofZ 10000) (ofZ 20000)
              [memberOf 1 Paid; memberOf 2 Paid] 0 0))) with 2%nat.
    eapply (rounds_S 1%nat 1 rotationWorld rotationWorld1 rotationWorld1'
              rotationWorld2 200%nat).
    + eapply (rounds_S 1%nat 0 rotationWorld rotationWorld rotationWorld
                rotationWorld1 100%nat).
      * apply rounds_O.
      * apply keepsRotation_refl.
      * eexists. split; [reflexivity|]. intros m Hm.
        apply list_elem_of_In in Hm. simpl in Hm.
        destruct Hm as [<-|[<-|[]]]; reflexivity.
      * unfold rotationWorld1. vm_compute. reflexivity.
    + eapply keepsRotation_trans; apply processContribution_keepsRotation.
    + eexists. split; [vm_compute; reflexivity|]. intros m Hm.
      apply list_elem_of_In in Hm. simpl in Hm.
      destruct Hm as [<-|[<-|[]]]; reflexivity.
    + unfold rotationWorld2. vm_compute. reflexivity.
Defined.

End Rotation.

(** ** Settlement receipts *)

Section Receipts.

(** The receipt of every successful payout is computed from the pot of the
    circle by the binary64 operations of the code: the fee is the product
    of the pot and 0.015, the net payout the difference of the pot and the
    fee, the vault portion the product of the net payout and the rate of
    the recipient's tier, and the available portion their difference. *)
Lemma receipt_arithmetic circleId now w w' r :
  processCirclePayout circleId now w = (w', inr r) ->
  exists c rid ru,
    circles w !! circleId = Some c /\
    recipientOf w c = Some rid /\ users w !! rid = Some ru /\
    grossAmount r = totalPot c /\
    platformFee r = (totalPot c * platformFeeRate)%num /\
    netPayout r = (totalPot c - platformFee r)%num /\
    withheldInVault r = (netPayout r * withholdingRates (userTier ru))%num /\
    availableNow r = (netPayout r - withheldInVault r)%num.
Proof.
  intros E.
  destruct (payout_inv circleId now w w' r E)
    as (c & rid & ru & w3 & Hc & _ & Hrid & Hru & _ & _ & _ & ->).
  exists c, rid, ru. repeat split; done.
Qed.


(** The fee itself need not be the binary64 value nearest to 1.5% of the
    pot: of a pot of 30 the code takes 0.44999999999999996. *)
Example fee_of_thirty :
  strictEq (ofZ 30 * platformFeeRate)%num (decimal 45 100) = false /\
  lt (ofZ 30 * platformFeeRate)%num (decimal 45 100) = true.
Proof. split; vm_compute; reflexivity. Qed.

(** In the scenario of the specification the payout returns a receipt, and
    the recipient does not net 19,550, nor are the portions 3,910 and
    15,640. *)
Lemma scenario_net_is_not_19550 :
  exists w' r,
    processCirclePayout 1 100 scenarioWorld = (w', inr r) /\
    paidCount (circleOf (ofZ 10000) (ofZ 30000)
                 [memberOf 1 Paid; memberOf 2 Paid; memberOf 3 Pending] 0 0) = 2%nat /\
    netPayout r <> ofZ 19550 /\
    withheldInVault r <> ofZ 3910 /\
    availableNow r <> ofZ 15640.
Proof.
  eexists _, _. split; [vm_compute; reflexivity|].
  split; [reflexivity|]. repeat split; vm_compute; discriminate.
Qed.

(** C2 (amended). In a circle of 3 members contributing 10,000 each, with
    a pot of 30,000, in which exactly two members have paid, a successful
    payout to a Bronze recipient has: pot 30,000, fee 450, one default
    covered by a loan of 10,000 drawn from the reserve, net payout
    29,550, of which 5,910 withheld in the vault and 23,640 available. *)
Theorem scenario_payout
    (circleId : CircleId) (now : Time) (w w' : World) (c : Circle)
    (rid : UserId) (ru : User) (r : Receipt) :
  circles w !! circleId = Some c ->
  length (members c) = 3%nat ->
  contributionAmount c = ofZ 10000 ->
  totalPot c = ofZ 30000 ->
  paidCount c = 2%nat ->
  recipientOf w c = Some rid ->
  users w !! rid = Some ru ->
  userTier ru = Bronze ->
  processCirclePayout circleId now w = (w', inr r) ->
  grossAmount r = ofZ 30000 /\
  platformFee r = ofZ 450 /\
  shortfallOf c = ofZ 10000 /\
  backstopLoan r = ofZ 10000 /\
  defaultsCovered r = 1%nat /\
  netPayout r = ofZ 29550 /\
  withheldInVault r = ofZ 5910 /\
  availableNow r = ofZ 23640 /\
  exists rv,
    reserve w' = Some rv /\
    balance rv = toDecimal128
                   (toDecimal128 (balance (reserveOf w) + ofZ 450) - ofZ 10000)%num /\
    totalDeployed rv = toDecimal128 (totalDeployed (reserveOf w) + ofZ 10000)%num.
Proof.
  intros Hc Hlen Hcontrib Hpot Hpaid Hrid Hru Htier E.
  destruct (payout_inv circleId now w w' r E)
    as (c' & rid' & ru' & w3 & Hc' & _ & Hrid' & Hru' & _ & _ & -> & ->).
  rewrite Hc in Hc'. injection Hc' as <-.
  rewrite Hrid in Hrid'. injection Hrid' as <-.
  rewrite Hru in Hru'. injection Hru' as <-.
  assert (Hfee : feeOf c = ofZ 450)
    by (unfold feeOf; rewrite Hpot; vm_compute; reflexivity).
  assert (Hshort : shortfallOf c = ofZ 10000)
    by (unfold shortfallOf, collectedOf; rewrite Hpot, Hpaid, Hcontrib;
        vm_compute; reflexivity).
  assert (Hnet : netOf c = ofZ 29550)
    by (unfold netOf; rewrite Hfee, Hpot; vm_compute; reflexivity).
  unfold receiptOf, loanOf. simpl.
  rewrite Hfee, Hshort, Hnet, Htier, Hpot, Hlen, Hpaid.
  repeat (split; [vm_compute; reflexivity|]).
  eexists. split; [reflexivity|].
  unfold settledReserve, creditedBalance. rewrite Hshort, Hfee.
  change (gt (ofZ 10000) (ofZ 0)) with true. simpl. done.
Qed.

Lemma scenario_payout_witness :
  exists w' r,
    processCirclePayout 1 100 scenarioWorld = (w', inr r) /\
    netPayout r = ofZ 29550 /\
    withheldInVault r = ofZ 5910 /\
    availableNow r = ofZ 23640 /\
    (balance <$> reserve w') = Some (ofZ 990450) /\
    wallet <$> users w' !! 1%nat
      = Some {| availableBalance := ofZ 63640; vaultBalance := ofZ 15910;
                debtBalance := ofZ 0 |}.
Proof.
  eexists _, _. split; [vm_compute; reflexivity|].
  match goal with |- context [netPayout ?r'] => set (r := r') end.
  match goal with |- context [reserve ?w''] => set (w' := w'') end.
  destruct (scenario_payout 1%nat 100%nat scenarioWorld w'
              (circleOf (ofZ 10000) (ofZ 30000)
                 [memberOf 1 Paid; memberOf 2 Paid; memberOf 3 Pending] 0 0)
              1%nat (memberUser "User 1" (ofZ 40000) (ofZ 10000)) r)
    as (_ & _ & _ & _ & _ & Hnet & Hvault & Havail & rv & Hrv & Hbal & _);
    [vm_compute; reflexivity ..|].
  split; [exact Hnet|]. split; [exact Hvault|]. split; [exact Havail|].
  split; [|vm_compute; reflexivity].
  rewrite Hrv. simpl. rewrite Hbal. vm_compute. reflexivity.
Defined.

End Receipts.

(** ** The backstop reserve *)

Section Reserve.

(** The reserve a successful payout leaves: the fee is added to the
    balance first; a positive shortfall is then subtracted from the
    balance and added to the total deployed. Each operation is the
    binary64 one, and its result is stored as a Decimal128. *)
Lemma reserve_after_payout circleId now w w' r :
  processCirclePayout circleId now w = (w', inr r) ->
  exists c rv,
    circles w !! circleId = Some c /\
    reserve w' = Some rv /\
    (gt (shortfallOf c) (ofZ 0) = true ->
       balance rv = toDecimal128
                      (toDecimal128 (balance (reserveOf w) + feeOf c)
                       - shortfallOf c)%num /\
       totalDeployed rv
         = toDecimal128 (totalDeployed (reserveOf w) + shortfallOf c)%num) /\
    (gt (shortfallOf c) (ofZ 0) = false ->
       balance rv = toDecimal128 (balance (reserveOf w) + feeOf c)%num /\
       totalDeployed rv = totalDeployed (reserveOf w)).
Proof.
  intros E.
  destruct (payout_inv circleId now w w' r E)
    as (c & rid & ru & w3 & Hc & _ & _ & _ & _ & _ & -> & _).
  exists c, (settledReserve circleId w c now). split; [done|].
  split; [done|]. unfold settledReserve.
  split; intros ->; done.
Qed.

(** C4. Four members contribute 7,777 each, one has paid, and the
    reserve holds 50,000: the payout succeeds with a fee of 466.62 and a
    shortfall of 23,331 drawn from the reserve; the total deployed goes
    from 0 to 23,331, but the balance left is not
    50,000 - 23,331 + 466.62 = 27,135.62: it is the next binary64 value
    above (27,135.620000000003). *)
Theorem reserve_balance_drifts :
  exists w' r rv,
    processCirclePayout 1 100 backstopDriftWorld = (w', inr r) /\
    reserve w' = Some rv /\
    platformFee r = decimal 46662 100 /\
    backstopLoan r = ofZ 23331 /\
    totalDeployed rv = (ofZ 0 + ofZ 23331)%num /\
    (ofZ 50000 - ofZ 23331 + platformFee r)%num = decimal 2713562 100 /\
    strictEq (balance rv) (ofZ 50000 - ofZ 23331 + platformFee r)%num = false /\
    gt (balance rv) (decimal 2713562 100) = true.
Proof.
  eexists _, _, _. split; [vm_compute; reflexivity|].
  split; [reflexivity|]. repeat split; vm_compute; reflexivity.
Qed.

(** C3. In the scenario of the specification with a reserve of 5,000, the
    shortfall of 10,000 exceeds the credited balance of 5,450: the payout
    throws "Backstop insufficient" and every collection is as it was; the
    circle, in particular, is still Active and not Paused. *)
Theorem insufficient_reserve_leaves_circle_active :
  processCirclePayout 1 100 drainedWorld
    = (drainedWorld, inl (BackstopInsufficient (ofZ 10000) (ofZ 5450))) /\
  circleStatus <$> circles (processCirclePayout 1 100 drainedWorld).1 !! 1%nat
    = Some Active.
Proof.
  assert (E : processCirclePayout 1 100 drainedWorld
              = (drainedWorld, inl (BackstopInsufficient (ofZ 10000) (ofZ 5450)))).
  { rewrite (payout_insufficient 1%nat 100%nat drainedWorld
               (circleOf (ofZ 10000) (ofZ 30000)
                  [memberOf 1 Paid; memberOf 2 Paid; memberOf 3 Pending] 0 0)
               1%nat); [|vm_compute; reflexivity ..].
    vm_compute. reflexivity. }
  split; [exact E|]. rewrite E. reflexivity.
Qed.


(** A payout that the check lets through stops on the first member that
    has not paid and has no user document. *)
Example payout_stops_on_a_missing_member :
  let c := circleOf (ofZ 10000) (ofZ 30000)
             [memberOf 1 Paid; memberOf 2 Paid; memberOf 3 Pending] 0 0 in
  circles bereftWorld !! 1%nat = Some c /\
  recipientOf bereftWorld c = Some 1%nat /\
  ge (balance (reserveOf bereftWorld) + totalPot c * platformFeeRate)%num
     (shortfallOf c) = true /\
  exists w', processCirclePayout 1 100 bereftWorld = (w', inl TypeError).
Proof.
  cbv zeta. split; [reflexivity|]. split; [vm_compute; reflexivity|].
  split; [vm_compute; reflexivity|].
  eexists. vm_compute. reflexivity.
Qed.



End Reserve.

(** ** Completion *)

Section Completion.

(** [completeCircle] leaves alone a user whose vault is not positive: the
    circle stays among the user's active circles. *)
Lemma releaseVault_empty circleId now d w :
  gt (vaultBalance (wallet (this d))) (ofZ 0) = false ->
  releaseVault circleId now d w = (w, inr tt).
Proof. intros H. unfold releaseVault. by rewrite H. Qed.

(** For a user loaded from the database, [completeCircle] releases the
    vault and removes the circle from the active circles when the vault is
    positive, and only then. *)
Lemma releaseVault_spec circleId now id u w :
  users w !! id = Some u ->
  releaseVault circleId now
    {| docId := id; isNew := false; pristine := u; this := u |} w
  = ({| users := if gt (vaultBalance (wallet u)) (ofZ 0)
                 then <[id := releasedUser circleId u]> (users w)
                 else users w;
        circles := circles w; reserve := reserve w; emitted := emitted w |},
     inr tt).
Proof.
  intros Hu. unfold releaseVault. simpl.
  destruct (gt (vaultBalance (wallet u)) (ofZ 0)); [|by destruct w].
  match goal with |- context [save now ?x] => set (d := x) end.
  assert (Hpre : preSave now d = (d, [])).
  { unfold preSave, isModified. simpl.
    rewrite bool_decide_eq_false_2 by (intros H; by apply H). simpl.
    rewrite bool_decide_eq_false_2 by (intros H; by apply H). reflexivity. }
  erewrite bind_inr; [|apply (save_loaded now d w eq_refl Hu)].
  unfold ret. rewrite Hpre. simpl. by rewrite app_nil_r.
Qed.

(** C5. The last payout of a circle of two wraps the turn to 0, takes the
    count of rotations to 2 and completes the circle; the vault of the
    recipient is released and the circle leaves the recipient's active
    circles, but it stays among the active circles of the other member,
    whose vault was empty. *)
Theorem completion_skips_empty_vaults :
  exists w' r c,
    processCirclePayout 1 100 closingWorld = (w', inr r) /\
    circles w' !! 1%nat = Some c /\
    currentTurn c = 0%nat /\ cycleCount c = 2%nat /\
    length (payoutOrder c) = 2%nat /\
    circleStatus c = Completed /\
    activeCircles <$> users w' !! 2%nat = Some [] /\
    vaultBalance ∘ wallet <$> users w' !! 2%nat = Some (ofZ 0) /\
    vaultBalance ∘ wallet <$> users w' !! 1%nat = Some (ofZ 0) /\
    activeCircles <$> users w' !! 1%nat = Some [1%nat].
Proof.
  eexists _, _, _. split; [vm_compute; reflexivity|].
  split; [vm_compute; reflexivity|].
  repeat split; vm_compute; reflexivity.
Qed.

End Completion.

(** ** Trust scores stay within the bounds of the schema *)

Section TrustScore.

(** The schema validates [300 <= trustScore <= 850] when a user is saved.
    The three updates of the code keep a score within these bounds, so
    the validation never rejects a save and is left out of [save]. *)
Lemma trust_updates_in_range (t : Z) :
  (TRUST_SCORE_MIN <= t <= TRUST_SCORE_MAX)%Z ->
  (TRUST_SCORE_MIN <= Z.max TRUST_SCORE_MIN (t - 50) <= TRUST_SCORE_MAX)%Z /\
  (TRUST_SCORE_MIN <= Z.min TRUST_SCORE_MAX (t + 10) <= TRUST_SCORE_MAX)%Z /\
  (TRUST_SCORE_MIN <= Z.min 850 (t + 5) <= TRUST_SCORE_MAX)%Z.
Proof. unfold TRUST_SCORE_MIN, TRUST_SCORE_MAX. lia. Qed.

(** The tier follows the score: Gold from 750, Silver from 550. *)
Lemma tierOf_spec (t : Z) :
  tierOf t = Gold /\ (750 <= t)%Z \/
  tierOf t = Silver /\ (550 <= t < 750)%Z \/
  tierOf t = Bronze /\ (t < 550)%Z.
Proof.
  unfold tierOf.
  destruct (Z.leb_spec 750 t); [left; split; [done|lia]|].
  destruct (Z.leb_spec 550 t); right; [left|right]; split; try done; lia.
Qed.

End TrustScore.

(** ** Further properties of the payout *)

Section PayoutEdges.

(** A payout is refused, with the database left as it was: with "Circle not
    found" when there is no such circle, with "Circle is not active" when
    the circle is in any state but Active, and with "Recipient not found"
    when none of the users of its payout order exists (in particular when
    the payout order is empty). *)
Theorem payout_refusals (circleId : CircleId) (now : Time) (w : World) :
  (circles w !! circleId = None ->
   processCirclePayout circleId now w = (w, inl CircleNotFound)) /\
  (forall c, circles w !! circleId = Some c -> circleStatus c <> Active ->
   processCirclePayout circleId now w = (w, inl CircleNotActive)) /\
  (forall c, circles w !! circleId = Some c -> circleStatus c = Active ->
   (forall i, i ∈ payoutOrder c -> users w !! i = None) ->
   processCirclePayout circleId now w = (w, inl RecipientNotFound)).
Proof.
  pose proof (payout_refused circleId now w) as H.
  split; [|split].
  - intros Hc. by rewrite Hc in H.
  - intros c Hc Hs. rewrite Hc in H.
    by rewrite (bool_decide_eq_false_2 _ Hs) in H.
  - intros c Hc Hs Hnone. rewrite Hc in H.
    rewrite (bool_decide_eq_true_2 _ Hs) in H.
    assert (Hrec : recipientOf w c = None).
    { unfold recipientOf, populatedOrder.
      assert (E : filter (fun i => is_Some (users w !! i)) (payoutOrder c) = []).
      { destruct (filter _ (payoutOrder c)) as [|i l] eqn:E; [done|].
        assert (Hi : i ∈ filter (fun i => is_Some (users w !! i)) (payoutOrder c))
          by (rewrite E; left).
        apply list_elem_of_filter in Hi as [[u Hu] Hi].
        rewrite (Hnone i Hi) in Hu. discriminate. }
      by rewrite E. }
    by rewrite Hrec in H.
Qed.

Lemma payout_refusals_witness :
  processCirclePayout 9 100 scenarioWorld = (scenarioWorld, inl CircleNotFound) /\
  processCirclePayout 1 100 formingWorld = (formingWorld, inl CircleNotActive) /\
  processCirclePayout 1 100 orphanWorld = (orphanWorld, inl RecipientNotFound).
Proof.
  split; [|split].
  - apply (payout_refusals 9%nat 100%nat scenarioWorld). reflexivity.
  - eapply (payout_refusals 1%nat 100%nat formingWorld).
    + reflexivity.
    + simpl. discriminate.
  - eapply (payout_refusals 1%nat 100%nat orphanWorld).
    + reflexivity.
    + reflexivity.
    + intros i _. reflexivity.
Defined.

(** A payout that fails, for whatever reason, has changed neither a circle
    nor the reserve, and has neither created nor deleted a user. *)
Lemma payout_failure_usersOnly circleId now w w' e :
  processCirclePayout circleId now w = (w', inl e) -> usersOnly w w'.
Proof.
  intros E. pose proof (payout_refused circleId now w) as Href.
  destruct (circles w !! circleId) as [c|] eqn:Hc;
    [|rewrite Href in E; injection E as <- _; apply usersOnly_refl].
  destruct (decide (circleStatus c = Active)) as [Hact|Hact];
    [rewrite (bool_decide_eq_true_2 _ Hact) in Href
    |rewrite (bool_decide_eq_false_2 _ Hact) in Href; rewrite Href in E;
     injection E as <- _; apply usersOnly_refl].
  destruct (recipientOf w c) as [rid|] eqn:Hrid;
    [|rewrite Href in E; injection E as <- _; apply usersOnly_refl].
  destruct (recipientOf_exists w c rid Hrid) as [ru Hru].
  destruct (payout_outcome circleId now w c rid ru Hc Hact Hrid Hru)
    as [(_ & _ & E')|(_ & w3 & Hu & [E'|[E' _]])].
  - rewrite E in E'. injection E' as <- _. apply usersOnly_refl.
  - rewrite E in E'. discriminate.
  - rewrite E in E'. by injection E' as <- _.
Qed.

(** A payout, whether it succeeds or fails, leaves every other circle as it
    was and neither creates nor deletes a user; when it fails, it leaves its
    own circle and the reserve as they were, too. *)
Theorem payout_is_local (circleId : CircleId) (now : Time) (w : World) :
  let out := processCirclePayout circleId now w in
  (forall other, other <> circleId ->
     circles out.1 !! other = circles w !! other) /\
  (forall i, is_Some (users out.1 !! i) <-> is_Some (users w !! i)) /\
  (forall e, out.2 = inl e ->
     circles out.1 = circles w /\ reserve out.1 = reserve w).
Proof.
  simpl. destruct (processCirclePayout circleId now w) as [w' [e|r]] eqn:E; simpl.
  - destruct (payout_failure_usersOnly _ _ _ _ _ E) as (Hc & Hr & Hu).
    repeat split; try apply Hu; try done. intros other _. by rewrite Hc.
  - destruct (payout_inv _ _ _ _ _ E)
      as (c & rid & ru & w3 & _ & _ & _ & _ & _ & (Hc & Hr & Hu) & -> & _).
    unfold settledWorld. simpl. repeat split; try apply Hu; try done.
    intros other Hne. by rewrite lookup_insert_ne.
Qed.

(** Once a payout has completed the circle, every further payout of it is
    refused with "Circle is not active" and changes nothing. *)
Theorem completed_circle_is_closed
    (circleId : CircleId) (now now' : Time) (w w' : World) (c : Circle)
    (r : Receipt) :
  circles w !! circleId = Some c ->
  processCirclePayout circleId now w = (w', inr r) ->
  nextTurn r = 0%nat ->
  (length (populatedOrder w c) <= S (cycleCount c))%nat ->
  (exists c', circles w' !! circleId = Some c' /\ circleStatus c' = Completed) /\
  processCirclePayout circleId now' w' = (w', inl CircleNotActive).
Proof.
  intros Hc E Hturn Hlen.
  destruct (payout_inv _ _ _ _ _ E)
    as (c0 & rid & ru & w3 & Hc0 & _ & _ & _ & _ & _ & -> & ->).
  rewrite Hc in Hc0. injection Hc0 as <-.
  simpl in Hturn.
  assert (Hcomp : completes w c = true).
  { unfold completes, nextCycleCount, nextTurnOf.
    rewrite (bool_decide_eq_true_2 _ Hturn). simpl.
    apply Nat.leb_le. exact Hlen. }
  assert (Hc' : circles (settledWorld circleId w w3 c now) !! circleId
                = Some (advancedCircle w c now))
    by (unfold settledWorld; simpl; apply lookup_insert_eq).
  assert (Hst : circleStatus (advancedCircle w c now) = Completed)
    by (unfold advancedCircle; simpl; by rewrite Hcomp).
  split; [eauto|].
  pose proof (payout_refused circleId now' (settledWorld circleId w w3 c now))
    as H.
  rewrite Hc' in H. rewrite bool_decide_eq_false_2 in H; [exact H|].
  rewrite Hst. discriminate.
Qed.

Lemma completed_circle_is_closed_witness :
  processCirclePayout 1 300 (processCirclePayout 1 100 closingWorld).1
  = ((processCirclePayout 1 100 closingWorld).1, inl CircleNotActive).
Proof.
  eapply (completed_circle_is_closed 1%nat 100%nat 300%nat closingWorld _
            (circleOf (ofZ 10000) (ofZ 20000)
               [memberOf 1 Pending; memberOf 2 Paid] 1 1)).
  - reflexivity.
  - vm_compute. reflexivity.
  - reflexivity.
  - vm_compute. lia.
Defined.

End PayoutEdges.

Section AfterPayout.

(** After a successful payout the circle has the members it had, in the
    same order; every one of them is Pending again; the count of
    contributions of a member has gone up by one exactly when the member had
    paid; and the circle's two fee counters have each received the fee. *)
Theorem payout_resets_members
    (circleId : CircleId) (now : Time) (w w' : World) (c : Circle) (r : Receipt) :
  circles w !! circleId = Some c ->
  processCirclePayout circleId now w = (w', inr r) ->
  exists c',
    circles w' !! circleId = Some c' /\
    length (members c') = length (members c) /\
    (forall k m, members c !! k = Some m ->
       exists m', members c' !! k = Some m' /\
                  user m' = user m /\
                  paymentStatus m' = Pending /\
                  lastPaymentDate m' = lastPaymentDate m /\
                  totalContributionsMade m' =
                    (if bool_decide (paymentStatus m = Paid)
                     then S (totalContributionsMade m)
                     else totalContributionsMade m)) /\
    paidCount c' = 0%nat /\
    backstopBalance c' = toDecimal128 (backstopBalance c + platformFee r)%num /\
    totalFeesCollected c'
      = toDecimal128 (totalFeesCollected c + platformFee r)%num.
Proof.
  intros Hc E.
  destruct (payout_inv _ _ _ _ _ E)
    as (c0 & rid & ru & w3 & Hc0 & _ & _ & _ & _ & _ & -> & ->).
  rewrite Hc in Hc0. injection Hc0 as <-.
  exists (advancedCircle w c now). unfold settledWorld. simpl.
  rewrite lookup_insert_eq. split; [done|].
  split; [by rewrite length_map|]. split; [|split; [|done]].
  - intros k m Hk. exists (resetMember m). split; [|done].
    change (map resetMember (members c)) with (resetMember <$> members c).
    by rewrite list_lookup_fmap, Hk.
  - unfold paidCount. simpl.
    induction (members c) as [|m ms IH]; [done|]. simpl.
    rewrite filter_cons_False; [exact IH|]. simpl. discriminate.
Qed.

Lemma payout_resets_members_witness :
  exists c',
    circles (processCirclePayout 1 100 scenarioWorld).1 !! 1%nat = Some c' /\
    map paymentStatus (members c') = [Pending; Pending; Pending] /\
    map totalContributionsMade (members c') = [1; 1; 0]%nat.
Proof.
  destruct (payout_resets_members 1%nat 100%nat scenarioWorld
              (processCirclePayout 1 100 scenarioWorld).1
              (circleOf (ofZ 10000) (ofZ 30000)
                 [memberOf 1 Paid; memberOf 2 Paid; memberOf 3 Pending] 0 0)
              (receiptOf scenarioWorld
                 (circleOf (ofZ 10000) (ofZ 30000)
                    [memberOf 1 Paid; memberOf 2 Paid; memberOf 3 Pending] 0 0)
                 (memberUser "User 1" (ofZ 40000) (ofZ 10000))))
    as (c' & Hc' & _).
  - reflexivity.
  - vm_compute. reflexivity.
  - exists c'. split; [exact Hc'|].
    vm_compute in Hc'. injection Hc' as <-. split; reflexivity.
Defined.

(** The loans of a payout. When the shortfall is positive, one loan is
    recorded for every member that has not paid (Pending, Defaulted or
    Excused), in the order of the members, each of the contribution amount,
    not recovered and dated now; the receipt counts as many defaults. When
    the shortfall is not positive, no loan is recorded and the total
    deployed is left alone, whoever has not paid. *)
Theorem payout_records_loans
    (circleId : CircleId) (now : Time) (w w' : World) (c : Circle) (r : Receipt) :
  circles w !! circleId = Some c ->
  processCirclePayout circleId now w = (w', inr r) ->
  exists rv,
    reserve w' = Some rv /\
    defaultsCovered r
      = length (filter (fun m => paymentStatus m <> Paid) (members c)) /\
    (gt (shortfallOf c) (ofZ 0) = true ->
       activeLoans rv
       = activeLoans (reserveOf w) ++
         map (fun m => {| loanCircle := circleId;
                          loanAmount := toDecimal128 (contributionAmount c);
                          defaultedUser := user m;
                          recovered := false;
                          createdAt := now |})
             (filter (fun m => paymentStatus m <> Paid) (members c))) /\
    (gt (shortfallOf c) (ofZ 0) = false ->
       activeLoans rv = activeLoans (reserveOf w) /\
       totalDeployed rv = totalDeployed (reserveOf w) /\
       backstopLoan r = ofZ 0).
Proof.
  intros Hc E.
  destruct (payout_inv _ _ _ _ _ E)
    as (c0 & rid & ru & w3 & Hc0 & _ & _ & _ & _ & _ & -> & ->).
  rewrite Hc in Hc0. injection Hc0 as <-.
  exists (settledReserve circleId w c now). split; [done|]. split.
  - simpl. unfold paidCount.
    induction (members c) as [|m ms IH]; [done|].
    destruct (decide (paymentStatus m = Paid)) as [Hp|Hp].
    + rewrite filter_cons_True by done.
      rewrite filter_cons_False by (intros H; by apply H). simpl. exact IH.
    + rewrite filter_cons_False by done. rewrite filter_cons_True by done.
      simpl. simpl in IH.
      assert (Hle : (length (filter (fun m => paymentStatus m = Paid) ms)
                     <= length ms)%nat) by apply length_filter.
      lia.
  - unfold settledReserve, receiptOf, loanOf. simpl.
    split; intros ->; done.
Qed.

Lemma payout_records_loans_witness :
  exists rv,
    reserve (processCirclePayout 1 100 backstopDriftWorld).1 = Some rv /\
    map defaultedUser (activeLoans rv) = [2; 3; 4]%nat /\
    map loanAmount (activeLoans rv) = [ofZ 7777; ofZ 7777; ofZ 7777].
Proof.
  destruct (payout_records_loans 1%nat 100%nat backstopDriftWorld
              (processCirclePayout 1 100 backstopDriftWorld).1
              (circleOf (ofZ 7777) (ofZ 31108)
                 [memberOf 1 Paid; memberOf 2 Pending;
                  memberOf 3 Pending; memberOf 4 Pending] 0 0)
              (receiptOf backstopDriftWorld
                 (circleOf (ofZ 7777) (ofZ 31108)
                    [memberOf 1 Paid; memberOf 2 Pending;
                     memberOf 3 Pending; memberOf 4 Pending] 0 0)
                 (memberUser "User 1" (ofZ 40000) (ofZ 7777))))
    as (rv & Hrv & _ & Hloans & _).
  - reflexivity.
  - vm_compute. reflexivity.
  - exists rv. split; [exact Hrv|].
    rewrite Hloans by (vm_compute; reflexivity).
    split; vm_compute; reflexivity.
Defined.

End AfterPayout.

Section FullCollection.

(** The difference of a number and itself is a zero or [NaN], never a
    positive number. *)
Lemma sub_self_not_positive x : gt (toDecimal128 x - x)%num (ofZ 0) = false.
Proof.
  destruct x as [[]|[]| |s m e]; try reflexivity.
  unfold sub, SFsub, toDecimal128. rewrite Z.sub_diag. reflexivity.
Qed.

Lemma paidCount_all c :
  (forall m, m ∈ members c -> paymentStatus m = Paid) ->
  paidCount c = length (members c).
Proof.
  intros H. unfold paidCount. by rewrite filter_all.
Qed.

(** When the pot of a circle is what the join route has set it to, the
    number of members times the contribution, and every member has paid, a
    successful payout has no shortfall: it lends nothing, counts no
    default, records no loan, leaves the total deployed alone, and adds the
    fee to the balance of the reserve. *)
Theorem full_collection_draws_nothing
    (circleId : CircleId) (now : Time) (w w' : World) (c : Circle) (r : Receipt) :
  circles w !! circleId = Some c ->
  totalPot c
    = toDecimal128 (ofNat (length (members c)) * contributionAmount c)%num ->
  (forall m, m ∈ members c -> paymentStatus m = Paid) ->
  processCirclePayout circleId now w = (w', inr r) ->
  backstopLoan r = ofZ 0 /\
  defaultsCovered r = 0%nat /\
  exists rv,
    reserve w' = Some rv /\
    balance rv = toDecimal128 (balance (reserveOf w) + platformFee r)%num /\
    totalDeployed rv = totalDeployed (reserveOf w) /\
    activeLoans rv = activeLoans (reserveOf w).
Proof.
  intros Hc Hpot Hpaid E.
  destruct (payout_inv _ _ _ _ _ E)
    as (c0 & rid & ru & w3 & Hc0 & _ & _ & _ & _ & _ & -> & ->).
  rewrite Hc in Hc0. injection Hc0 as <-.
  assert (Hshort : gt (shortfallOf c) (ofZ 0) = false).
  { unfold shortfallOf, collectedOf. rewrite (paidCount_all c Hpaid), Hpot.
    apply sub_self_not_positive. }
  unfold receiptOf, loanOf, settledWorld, settledReserve. simpl.
  rewrite Hshort, (paidCount_all c Hpaid), Nat.sub_diag.
  split; [done|]. split; [done|]. eexists. split; [reflexivity|]. done.
Qed.

Lemma full_collection_draws_nothing_witness :
  exists r rv,
    (processCirclePayout 1 100 rotationWorld).2 = inr r /\
    backstopLoan r = ofZ 0 /\
    reserve (processCirclePayout 1 100 rotationWorld).1 = Some rv /\
    balance rv = ofZ 1000300 /\ totalDeployed rv = ofZ 0.
Proof.
  destruct (full_collection_draws_nothing 1%nat 100%nat rotationWorld
              (processCirclePayout 1 100 rotationWorld).1
              (circleOf (ofZ 10000) (ofZ 20000)
                 [memberOf 1 Paid; memberOf 2 Paid] 0 0)
              (receiptOf rotationWorld
                 (circleOf (ofZ 10000) (ofZ 20000)
                    [memberOf 1 Paid; memberOf 2 Paid] 0 0)
                 (memberUser "User 1" (ofZ 40000) (ofZ 10000))))
    as (Hloan & _ & rv & Hrv & Hbal & Htd & _).
  - reflexivity.
  - vm_compute. reflexivity.
  - intros m Hm. apply list_elem_of_In in Hm. simpl in Hm.
    destruct Hm as [<-|[<-|[]]]; reflexivity.
  - vm_compute. reflexivity.
  - eexists _, rv. split; [vm_compute; reflexivity|].
    split; [exact Hloan|]. split; [exact Hrv|].
    rewrite Hbal, Htd. split; vm_compute; reflexivity.
Defined.

End FullCollection.

(** ** Further properties of the wallet *)

Section WalletInvariants.

(** Saving a document that has just been saved writes nothing and emits
    nothing: the calls that save a document which a method has just saved
    (in the loop of step 3, in [processContribution] and in the contribute
    route) change nothing, and the hook fires no second time. *)
Theorem save_twice (now now' : Time) (d d1 : UserDoc) (w w1 : World) :
  save now d w = (w1, inr d1) ->
  save now' d1 w1 = (w1, inr d1).
Proof.
  intros E. rewrite save_eq in E. injection E as <- <-.
  match goal with |- save now' ?x ?y = _ => set (d1 := x); set (w1 := y) end.
  rewrite save_eq.
  rewrite (preSave_clean now' d1 eq_refl eq_refl). simpl.
  by rewrite alter_persist_clean, app_nil_r.
Qed.

Lemma save_twice_witness :
  exists w1 d1,
    applyDefaultPenalty (ofZ 20000) 10 riskyDoc riskyWorld = (w1, inr d1) /\
    status (this d1) = Blacklisted /\
    save 20 d1 w1 = (w1, inr d1).
Proof.
  eexists _, _. split; [vm_compute; reflexivity|]. split; [reflexivity|].
  eapply (save_twice 10%nat 20%nat
            (setThis riskyDoc (penalized riskyUser (ofZ 20000))) _ riskyWorld).
  vm_compute. reflexivity.
Defined.

End WalletInvariants.

(** ** Properties every save keeps *)

Section Stability.

Lemma save_doc now i u u' w :
  save now {| docId := i; isNew := false; pristine := u; this := u' |} w
  = ({| users := alter (persist u (hooked now i u u')) i (users w);
        circles := circles w; reserve := reserve w;
        emitted := emitted w ++
          (preSave now {| docId := i; isNew := false;
                          pristine := u; this := u' |}).2 |},
     inr (loaded i (hooked now i u u'))).
Proof. by rewrite save_eq. Qed.

Lemma save_loaded_noop now i u w :
  save now (loaded i u) w = (w, inr (loaded i u)).
Proof.
  unfold loaded. rewrite save_eq, preSave_clean by done. simpl.
  rewrite alter_persist_clean, app_nil_r. by destruct w.
Qed.

(** The hook does nothing to a document whose debt and trust score are the
    loaded ones. *)
Lemma hooked_quiet now i u u' :
  debtBalance (wallet u') = debtBalance (wallet u) ->
  trustScore u' = trustScore u ->
  hooked now i u u' = u'.
Proof.
  intros Hd Ht. unfold hooked, preSave, isModified. simpl.
  rewrite (bool_decide_eq_false_2 (debtBalance (wallet u') <> debtBalance (wallet u)))
    by (intros H; by apply H).
  simpl.
  by rewrite (bool_decide_eq_false_2 (trustScore u' <> trustScore u))
    by (intros H; by apply H).
Qed.

Lemma hooked_wallet now i u u' : wallet (hooked now i u u') = wallet u'.
Proof. apply preSave_wallet. Qed.

Lemma hooked_trustScore now i u u' : trustScore (hooked now i u u') = trustScore u'.
Proof. apply preSave_trustScore. Qed.

Lemma hooked_activeCircles now i u u' :
  activeCircles (hooked now i u u') = activeCircles u'.
Proof. apply preSave_activeCircles. Qed.

Lemma hooked_fullName now i u u' : fullName (hooked now i u u') = fullName u'.
Proof. apply preSave_fullName. Qed.

(** The hook sets the tier exactly when the trust score has been changed. *)
Lemma hooked_userTier now i u u' :
  userTier (hooked now i u u')
  = if decide (trustScore u' = trustScore u) then userTier u'
    else tierOf (trustScore u').
Proof.
  unfold hooked, preSave, isModified. simpl.
  repeat (match goal with |- context [if ?b then _ else _] =>
            destruct b eqn:? end; simpl in *);
    try reflexivity;
    repeat match goal with
           | H : bool_decide _ = true |- _ => apply bool_decide_eq_true_1 in H
           | H : bool_decide _ = false |- _ => apply bool_decide_eq_false_1 in H
           end; try congruence; tauto.
Qed.

(** The hook blacklists, or leaves the status alone. *)
Lemma hooked_status now i u u' :
  status (hooked now i u u')
  = if bool_decide (debtBalance (wallet u') <> debtBalance (wallet u))
       && gt (debtBalance (wallet u')) DEBT_BLACKLIST_THRESHOLD
    then Blacklisted else status u'.
Proof.
  unfold hooked, preSave, isModified. simpl. rewrite orb_false_r.
  destruct (bool_decide (debtBalance (wallet u') <> debtBalance (wallet u)));
    simpl;
    [|by destruct (bool_decide (trustScore u' <> trustScore u))].
  destruct (gt (debtBalance (wallet u')) DEBT_BLACKLIST_THRESHOLD); simpl;
    [|by destruct (bool_decide (trustScore u' <> trustScore u))].
  destruct (status u') eqn:Es; simpl;
    by destruct (bool_decide (trustScore u' <> trustScore u)).
Qed.

(** The users and the events a payout leaves are those its three stages
    leave: the loop of step 3, the credit of step 5, and the release of the
    vaults when the circle completes. *)
Lemma payout_stages circleId now w c rid ru :
  circles w !! circleId = Some c -> circleStatus c = Active ->
  recipientOf w c = Some rid -> users w !! rid = Some ru ->
  let s3 := coverShortfall circleId (contributionAmount c) (shortfallOf c) now
              (populatedMembers w (members c))
              {| balance := creditedBalance w c;
                 totalDeployed := totalDeployed (reserveOf w);
                 activeLoans := activeLoans (reserveOf w) |} w in
  match s3.2 with
  | inl e => processCirclePayout circleId now w = (s3.1, inl e)
  | inr (_, ms3, _) =>
    let s5 := save now
                {| docId := rid; isNew := false; pristine := ru;
                   this := credited ru
                     (netOf c - netOf c * withholdingRates (userTier ru))%num
                     (netOf c * withholdingRates (userTier ru))%num |} s3.1 in
    let s6 := if completes w c
              then (releaseVaults circleId now
                      (map (fun p => (resetMember p.1, p.2)) ms3) s5.1).1
              else s5.1 in
    users (processCirclePayout circleId now w).1 = users s6 /\
    emitted (processCirclePayout circleId now w).1 = emitted s6 /\
    (forall e, completes w c = true ->
       (releaseVaults circleId now
          (map (fun p => (resetMember p.1, p.2)) ms3) s5.1).2 = inl e ->
       (processCirclePayout circleId now w).2 = inl e)
  end.
Proof.
  intros Hc Hact Hrid Hru.
  unfold processCirclePayout.
  rewrite (bind_inr _ _ w w (Some c)) by (unfold findCircle; by rewrite Hc).
  cbv beta iota.
  erewrite (bind_inr _ _ w w) by reflexivity.
  erewrite (bind_inr _ _ w w) by reflexivity.
  rewrite (bool_decide_eq_false_2 (circleStatus c <> Active)) by (intros H; by apply H).
  cbv beta iota.
  change (filter (λ i : UserId, is_Some (users w !! i)) (payoutOrder c)) with (populatedOrder w c).
  change (currentRecipient (populatedOrder w c) (currentTurn c)) with (recipientOf w c).
  rewrite Hrid.
  rewrite (bind_inr _ _ w w (Some {| docId := rid; isNew := false; pristine := ru; this := ru |})) by (unfold findUser, loadDoc; by rewrite Hru).
  cbv beta iota.
  erewrite (bind_inr _ _ w w) by reflexivity.
  change (map (λ m : Member, (m, loadDoc w (user m))) (members c)) with (populatedMembers w (members c)).
  rewrite populatedMembers_paid.
  change (length (filter (λ m, paymentStatus m = Paid) (members c))) with (paidCount c).
  change (ofNat (paidCount c) * contributionAmount c)%num with (collectedOf c).
  change (totalPot c - collectedOf c)%num with (shortfallOf c).
  change (totalPot c * platformFeeRate)%num with (feeOf c).
  change (totalPot c - feeOf c)%num with (netOf c).
  change (default newBackstopReserve (reserve w)) with (reserveOf w).
  change (toDecimal128 (balance (reserveOf w) + feeOf c)%num) with (creditedBalance w c).
  simpl this.
  set (ms := populatedMembers w (members c)).
  set (r1 := {| balance := creditedBalance w c; totalDeployed := totalDeployed (reserveOf w); activeLoans := activeLoans (reserveOf w) |}).
  destruct (coverShortfall circleId (contributionAmount c) (shortfallOf c) now ms r1 w)
    as [w1 [e|[[loan ms3] r3]]] eqn:E; simpl.
  { by rewrite (bind_inl _ _ _ _ _ E). }
  rewrite (bind_inr _ _ _ _ _ E). cbv beta iota.
  unfold creditRecipient, setThis. simpl.
  change (setTrustScore _ _) with
    (credited ru (netOf c - netOf c * withholdingRates (userTier ru))%num
               (netOf c * withholdingRates (userTier ru))%num).
  set (dr := {| docId := rid; isNew := false; pristine := ru;
                this := credited ru _ _ |}).
  change ((currentTurn c + 1) `mod` length (populatedOrder w c))%nat with (nextTurnOf w c).
  change (if bool_decide (nextTurnOf w c = 0%nat) then S (cycleCount c) else cycleCount c)
    with (nextCycleCount w c).
  change (bool_decide (nextTurnOf w c = 0%nat)
          && (length (populatedOrder w c) <=? nextCycleCount w c)%nat)
    with (completes w c).
  destruct (save now dr w1) as [w2 [e|d']] eqn:E2;
    [unfold dr in E2; rewrite save_doc in E2; discriminate|].
  rewrite (bind_inr _ _ _ _ _ E2). simpl.
  set (ms6 := map (λ p : Member * option UserDoc, (resetMember p.1, p.2)) ms3).
  destruct (completes w c) eqn:Ecomp.
  - unfold completeCircle.
    destruct (releaseVaults circleId now ms6 w2) as [w3 [e|[]]] eqn:E3; simpl.
    + erewrite bind_inl; [|erewrite bind_inl; [reflexivity|exact E3]].
      repeat split. by intros e' _ [= <-].
    + erewrite bind_inr; [|erewrite bind_inr; [reflexivity|exact E3]].
      erewrite bind_inr by reflexivity. erewrite bind_inr by reflexivity.
      done.
  - erewrite bind_inr by reflexivity.
    erewrite bind_inr by reflexivity. erewrite bind_inr by reflexivity.
    done.
Qed.

Variable Pr : UserId -> User -> Prop.

Lemma save_stable now i u u' w :
  (forall s, Pr i s -> Pr i (persist u (hooked now i u u') s)) ->
  allUsers Pr w ->
  allUsers Pr
    (save now {| docId := i; isNew := false; pristine := u; this := u' |} w).1.
Proof.
  intros Hk Hall. rewrite save_doc. simpl. intros j v. simpl.
  rewrite lookup_alter. destruct (decide (i = j)) as [<-|Hne].
  - destruct (users w !! i) as [s|] eqn:Es; simpl; [|done].
    intros [= <-]. apply Hk. by apply Hall.
  - apply Hall.
Qed.

(** The loop of step 3, the credit of step 5 and the release of the vaults
    keep what their changes keep. *)
Lemma recordDefaults_stable circleId contribution now ms : forall r w,
  keptBy Pr (fun u => penalized u contribution) ->
  Forall (fun p => forall d, p.2 = Some d ->
            isNew d = false /\ pristine d = this d /\ Pr (docId d) (this d)) ms ->
  allUsers Pr w ->
  allUsers Pr (recordDefaults circleId contribution now ms r w).1.
Proof.
  induction ms as [|[m od] rest IH]; intros r w Hk Hdocs Hall; [done|].
  apply Forall_cons in Hdocs as [Hhd Hrest]. simpl.
  destruct (bool_decide (paymentStatus m = Paid)).
  - specialize (IH r w Hk Hrest Hall). unfold mbind, M_bind, bind.
    by destruct (recordDefaults circleId contribution now rest r w)
      as [w1 [e|[ms' r']]].
  - destruct od as [d|]; [|done].
    destruct (Hhd d eq_refl) as (Hn & Hp & HPr).
    destruct d as [i n p t]. simpl in *. subst.
    rewrite applyDefaultPenalty_eq. unfold setThis. simpl.
    erewrite bind_inr by apply save_doc.
    erewrite bind_inr by apply save_loaded_noop.
    match goal with |- context [recordDefaults _ _ _ rest ?r1'] =>
      set (r1 := r1') end.
    match goal with |- allUsers Pr (_ ?w1').1 => set (w1 := w1') end.
    assert (Hall1 : allUsers Pr w1).
    { pose proof (save_stable now i t (penalized t contribution) w) as H.
      rewrite save_doc in H. apply H; [|done]. intros s Hs. by apply Hk. }
    specialize (IH r1 w1 Hk Hrest Hall1). unfold mbind, M_bind, bind.
    by destruct (recordDefaults circleId contribution now rest r1 w1)
      as [w2 [e|[ms' r']]].
Qed.

Lemma releaseVaults_stable circleId now ms : forall w,
  keptBy Pr (releasedUser circleId) ->
  allUsers Pr w ->
  allUsers Pr (releaseVaults circleId now ms w).1.
Proof.
  induction ms as [|[m od] rest IH]; intros w Hk Hall; [done|]. simpl.
  assert (Hload : forall i, match loadDoc w i with
                            | Some d => d = loaded i (this d) /\
                                        users w !! i = Some (this d)
                            | None => True
                            end).
  { intros i. unfold loadDoc. by destruct (users w !! i). }
  destruct od as [d|]; [|done].
  erewrite bind_inr by reflexivity. specialize (Hload (docId d)).
  destruct (loadDoc w (docId d)) as [d'|]; [|done].
  destruct Hload as [-> Hu]. set (i := docId d) in *. set (u := this d') in *.
  unfold loaded. erewrite bind_inr by (by apply releaseVault_spec).
  apply IH; [done|]. intros j v. simpl.
  destruct (gt (vaultBalance (wallet u)) (ofZ 0)); [|apply Hall].
  destruct (decide (i = j)) as [<-|Hne].
  - rewrite lookup_insert_eq. intros [= <-].
    pose proof (Hk now i u u (Hall _ _ Hu) (Hall _ _ Hu)) as H.
    by rewrite persist_fresh, hooked_quiet in H.
  - rewrite lookup_insert_ne by done. apply Hall.
Qed.

Lemma populatedMembers_loaded w ms :
  allUsers Pr w ->
  Forall (fun p => forall d, p.2 = Some d ->
            isNew d = false /\ pristine d = this d /\ Pr (docId d) (this d))
         (populatedMembers w ms).
Proof.
  intros Hall. apply Forall_forall. intros [m od] Hin d Hd. simpl in Hd.
  apply list_elem_of_In, in_map_iff in Hin as (m' & [= <- <-] & _).
  unfold loadDoc in Hd. destruct (users w !! user m') as [u|] eqn:Eu; [|done].
  injection Hd as <-. simpl. repeat split. by eapply Hall.
Qed.

Lemma coverShortfall_stable circleId contribution shortfall now ms r1 w :
  keptBy Pr (fun u => penalized u contribution) ->
  Forall (fun p => forall d, p.2 = Some d ->
            isNew d = false /\ pristine d = this d /\ Pr (docId d) (this d)) ms ->
  allUsers Pr w ->
  allUsers Pr (coverShortfall circleId contribution shortfall now ms r1 w).1.
Proof.
  intros Hk Hdocs Hall. unfold coverShortfall.
  destruct (gt shortfall (ofZ 0)); [|done].
  destruct (lt (balance r1) shortfall); [done|].
  match goal with |- context [recordDefaults _ _ _ ms ?r2'] => set (r2 := r2') end.
  pose proof (recordDefaults_stable circleId contribution now ms r2 w Hk Hdocs Hall)
    as H.
  unfold mbind, M_bind, bind.
  by destruct (recordDefaults circleId contribution now ms r2 w)
    as [w1 [e|[ms' r']]].
Qed.

(** What the three changes of a payout keep, the payout keeps, whether it
    succeeds or fails half-way. *)
Lemma payout_stable circleId now w :
  (forall a, keptBy Pr (fun u => penalized u a)) ->
  (forall a v, keptBy Pr (fun u => credited u a v)) ->
  (forall cid, keptBy Pr (releasedUser cid)) ->
  allUsers Pr w ->
  allUsers Pr (processCirclePayout circleId now w).1.
Proof.
  intros Hpen Hcred Hrel Hall.
  pose proof (payout_refused circleId now w) as Href.
  destruct (circles w !! circleId) as [c|] eqn:Hc; [|by rewrite Href].
  destruct (decide (circleStatus c = Active)) as [Hact|Hact];
    [rewrite (bool_decide_eq_true_2 _ Hact) in Href
    |rewrite (bool_decide_eq_false_2 _ Hact) in Href; by rewrite Href].
  destruct (recipientOf w c) as [rid|] eqn:Hrid; [|by rewrite Href].
  destruct (recipientOf_exists w c rid Hrid) as [ru Hru].
  pose proof (payout_stages circleId now w c rid ru Hc Hact Hrid Hru) as Hst.
  simpl in Hst.
  pose proof (coverShortfall_stable circleId (contributionAmount c)
                (shortfallOf c) now (populatedMembers w (members c))
                {| balance := creditedBalance w c;
                   totalDeployed := totalDeployed (reserveOf w);
                   activeLoans := activeLoans (reserveOf w) |} w
                (Hpen _) (populatedMembers_loaded w (members c) Hall) Hall) as H3.
  destruct (coverShortfall circleId (contributionAmount c) (shortfallOf c) now
              (populatedMembers w (members c)) _ w)
    as [w1 [e|[[loan ms3] r3]]]; simpl in *; [by rewrite Hst|].
  destruct Hst as (Hus & _ & _). intros i u. rewrite Hus. revert i u.
  match goal with |- context [save now ?d w1] =>
    assert (H5 : allUsers Pr (save now d w1).1) end.
  { apply save_stable; [|done]. intros s Hs.
    apply (Hcred _ _ now rid ru s); [|done]. by eapply Hall. }
  destruct (completes w c); [|exact H5].
  by apply releaseVaults_stable.
Qed.

Lemma loadDoc_loaded w i d :
  loadDoc w i = Some d -> exists u, d = loaded i u /\ users w !! i = Some u.
Proof.
  unfold loadDoc. destruct (users w !! i) as [u|]; [|done].
  intros [= <-]. by exists u.
Qed.

Lemma escrowToVault_eq amount now i u w :
  escrowToVault amount now (loaded i u) w
  = if lt (availableBalance (wallet u)) amount
    then (w, inl InsufficientAvailableBalance)
    else save now {| docId := i; isNew := false; pristine := u;
                     this := escrowed u amount |} w.
Proof.
  unfold escrowToVault. simpl.
  by destruct (lt (availableBalance (wallet u)) amount).
Qed.

Lemma escrowToVault_stable amount now i u w :
  keptBy Pr (fun u => escrowed u amount) ->
  Pr i u -> allUsers Pr w ->
  allUsers Pr (escrowToVault amount now (loaded i u) w).1.
Proof.
  intros Hk Hu Hall. rewrite escrowToVault_eq.
  destruct (lt (availableBalance (wallet u)) amount); [done|].
  apply save_stable; [|done]. intros s Hs. by apply Hk.
Qed.

Lemma joinRoute_stable userId circleId now w :
  keptBy Pr (fun u => joined u circleId) ->
  allUsers Pr w -> allUsers Pr (joinRoute userId circleId now w).1.
Proof.
  intros Hk Hall. unfold joinRoute.
  destruct (loadDoc w (idOf userId)) as [d|] eqn:Ed; [|done].
  destruct (loadDoc_loaded _ _ _ Ed) as (u & -> & Hu).
  destruct (circles w !! circleId) as [c|]; [|done].
  destruct (existsb _ (members c)); [done|].
  unfold saveCircle, setThis, loaded. simpl.
  change (setActiveCircles u (activeCircles u ++ [circleId]))
    with (joined u circleId).
  match goal with |- context [save now ?d ?w1] =>
    pose proof (save_stable now (idOf userId) u (joined u circleId) w1) as H;
    destruct (save now d w1) as [w2 [e|d2]] end; simpl in *;
    apply H; try done; intros s Hs; apply Hk; try done; by eapply Hall.
Qed.

Lemma contributeRoute_stable userId circleId now w :
  (forall a, keptBy Pr (fun u => escrowed u a)) ->
  allUsers Pr w -> allUsers Pr (contributeRoute userId circleId now w).1.
Proof.
  intros Hk Hall. unfold contributeRoute.
  destruct (circles w !! circleId) as [c|]; [|done].
  destruct (List.find _ (members c)); [|done].
  destruct (loadDoc w (idOf userId)) as [d|] eqn:Ed; [|done].
  destruct (loadDoc_loaded _ _ _ Ed) as (u & -> & Hu).
  pose proof (escrowToVault_stable (contributionAmount c) now (idOf userId) u w
                (Hk _) (Hall _ _ Hu) Hall) as H.
  rewrite escrowToVault_eq in *.
  destruct (lt (availableBalance (wallet u)) (contributionAmount c)); [done|].
  rewrite save_doc in *. simpl in *. by rewrite save_loaded_noop.
Qed.

Lemma processContribution_stable circleId userId now w :
  (forall a, keptBy Pr (fun u => escrowed u a)) ->
  allUsers Pr w -> allUsers Pr (processContribution circleId userId now w).1.
Proof.
  intros Hk Hall. unfold processContribution.
  erewrite bind_inr by reflexivity.
  destruct (circles w !! circleId) as [c|]; [|done].
  destruct (List.find _ (members c)) as [m|]; [|done].
  destruct (bool_decide (paymentStatus m = Paid)); [done|].
  erewrite bind_inr by reflexivity.
  destruct (loadDoc w userId) as [d|] eqn:Ed; [|done].
  destruct (loadDoc_loaded _ _ _ Ed) as (u & -> & Hu).
  pose proof (escrowToVault_stable (contributionAmount c) now userId u w
                (Hk _) (Hall _ _ Hu) Hall) as H.
  rewrite escrowToVault_eq in H.
  destruct (lt (availableBalance (wallet u)) (contributionAmount c)) eqn:El.
  - erewrite bind_inl; [done|]. by rewrite escrowToVault_eq, El.
  - erewrite bind_inr; [|by rewrite escrowToVault_eq, El; apply save_doc].
    erewrite bind_inr by apply save_loaded_noop.
    erewrite bind_inr by reflexivity. by rewrite save_doc in H.
Qed.

Lemma defaultRoute_stable userId circleId now w :
  (forall a, keptBy Pr (fun u => penalized u a)) ->
  allUsers Pr w -> allUsers Pr (defaultRoute userId circleId now w).1.
Proof.
  intros Hk Hall. unfold defaultRoute.
  destruct (circles w !! circleId) as [c|]; [|done].
  destruct (List.find _ (members c)); [|done].
  destruct (loadDoc w (idOf userId)) as [d|] eqn:Ed; [|done].
  destruct (loadDoc_loaded _ _ _ Ed) as (u & -> & Hu).
  rewrite applyDefaultPenalty_eq. unfold setThis, loaded. simpl.
  pose proof (save_stable now (idOf userId) u (penalized u (contributionAmount c)) w) as H.
  rewrite save_doc in *. simpl in *. apply H; [|done].
  intros s Hs. apply Hk; [|done]. by eapply Hall.
Qed.

(** A property every change keeps holds after every request, and after
    every sequence of requests. *)
Lemma handle_stable now rq w :
  stable Pr -> allUsers Pr w -> allUsers Pr (handle now rq w).
Proof.
  intros (Hpen & Hcred & Hrel & Hesc & Hjoin) Hall.
  destruct rq as [u c|c|u c|u c]; simpl.
  - by apply joinRoute_stable.
  - unfold payoutRoute.
    pose proof (payout_stable c now w Hpen Hcred Hrel Hall) as H.
    by destruct (processCirclePayout c now w) as [w' [e|r]].
  - by apply contributeRoute_stable.
  - by apply defaultRoute_stable.
Qed.

Lemma handleAll_stable rqs : forall w,
  stable Pr -> allUsers Pr w -> allUsers Pr (handleAll rqs w).
Proof.
  induction rqs as [|[now rq] rest IH]; intros w Hs Hall; [done|].
  simpl. apply IH; [done|]. by apply handle_stable.
Qed.

End Stability.

(** ** Properties of every request *)

Section Requests.

Lemma sameDocuments_refl w : sameDocuments w w.
Proof. by split. Qed.

Lemma sameDocuments_trans w1 w2 w3 :
  sameDocuments w1 w2 -> sameDocuments w2 w3 -> sameDocuments w1 w3.
Proof.
  intros [Hu1 Hc1] [Hu2 Hc2]. split; intros i.
  - by rewrite Hu2, Hu1.
  - by rewrite Hc2, Hc1.
Qed.

Lemma usersOnly_sameDocuments w w' : usersOnly w w' -> sameDocuments w w'.
Proof. intros (Hc & _ & Hu). split; [done|]. intros c. by rewrite Hc. Qed.

Lemma save_sameDocuments now d w :
  isNew d = false -> sameDocuments w (save now d w).1.
Proof.
  intros Hn. destruct (save_usersOnly now d w Hn) as (w' & d' & E & Hu & _).
  rewrite E. by apply usersOnly_sameDocuments.
Qed.

Lemma saveCircle_sameDocuments circleId c c' w :
  circles w !! circleId = Some c ->
  sameDocuments w (saveCircle circleId c' w).1.
Proof.
  intros Hc. split; [done|]. intros k. simpl.
  destruct (decide (circleId = k)) as [<-|Hne].
  - rewrite lookup_insert_eq, Hc. split; eauto.
  - by rewrite lookup_insert_ne.
Qed.

Lemma settledWorld_sameDocuments circleId w w3 c now :
  circles w !! circleId = Some c -> usersOnly w w3 ->
  sameDocuments w (settledWorld circleId w w3 c now).
Proof.
  intros Hc (_ & _ & Hu). split; [done|]. intros k. simpl.
  destruct (decide (circleId = k)) as [<-|Hne].
  - rewrite lookup_insert_eq, Hc. split; eauto.
  - by rewrite lookup_insert_ne.
Qed.

Lemma payout_sameDocuments circleId now w :
  sameDocuments w (processCirclePayout circleId now w).1.
Proof.
  destruct (processCirclePayout circleId now w) as [w' [e|r]] eqn:E; simpl.
  - apply usersOnly_sameDocuments. by eapply payout_failure_usersOnly.
  - destruct (payout_inv _ _ _ _ _ E)
      as (c & rid & ru & w3 & Hc & _ & _ & _ & _ & Hu & -> & _).
    by apply settledWorld_sameDocuments.
Qed.

Lemma handle_sameDocuments now rq w : sameDocuments w (handle now rq w).
Proof.
  destruct rq as [u c|c|u c|u c]; simpl.
  - unfold joinRoute.
    destruct (loadDoc w (idOf u)) as [d|] eqn:Ed; [|apply sameDocuments_refl].
    destruct (loadDoc_loaded _ _ _ Ed) as (v & -> & Hv).
    destruct (circles w !! c) as [ci|] eqn:Hc; [|apply sameDocuments_refl].
    destruct (existsb _ (members ci)); [apply sameDocuments_refl|].
    match goal with |- context [saveCircle c ?c' w] =>
      pose proof (saveCircle_sameDocuments c ci c' w Hc) as H1;
      destruct (saveCircle c c' w) as [w1 x] end.
    match goal with |- context [save now ?d w1] =>
      pose proof (save_sameDocuments now d w1 eq_refl) as H2;
      destruct (save now d w1) as [w2 [e|d2]] end;
      by eapply sameDocuments_trans.
  - unfold payoutRoute.
    pose proof (payout_sameDocuments c now w) as H.
    by destruct (processCirclePayout c now w) as [w' [e|r]].
  - unfold contributeRoute.
    destruct (circles w !! c) as [ci|] eqn:Hc; [|apply sameDocuments_refl].
    destruct (List.find _ (members ci)); [|apply sameDocuments_refl].
    destruct (loadDoc w (idOf u)) as [d|] eqn:Ed; [|apply sameDocuments_refl].
    destruct (loadDoc_loaded _ _ _ Ed) as (v & -> & Hv).
    rewrite escrowToVault_eq.
    destruct (lt (availableBalance (wallet v)) (contributionAmount ci));
      [apply sameDocuments_refl|].
    match goal with |- context [save now ?d w] =>
      pose proof (save_sameDocuments now d w eq_refl) as H1 end.
    rewrite save_doc in *. rewrite save_loaded_noop. simpl in *.
    eapply sameDocuments_trans; [exact H1|].
    match goal with |- sameDocuments ?w1 _ =>
      apply (saveCircle_sameDocuments c ci _ w1 Hc) end.
  - unfold defaultRoute.
    destruct (circles w !! c) as [ci|] eqn:Hc; [|apply sameDocuments_refl].
    destruct (List.find _ (members ci)); [|apply sameDocuments_refl].
    destruct (loadDoc w (idOf u)) as [d|] eqn:Ed; [|apply sameDocuments_refl].
    destruct (loadDoc_loaded _ _ _ Ed) as (v & -> & Hv).
    rewrite applyDefaultPenalty_eq. unfold setThis, loaded. simpl.
    match goal with |- context [save now ?d w] =>
      pose proof (save_sameDocuments now d w eq_refl) as H1 end.
    rewrite save_doc in *. simpl in *.
    eapply sameDocuments_trans; [exact H1|].
    match goal with |- sameDocuments ?w1 _ =>
      apply (saveCircle_sameDocuments c ci _ w1 Hc) end.
Qed.

Lemma requests_keep_documents_aux rqs : forall w,
  sameDocuments w (handleAll rqs w).
Proof.
  induction rqs as [|[now rq] rest IH]; intros w; [apply sameDocuments_refl|].
  simpl. eapply sameDocuments_trans; [apply handle_sameDocuments|apply IH].
Qed.

(** No request creates or deletes a user document or a circle, whether it
    is answered with a success or with an error: after any sequence of
    requests the database holds the users and the circles it held. *)
Theorem requests_keep_documents (rqs : list (Time * Request)) (w : World) :
  sameDocuments w (handleAll rqs w).
Proof.
  revert w. induction rqs as [|[now rq] rest IH]; intros w.
  - apply sameDocuments_refl.
  - simpl. eapply sameDocuments_trans.
    + apply handle_sameDocuments.
    + apply IH.
Qed.

Lemma persist_trustScore u h s :
  trustScore (persist u h s) = pick (trustScore u) (trustScore h) (trustScore s).
Proof. reflexivity. Qed.

Lemma persist_status u h s :
  status (persist u h s) = pick (status u) (status h) (status s).
Proof. reflexivity. Qed.

Lemma trust_is_stable :
  stable (fun _ u => (TRUST_SCORE_MIN <= trustScore u <= TRUST_SCORE_MAX)%Z).
Proof.
  unfold stable, keptBy.
  repeat split; intros; rewrite persist_trustScore, hooked_trustScore;
    unfold pick; destruct (decide _); simpl in *;
    unfold TRUST_SCORE_MIN, TRUST_SCORE_MAX in *; lia.
Qed.

Lemma blacklisted_is_stable (j : UserId) :
  stable (fun i u => i = j -> status u = Blacklisted).
Proof.
  unfold stable, keptBy.
  repeat split; intros; rewrite persist_status, hooked_status; simpl;
    unfold pick;
    match goal with |- context [if ?b then Blacklisted else _] =>
      destruct b end;
    destruct (decide _); auto; congruence.
Qed.

(** The trust score of every user stays within the bounds of the schema,
    300 to 850, through every sequence of requests: no save a route makes
    stores a score the validation of the schema would refuse. *)
Theorem trust_scores_stay_valid (rqs : list (Time * Request)) (w : World) :
  trusted w -> trusted (handleAll rqs w).
Proof.
  revert w. induction rqs as [|[now rq] rest IH]; intros w Hall.
  - exact Hall.
  - simpl. apply IH. by apply handle_stable; [apply trust_is_stable|].
Qed.

Lemma trust_scores_stay_valid_witness :
  trusted (handleAll [(100, PostPayout 1); (110, PostDefault (canon 2) 1);
                      (120, PostContribute (canon 1) 1); (130, PostPayout 1)]%nat
             scenarioWorld).
Proof.
  apply (trust_scores_stay_valid
           [(100, PostPayout 1); (110, PostDefault (canon 2) 1);
            (120, PostContribute (canon 1) 1); (130, PostPayout 1)]%nat scenarioWorld).
  intros i u Hu.
  apply (map_Forall_lookup_1
           (fun _ u => (TRUST_SCORE_MIN <= trustScore u <= TRUST_SCORE_MAX)%Z)
           (users scenarioWorld) i u); [|exact Hu].
  apply map_Forall_to_list. vm_compute. repeat constructor; discriminate.
Defined.

(** A blacklisted user stays blacklisted through every sequence of
    requests: no route lifts a blacklisting, and no save of a document
    loaded before the blacklisting writes the old status back. *)
Theorem blacklist_is_permanent
    (rqs : list (Time * Request)) (w : World) (j : UserId) (u : User) :
  users w !! j = Some u -> status u = Blacklisted ->
  exists u', users (handleAll rqs w) !! j = Some u' /\ status u' = Blacklisted.
Proof.
  intros Hu Hs.
  destruct (requests_keep_documents_aux rqs w) as [Hdom _].
  destruct (proj2 (Hdom j)) as [u' Hu']; [by eexists|].
  exists u'. split; [done|].
  apply (handleAll_stable (fun i u => i = j -> status u = Blacklisted) rqs w
           (blacklisted_is_stable j)) with (i := j); [|done|done].
  intros i v Hv ->. congruence.
Qed.


Lemma blacklist_is_permanent_witness :
  exists u',
    users (handleAll [(200, PostContribute (canon 1) 1); (210, PostPayout 1);
                      (220, PostDefault (canon 2) 1); (230, PostJoin (canon 1) 1)]%nat
             (handle 100 (PostPayout 1) debtorWorld)) !! 1%nat = Some u' /\
    status u' = Blacklisted.
Proof.
  eapply (blacklist_is_permanent
            [(200, PostContribute (canon 1) 1); (210, PostPayout 1);
             (220, PostDefault (canon 2) 1); (230, PostJoin (canon 1) 1)]%nat
            (handle 100 (PostPayout 1) debtorWorld) 1%nat).
  - vm_compute. reflexivity.
  - reflexivity.
Defined.

End Requests.

(** ** What a payout does to the users *)

Section Standing.

Lemma resetMember_users ms : map user (map resetMember ms) = map user ms.
Proof. rewrite map_map. by apply map_ext. Qed.


(** The loop of step 3 and a single user: when no two members share a user,
    the user is penalized once if a member of that user has not paid, and
    is left alone otherwise. *)
Lemma recordDefaults_at circleId contribution now j ms : forall uj r w w' res,
  populated ms ->
  NoDup (map (fun p : Member * option UserDoc => user p.1) ms) ->
  (forall p d, p ∈ ms -> p.2 = Some d ->
     pristine d = this d /\ (docId d = j -> this d = uj)) ->
  users w !! j = Some uj ->
  recordDefaults circleId contribution now ms r w = (w', inr res) ->
  users w' !! j
  = Some (if decide (j ∈ map (fun p : Member * option UserDoc => user p.1)
                          (filter (fun p => paymentStatus p.1 <> Paid) ms))
          then hooked now j uj (penalized uj contribution) else uj).
Proof.
  induction ms as [|[m od] rest IH]; intros uj r w w' res Hpop Hnd Hdocs Hj E.
  - simpl in E. injection E as <- _. rewrite Hj. by rewrite decide_False by set_solver.
  - apply Forall_cons in Hpop as [Hhd Hrest]. simpl in Hnd.
    apply NoDup_cons in Hnd as [Hnotin Hnd].
    assert (Hdocs' : forall p d, p ∈ rest -> p.2 = Some d ->
              pristine d = this d /\ (docId d = j -> this d = uj)).
    { intros p d Hp. apply Hdocs. by right. }
    simpl in E. destruct (bool_decide (paymentStatus m = Paid)) eqn:Epaid.
    + apply bool_decide_eq_true_1 in Epaid.
      unfold mbind, M_bind, bind in E.
      destruct (recordDefaults circleId contribution now rest r w)
        as [w1 [e|p]] eqn:E1; [discriminate|]. injection E as <- _.
      rewrite (IH uj r w w1 p Hrest Hnd Hdocs' Hj E1).
      rewrite filter_cons_False; [done|]. simpl. intros H. by apply H.
    + apply bool_decide_eq_false_1 in Epaid.
      destruct od as [d|]; [|discriminate].
      destruct (Hhd d eq_refl) as [Hn Hid].
      destruct (Hdocs (m, Some d) d) as [Hp Hthis]; [left|done|].
      destruct d as [i n p t]. simpl in *. subst n p i.
      rewrite applyDefaultPenalty_eq in E. unfold setThis in E. simpl in E.
      erewrite bind_inr in E by apply save_doc.
      erewrite bind_inr in E by apply save_loaded_noop.
      unfold mbind, M_bind, bind in E.
      match type of E with context [recordDefaults _ _ _ rest ?r1' ?w1'] =>
        set (r1 := r1') in E; set (w1 := w1') in E end.
      destruct (recordDefaults circleId contribution now rest r1 w1)
        as [w2 [e|p]] eqn:E1; [discriminate|]. injection E as <- _.
      rewrite filter_cons_True by done. simpl.
      assert (Hsub : forall k,
                k ∈ map (fun p : Member * option UserDoc => user p.1)
                        (filter (fun p => paymentStatus p.1 <> Paid) rest) ->
                k ∈ map (fun p : Member * option UserDoc => user p.1) rest).
      { intros k Hk. apply list_elem_of_In, in_map_iff in Hk as (q & <- & Hq).
        apply list_elem_of_In, list_elem_of_filter in Hq as [_ Hq].
        apply list_elem_of_In,
          (in_map (fun p : Member * option UserDoc => user p.1)).
        by apply list_elem_of_In. }
      destruct (decide (user m = j)) as [Hmj|Hmj].
      * specialize (Hthis Hmj). subst t.
        rewrite (IH (hooked now j uj (penalized uj contribution)) r1 w1 w2 p
                   Hrest Hnd).
        -- rewrite decide_False by (intros H; apply Hnotin; rewrite Hmj; by apply Hsub).
           rewrite decide_True by (rewrite Hmj; left). done.
        -- intros q d Hq Hd. split; [by eapply Hdocs'|]. intros Hdj.
           exfalso. apply Hnotin. rewrite Hmj, <- Hdj.
           rewrite Forall_forall in Hrest.
           destruct (Hrest q Hq d Hd) as [_ ->].
           apply list_elem_of_In,
             (in_map (fun p : Member * option UserDoc => user p.1)).
           by apply list_elem_of_In.
        -- subst w1. simpl. rewrite Hmj, lookup_alter, decide_True by done.
           rewrite Hj. simpl. by rewrite persist_fresh.
        -- exact E1.
      * rewrite (IH uj r1 w1 w2 p Hrest Hnd Hdocs').
        -- destruct (decide (j ∈ _)) as [Hin|Hnin].
           ++ rewrite decide_True by (by right). done.
           ++ rewrite decide_False; [done|]. intros Hin.
              apply elem_of_cons in Hin as [->|Hin]; [done|]. by apply Hnin.
        -- subst w1. simpl. rewrite lookup_alter, decide_False by done. done.
        -- exact E1.
Qed.

Lemma populatedMembers_defaulters w ms :
  map (fun p : Member * option UserDoc => user p.1)
      (filter (fun p => paymentStatus p.1 <> Paid) (populatedMembers w ms))
  = defaulters ms.
Proof.
  unfold defaulters. induction ms as [|m ms IH]; [done|]. simpl.
  destruct (decide (paymentStatus m <> Paid)) as [Hp|Hp].
  - rewrite !filter_cons_True by done. simpl. by rewrite IH.
  - rewrite !filter_cons_False by done. exact IH.
Qed.

Lemma coverShortfall_at circleId now w c j uj r1 w1 res :
  NoDup (map user (members c)) ->
  users w !! j = Some uj ->
  coverShortfall circleId (contributionAmount c) (shortfallOf c) now
    (populatedMembers w (members c)) r1 w = (w1, inr res) ->
  users w1 !! j
  = Some (if gt (shortfallOf c) (ofZ 0)
             && bool_decide (j ∈ defaulters (members c))
          then hooked now j uj (penalized uj (contributionAmount c)) else uj).
Proof.
  intros Hnd Hj E. unfold coverShortfall in E.
  destruct (gt (shortfallOf c) (ofZ 0)); simpl;
    [|by injection E as <- _].
  destruct (lt (balance r1) (shortfallOf c)); [discriminate|].
  unfold mbind, M_bind, bind in E.
  match type of E with context [recordDefaults _ _ _ _ ?r2' w] =>
    set (r2 := r2') in E end.
  destruct (recordDefaults circleId (contributionAmount c) now
              (populatedMembers w (members c)) r2 w) as [w2 [e|p]] eqn:E1;
    [discriminate|]. injection E as <- _.
  rewrite (recordDefaults_at circleId (contributionAmount c) now j
             (populatedMembers w (members c)) uj r2 w w2 p
             (populatedMembers_populated w (members c)));
    [| | |exact Hj|exact E1].
  - rewrite populatedMembers_defaulters.
    by destruct (decide (j ∈ defaulters (members c))) as [H|H];
      [rewrite (bool_decide_eq_true_2 _ H)|rewrite (bool_decide_eq_false_2 _ H)].
  - unfold populatedMembers. by rewrite map_map.
  - intros [m od] d Hin Hd. simpl in Hd.
    apply list_elem_of_In, in_map_iff in Hin as (m' & [= <- <-] & _).
    destruct (loadDoc_loaded _ _ _ Hd) as (u & -> & Hu). simpl.
    split; [done|]. intros <-. congruence.
Qed.

Lemma pick_same {A} `{EqDecision A} (old stored : A) : pick old old stored = stored.
Proof. unfold pick. by rewrite decide_True. Qed.

Lemma standing_released circleId now i u s :
  standing (persist u (hooked now i u (releasedUser circleId u)) s) = standing s.
Proof.
  rewrite hooked_quiet by done. unfold standing, persist, releasedUser. simpl.
  by rewrite !pick_same.
Qed.

(** The release of the vaults and a single user: the vault is released if
    the user is the user of a member and holds a positive vault. *)
Lemma releaseVaults_at circleId now j ms : forall w w' uj,
  users w !! j = Some uj ->
  populated ms ->
  releaseVaults circleId now ms w = (w', inr tt) ->
  users w' !! j
  = Some (if bool_decide (j ∈ map (fun p : Member * option UserDoc => user p.1) ms)
             && gt (vaultBalance (wallet uj)) (ofZ 0)
          then releasedUser circleId uj else uj).
Proof.
  induction ms as [|[m od] rest IH]; intros w w' uj Hj Hpop E.
  - simpl in E. injection E as <-. by rewrite Hj.
  - apply Forall_cons in Hpop as [Hhd Hrest]. simpl in E.
    destruct od as [d|]; [|done].
    destruct (Hhd d eq_refl) as [_ Hid]. simpl in Hid.
    erewrite bind_inr in E by reflexivity.
    destruct (loadDoc w (docId d)) as [d0|] eqn:Ed; [|done].
    destruct (loadDoc_loaded _ _ _ Ed) as (u & -> & Hu). rewrite Hid in *.
    unfold loaded in E.
    erewrite bind_inr in E by (by apply releaseVault_spec).
    match type of E with releaseVaults _ _ _ ?w1' = _ => set (w1 := w1') in E end.
    simpl map.
    destruct (decide (user m = j)) as [Hmj|Hmj].
    + subst j. rewrite Hj in Hu. injection Hu as <-.
      rewrite (bool_decide_eq_true_2 (user m ∈ user m :: _)) by left. simpl.
      destruct (gt (vaultBalance (wallet uj)) (ofZ 0)) eqn:Egt.
      * rewrite (IH w1 w' (releasedUser circleId uj)); [|subst w1; simpl; apply lookup_insert_eq|done|done].
        simpl. by rewrite andb_false_r.
      * rewrite (IH w1 w' uj); [|done|done|done].
        by rewrite Egt, andb_false_r.
    + assert (Hj1 : users w1 !! j = Some uj).
      { subst w1. simpl. destruct (gt _ _); [|done].
        by rewrite lookup_insert_ne. }
      rewrite (IH w1 w' uj Hj1 Hrest E).
      destruct (decide (j ∈ map (fun p : Member * option UserDoc => user p.1) rest))
        as [Hin|Hnin].
      * rewrite !bool_decide_eq_true_2; [done|by right|done].
      * rewrite !bool_decide_eq_false_2; [done| |done].
        intros Hin. apply elem_of_cons in Hin as [->|Hin]; [done|by apply Hnin].
Qed.

(** The user [j] after a successful payout of a circle no two members of
    which share a user: penalized in step 3 if the shortfall is positive and
    a member of that user has not paid; then, if the user is the recipient,
    overwritten in the paths the credit of step 5 changes; and, apart from
    the vault that the completion of the circle releases, nothing else. *)
Lemma payout_user_after circleId now w w' r c rid ru j uj :
  circles w !! circleId = Some c ->
  NoDup (map user (members c)) ->
  recipientOf w c = Some rid -> users w !! rid = Some ru ->
  users w !! j = Some uj ->
  processCirclePayout circleId now w = (w', inr r) ->
  let s3 := if gt (shortfallOf c) (ofZ 0)
               && bool_decide (j ∈ defaulters (members c))
            then hooked now j uj (penalized uj (contributionAmount c)) else uj in
  let s5 := if decide (j = rid)
            then persist ru
                   (hooked now rid ru
                      (credited ru (availableNow r) (withheldInVault r))) s3
            else s3 in
  exists u', users w' !! j = Some u' /\ standing u' = standing s5 /\
             (completes w c = false -> u' = s5) /\
             (completes w c = true ->
              u' = if bool_decide (j ∈ map user (members c))
                      && gt (vaultBalance (wallet s5)) (ofZ 0)
                   then releasedUser circleId s5 else s5).
Proof.
  intros Hc Hnd Hrid Hru Hj E. simpl.
  destruct (payout_inv _ _ _ _ _ E)
    as (c0 & rid0 & ru0 & w3 & Hc0 & Hact & Hrid0 & Hru0 & _ & _ & _ & Hr).
  rewrite Hc in Hc0. injection Hc0 as <-.
  rewrite Hrid in Hrid0. injection Hrid0 as <-.
  rewrite Hru in Hru0. injection Hru0 as <-.
  pose proof (payout_stages circleId now w c rid ru Hc Hact Hrid Hru) as Hst.
  simpl in Hst.
  pose proof (coverShortfall_spec circleId (contributionAmount c)
                (shortfallOf c) now (populatedMembers w (members c))
                {| balance := creditedBalance w c;
                   totalDeployed := totalDeployed (reserveOf w);
                   activeLoans := activeLoans (reserveOf w) |} w
                (populatedMembers_populated w (members c))) as Hspec.
  destruct (coverShortfall circleId (contributionAmount c) (shortfallOf c) now
              (populatedMembers w (members c)) _ w)
    as [w1 [e|[[loan ms3] r3]]] eqn:E3; simpl in Hst;
    [rewrite E in Hst; discriminate|].
  assert (Hms3 : populated ms3 /\
                 map (fun p : Member * option UserDoc => resetMember p.1) ms3
                 = map resetMember (members c)).
  { destruct Hspec as [(_ & _ & [=])|(_ & _ & (_ & _ & Hp & Hm & _))].
    split; [done|]. rewrite Hm. apply populatedMembers_reset. }
  clear Hspec. destruct Hms3 as [Hpop3 Hm3].
  pose proof (coverShortfall_at _ _ _ _ j uj _ _ _ Hnd Hj E3) as H1.
  set (s3 := if gt (shortfallOf c) (ofZ 0)
                && bool_decide (j ∈ defaulters (members c))
             then hooked now j uj (penalized uj (contributionAmount c)) else uj)
    in *.
  rewrite E in Hst. simpl in Hst. destruct Hst as (Hus & _ & Hrel). rewrite Hus.
  rewrite Hr. simpl.
  set (hc := hooked now rid ru
               (credited ru (netOf c - netOf c * withholdingRates (userTier ru))%num
                            (netOf c * withholdingRates (userTier ru))%num)).
  set (s5 := if decide (j = rid) then persist ru hc s3 else s3).
  rewrite save_doc. rewrite save_doc in Hrel. simpl. simpl in Hrel. fold hc.
  match goal with |- context [releaseVaults circleId now ?ms ?w2'] =>
    set (ms6 := ms); set (w2 := w2') end.
  assert (H2 : users w2 !! j = Some s5).
  { subst w2 s5. simpl. rewrite lookup_alter.
    destruct (decide (rid = j)) as [<-|Hne].
    - rewrite decide_True by done. by rewrite H1.
    - rewrite decide_False by done. exact H1. }
  destruct (completes w c); [|exists s5; by rewrite H2].
  destruct (releaseVaults circleId now ms6 w2) as [w4 [e|[]]] eqn:E4.
  { pose proof (Hrel e eq_refl (f_equal snd E4)) as Hx. discriminate. }
  assert (Hpop6 : populated ms6).
  { subst ms6. unfold populated in *. apply Forall_forall.
    intros [m od] Hin d Hd.
    apply list_elem_of_In, in_map_iff in Hin as ([m' od'] & [= <- <-] & Hin).
    rewrite Forall_forall in Hpop3.
    apply (Hpop3 (m', od')); [by apply list_elem_of_In|done]. }
  assert (Hus6 : map (fun p : Member * option UserDoc => user p.1) ms6
                 = map user (members c)).
  { subst ms6. rewrite map_map. simpl.
    rewrite <- resetMember_users, <- Hm3, map_map. done. }
  pose proof (releaseVaults_at circleId now j ms6 w2 w4 s5 H2 Hpop6 E4) as H4.
  rewrite Hus6 in H4. simpl. eexists. split; [exact H4|].
  split; [|split; [done|done]].
  by destruct (bool_decide (j ∈ map user (members c))
               && gt (vaultBalance (wallet s5)) (ofZ 0)).
Qed.

Lemma standing_inv u v :
  standing u = standing v ->
  debtBalance (wallet u) = debtBalance (wallet v) /\
  trustScore u = trustScore v /\ userTier u = userTier v /\
  status u = status v.
Proof. unfold standing. intros [= -> -> -> -> _ _]. done. Qed.

Lemma elem_of_defaulters m ms :
  m ∈ ms -> paymentStatus m <> Paid -> user m ∈ defaulters ms.
Proof.
  intros Hm Hp. unfold defaulters.
  apply list_elem_of_In, in_map, list_elem_of_In, list_elem_of_filter. done.
Qed.

(** A payout with a positive shortfall penalizes every member that has not
    paid, whatever the member's status was, once: the stored debt grows by
    the contribution and 5 percent of it, the trust score drops by 50 but
    not below 300, the tier follows the new score, and the user is
    blacklisted if the new debt is above the threshold. (The recipient is
    the exception; no two members share a user.) *)
Theorem payout_penalises_defaulters
    (circleId : CircleId) (now : Time) (w w' : World) (r : Receipt)
    (c : Circle) (m : Member) (u : User) :
  circles w !! circleId = Some c ->
  NoDup (map user (members c)) ->
  processCirclePayout circleId now w = (w', inr r) ->
  gt (shortfallOf c) (ofZ 0) = true ->
  m ∈ members c -> paymentStatus m <> Paid ->
  recipientOf w c <> Some (user m) ->
  users w !! user m = Some u ->
  let debt' := toDecimal128 (debtBalance (wallet u)
                             + contributionAmount c * (ofZ 1 + penaltyRate))%num in
  let trust' := Z.max TRUST_SCORE_MIN (trustScore u - 50) in
  exists u',
    users w' !! user m = Some u' /\
    debtBalance (wallet u') = debt' /\
    trustScore u' = trust' /\
    userTier u' = (if decide (trust' = trustScore u) then userTier u
                   else tierOf trust') /\
    status u' = (if bool_decide (debt' <> debtBalance (wallet u))
                    && gt debt' DEBT_BLACKLIST_THRESHOLD
                 then Blacklisted else status u).
Proof.
  intros Hc Hnd E Hgt Hm Hp Hnr Hu. simpl.
  destruct (payout_inv _ _ _ _ _ E)
    as (c0 & rid & ru & w3 & Hc0 & _ & Hrid & Hru & _).
  rewrite Hc in Hc0. injection Hc0 as <-.
  destruct (payout_user_after circleId now w w' r c rid ru (user m) u
              Hc Hnd Hrid Hru Hu E) as (u' & Hu' & Hst & _).
  rewrite Hgt, (bool_decide_eq_true_2 _ (elem_of_defaulters _ _ Hm Hp)) in Hst.
  rewrite decide_False in Hst by congruence. simpl in Hst.
  apply standing_inv in Hst as (Hd & Ht & Htier & Hs).
  rewrite hooked_wallet in Hd. rewrite hooked_trustScore in Ht.
  rewrite hooked_userTier in Htier. rewrite hooked_status in Hs.
  exists u'. by repeat split.
Qed.

Lemma payout_penalises_defaulters_witness :
  exists u',
    users (processCirclePayout 1 100 scenarioWorld).1 !! 3%nat = Some u' /\
    debtBalance (wallet u') = ofZ 10500 /\
    trustScore u' = 350%Z /\ userTier u' = Bronze /\ status u' = UActive.
Proof.
  destruct (payout_penalises_defaulters 1%nat 100%nat scenarioWorld
              (processCirclePayout 1 100 scenarioWorld).1
              (receiptOf scenarioWorld
                 (circleOf (ofZ 10000) (ofZ 30000)
                    [memberOf 1 Paid; memberOf 2 Paid; memberOf 3 Pending] 0 0)
                 (memberUser "User 1" (ofZ 40000) (ofZ 10000)))
              (circleOf (ofZ 10000) (ofZ 30000)
                 [memberOf 1 Paid; memberOf 2 Paid; memberOf 3 Pending] 0 0)
              (memberOf 3 Pending)
              (memberUser "User 3" (ofZ 50000) (ofZ 0)))
    as (u' & Hu' & Hd & Ht & Htier & Hs).
  - reflexivity.
  - apply (bool_decide_unpack _). vm_compute. reflexivity.
  - vm_compute. reflexivity.
  - vm_compute. reflexivity.
  - right. right. left.
  - discriminate.
  - vm_compute. discriminate.
  - reflexivity.
  - exists u'. split; [exact Hu'|].
    rewrite Hd, Ht, Htier, Hs. repeat split; vm_compute; reflexivity.
Defined.

(** A successful payout leaves the standing of every user alone who is not
    its recipient and has not defaulted in it: paid-up members, users that
    are no members, and everyone when the shortfall is not positive. If the
    payout does not complete the circle, it leaves such a user as it was. *)
Theorem payout_spares_the_others
    (circleId : CircleId) (now : Time) (w w' : World) (r : Receipt)
    (c : Circle) (j : UserId) (u : User) :
  circles w !! circleId = Some c ->
  NoDup (map user (members c)) ->
  processCirclePayout circleId now w = (w', inr r) ->
  gt (shortfallOf c) (ofZ 0) = false \/ j ∉ defaulters (members c) ->
  recipientOf w c <> Some j ->
  users w !! j = Some u ->
  exists u',
    users w' !! j = Some u' /\ standing u' = standing u /\
    (nextTurn r <> 0%nat -> u' = u).
Proof.
  intros Hc Hnd E Hno Hnr Hu.
  destruct (payout_inv _ _ _ _ _ E)
    as (c0 & rid & ru & w3 & Hc0 & _ & Hrid & Hru & _ & _ & _ & Hr).
  rewrite Hc in Hc0. injection Hc0 as <-.
  destruct (payout_user_after circleId now w w' r c rid ru j u
              Hc Hnd Hrid Hru Hu E) as (u' & Hu' & Hst & Heq & _).
  assert (Hb : gt (shortfallOf c) (ofZ 0)
               && bool_decide (j ∈ defaulters (members c)) = false).
  { destruct Hno as [->|Hno]; [done|].
    rewrite (bool_decide_eq_false_2 _ Hno). apply andb_false_r. }
  rewrite Hb in Hst, Heq. rewrite decide_False in Hst, Heq by congruence.
  exists u'. split; [done|]. split; [done|]. intros Hturn. apply Heq.
  unfold completes. rewrite Hr in Hturn. simpl in Hturn.
  fold (nextTurnOf w c) in Hturn.
  by rewrite (bool_decide_eq_false_2 _ Hturn).
Qed.

Lemma payout_spares_the_others_witness :
  users (processCirclePayout 1 100 scenarioWorld).1 !! 2%nat
  = Some (memberUser "User 2" (ofZ 40000) (ofZ 10000)).
Proof.
  destruct (payout_spares_the_others 1%nat 100%nat scenarioWorld
              (processCirclePayout 1 100 scenarioWorld).1
              (receiptOf scenarioWorld
                 (circleOf (ofZ 10000) (ofZ 30000)
                    [memberOf 1 Paid; memberOf 2 Paid; memberOf 3 Pending] 0 0)
                 (memberUser "User 1" (ofZ 40000) (ofZ 10000)))
              (circleOf (ofZ 10000) (ofZ 30000)
                 [memberOf 1 Paid; memberOf 2 Paid; memberOf 3 Pending] 0 0)
              2%nat (memberUser "User 2" (ofZ 40000) (ofZ 10000)))
    as (u' & Hu' & _ & Heq).
  - reflexivity.
  - apply (bool_decide_unpack _). vm_compute. reflexivity.
  - vm_compute. reflexivity.
  - right. apply (bool_decide_unpack _). vm_compute. reflexivity.
  - vm_compute. discriminate.
  - reflexivity.
  - rewrite Heq in Hu'; [exact Hu'|]. vm_compute. discriminate.
Defined.

(** The recipient of a successful payout that does not complete the
    circle: the stored available balance and vault have received the two
    amounts of the receipt, whether or not the recipient has defaulted in
    the same round; and a recipient that has not defaulted keeps the debt
    and the status, and gains 5 points of trust, up to 850, the tier
    following the new score. *)
Theorem payout_credits_recipient
    (circleId : CircleId) (now : Time) (w w' : World) (r : Receipt)
    (c : Circle) (rid : UserId) (ru : User) :
  circles w !! circleId = Some c ->
  NoDup (map user (members c)) ->
  processCirclePayout circleId now w = (w', inr r) ->
  recipientOf w c = Some rid ->
  users w !! rid = Some ru ->
  completes w c = false ->
  let trust' := Z.min 850 (trustScore ru + 5) in
  exists u',
    users w' !! rid = Some u' /\
    availableBalance (wallet u')
      = toDecimal128 (availableBalance (wallet ru) + availableNow r)%num /\
    vaultBalance (wallet u')
      = toDecimal128 (vaultBalance (wallet ru) + withheldInVault r)%num /\
    fullName u' = fullName ru /\
    activeCircles u' = activeCircles ru /\
    (gt (shortfallOf c) (ofZ 0) = false \/ rid ∉ defaulters (members c) ->
     debtBalance (wallet u') = debtBalance (wallet ru) /\
     status u' = status ru /\
     trustScore u' = trust' /\
     userTier u' = (if decide (trust' = trustScore ru) then userTier ru
                    else tierOf trust')).
Proof.
  intros Hc Hnd E Hrid Hru Hcomp. simpl.
  destruct (payout_user_after circleId now w w' r c rid ru rid ru
              Hc Hnd Hrid Hru Hru E) as (u' & Hu' & _ & Heq & _).
  specialize (Heq Hcomp). rewrite decide_True in Heq by done.
  exists u'. split; [done|]. subst u'.
  set (s3 := if gt (shortfallOf c) (ofZ 0)
                && bool_decide (rid ∈ defaulters (members c))
             then hooked now rid ru (penalized ru (contributionAmount c))
             else ru).
  assert (Hw : availableBalance (wallet s3) = availableBalance (wallet ru) /\
               vaultBalance (wallet s3) = vaultBalance (wallet ru) /\
               fullName s3 = fullName ru /\
               activeCircles s3 = activeCircles ru).
  { subst s3. destruct (_ && _); [|done].
    by rewrite hooked_wallet, hooked_fullName, hooked_activeCircles. }
  destruct Hw as (Ha & Hv & Hf & Hac).
  unfold persist; simpl.
  rewrite Ha, Hv, Hf, Hac, !pick_fresh.
  rewrite hooked_wallet, hooked_fullName, hooked_activeCircles. simpl.
  repeat (split; [done|]).
  intros Hno.
  assert (Hs3 : s3 = ru).
  { subst s3. destruct Hno as [->|Hno]; [done|].
    by rewrite (bool_decide_eq_false_2 _ Hno), andb_false_r. }
  rewrite Hs3, !pick_fresh.
  rewrite hooked_status, hooked_trustScore, hooked_userTier. simpl.
  rewrite bool_decide_eq_false_2 by (intros H; by apply H). done.
Qed.

Lemma payout_credits_recipient_witness :
  exists u',
    users (processCirclePayout 1 100 scenarioWorld).1 !! 1%nat = Some u' /\
    availableBalance (wallet u') = ofZ 63640 /\
    vaultBalance (wallet u') = ofZ 15910 /\
    trustScore u' = 405%Z.
Proof.
  destruct (payout_credits_recipient 1%nat 100%nat scenarioWorld
              (processCirclePayout 1 100 scenarioWorld).1
              (receiptOf scenarioWorld
                 (circleOf (ofZ 10000) (ofZ 30000)
                    [memberOf 1 Paid; memberOf 2 Paid; memberOf 3 Pending] 0 0)
                 (memberUser "User 1" (ofZ 40000) (ofZ 10000)))
              (circleOf (ofZ 10000) (ofZ 30000)
                 [memberOf 1 Paid; memberOf 2 Paid; memberOf 3 Pending] 0 0)
              1%nat (memberUser "User 1" (ofZ 40000) (ofZ 10000)))
    as (u' & Hu' & Ha & Hv & _ & _ & Hrest).
  - reflexivity.
  - apply (bool_decide_unpack _). vm_compute. reflexivity.
  - vm_compute. reflexivity.
  - reflexivity.
  - reflexivity.
  - reflexivity.
  - destruct Hrest as (_ & _ & Ht & _).
    { right. apply (bool_decide_unpack _). vm_compute. reflexivity. }
    exists u'. split; [exact Hu'|]. rewrite Ha, Hv, Ht.
    repeat split; vm_compute; reflexivity.
Defined.



(** When a payout completes the circle, the vault of every member is
    released: the whole vault, as the payout has left it, goes to the
    available balance and the circle leaves the member's active circles.
    That is so only for a member whose vault is positive: a member with an
    empty vault keeps the circle among the active circles. Users that are
    no members are not touched. (Stated for the users that have not
    defaulted in the round; no two members share a user.) *)
Theorem completion_releases_vaults
    (circleId : CircleId) (now : Time) (w w' : World) (r : Receipt)
    (c : Circle) (j : UserId) (u : User) :
  circles w !! circleId = Some c ->
  NoDup (map user (members c)) ->
  processCirclePayout circleId now w = (w', inr r) ->
  completes w c = true ->
  gt (shortfallOf c) (ofZ 0) = false \/ j ∉ defaulters (members c) ->
  users w !! j = Some u ->
  let s := if bool_decide (recipientOf w c = Some j)
           then hooked now j u
                  (credited u (availableNow r) (withheldInVault r))
           else u in
  users w' !! j
  = Some (if bool_decide (j ∈ map user (members c))
             && gt (vaultBalance (wallet s)) (ofZ 0)
          then setActiveCircles
                 (setWallet s
                    {| availableBalance :=
                         toDecimal128 (availableBalance (wallet s)
                                       + vaultBalance (wallet s))%num;
                       vaultBalance := ofZ 0;
                       debtBalance := debtBalance (wallet s) |})
                 (filter (fun cid => cid <> circleId) (activeCircles s))
          else s).
Proof.
  intros Hc Hnd E Hcomp Hno Hu. simpl.
  destruct (payout_inv _ _ _ _ _ E)
    as (c0 & rid & ru & w3 & Hc0 & _ & Hrid & Hru & _).
  rewrite Hc in Hc0. injection Hc0 as <-.
  destruct (payout_user_after circleId now w w' r c rid ru j u
              Hc Hnd Hrid Hru Hu E) as (u' & Hu' & _ & _ & Heq).
  specialize (Heq Hcomp). rewrite Hu', Heq. clear Heq Hu'.
  assert (Hb : gt (shortfallOf c) (ofZ 0)
               && bool_decide (j ∈ defaulters (members c)) = false).
  { destruct Hno as [->|Hno]; [done|].
    rewrite (bool_decide_eq_false_2 _ Hno). apply andb_false_r. }
  rewrite Hb, Hrid.
  destruct (decide (j = rid)) as [->|Hne].
  - rewrite Hu in Hru. injection Hru as <-.
    rewrite (bool_decide_eq_true_2 (Some rid = Some rid)) by done.
    by rewrite persist_fresh.
  - by rewrite (bool_decide_eq_false_2 (Some rid = Some j)) by congruence.
Qed.

Lemma completion_releases_vaults_witness :
  exists u',
    users (processCirclePayout 1 100 closingWorld).1 !! 2%nat = Some u' /\
    vaultBalance (wallet u') = ofZ 0 /\
    availableBalance (wallet u') = ofZ 69700 /\
    activeCircles u' = [].
Proof.
  pose proof (completion_releases_vaults 1%nat 100%nat closingWorld
                (processCirclePayout 1 100 closingWorld).1
                (receiptOf closingWorld
                   (circleOf (ofZ 10000) (ofZ 20000)
                      [memberOf 1 Pending; memberOf 2 Paid] 1 1)
                   (memberUser "User 2" (ofZ 40000) (ofZ 10000)))
                (circleOf (ofZ 10000) (ofZ 20000)
                   [memberOf 1 Pending; memberOf 2 Paid] 1 1)
                2%nat (memberUser "User 2" (ofZ 40000) (ofZ 10000))) as H.
  eexists. split.
  - apply H.
    + reflexivity.
    + apply (bool_decide_unpack _). vm_compute. reflexivity.
    + vm_compute. reflexivity.
    + reflexivity.
    + right. apply (bool_decide_unpack _). vm_compute. reflexivity.
    + reflexivity.
  - vm_compute. repeat split.
Defined.

End Standing.

(** ** Contributions *)

Section Contributions.

Lemma preSave_quiet now d :
  isNew d = false ->
  debtBalance (wallet (this d)) = debtBalance (wallet (pristine d)) ->
  trustScore (this d) = trustScore (pristine d) ->
  preSave now d = (d, []).
Proof.
  intros Hn Hd Ht. unfold preSave, isModified. rewrite Hn.
  rewrite (bool_decide_eq_false_2
             (debtBalance (wallet (this d)) <> debtBalance (wallet (pristine d))))
    by (intros H; by apply H).
  simpl.
  by rewrite (bool_decide_eq_false_2 (trustScore (this d) <> trustScore (pristine d)))
    by (intros H; by apply H).
Qed.

Lemma alter_stored (f : User -> User) i u (m : gmap UserId User) :
  m !! i = Some u -> alter f i m = <[i := f u]> m.
Proof.
  intros Hu. apply map_eq. intros k. rewrite lookup_alter.
  destruct (decide (i = k)) as [<-|Hne].
  - by rewrite lookup_insert_eq, Hu.
  - by rewrite lookup_insert_ne.
Qed.

(** Saving a loaded document whose debt and trust score have not been
    touched stores the document as it is, and emits nothing. *)
Lemma save_quiet now i u u' w :
  users w !! i = Some u ->
  debtBalance (wallet u') = debtBalance (wallet u) ->
  trustScore u' = trustScore u ->
  save now {| docId := i; isNew := false; pristine := u; this := u' |} w
  = ({| users := <[i := u']> (users w); circles := circles w;
        reserve := reserve w; emitted := emitted w |},
     inr (loaded i u')).
Proof.
  intros Hu Hd Ht. rewrite save_doc, hooked_quiet by done.
  rewrite preSave_quiet by done. simpl.
  by rewrite (alter_stored _ _ _ _ Hu), persist_fresh, app_nil_r.
Qed.

Lemma find_markPaid userId now ms m :
  List.find (fun m => bool_decide (user m = userId)) ms = Some m ->
  List.find (fun m => bool_decide (user m = userId)) (markPaid userId now ms)
  = Some {| user := user m; paymentStatus := Paid;
            lastPaymentDate := Some now;
            totalContributionsMade := totalContributionsMade m |}.
Proof.
  induction ms as [|m0 ms IH]; [done|]. simpl.
  destruct (bool_decide (user m0 = userId)) eqn:E.
  - intros [= <-]. simpl. by rewrite E.
  - intros H. simpl. rewrite E. by apply IH.
Qed.


Lemma find_markStatus userId s ms m :
  List.find (fun m => spells m userId) ms = Some m ->
  List.find (fun m => spells m userId) (markStatus userId s ms)
  = Some (setPaymentStatus m s).
Proof.
  induction ms as [|m0 ms IH]; [done|]. simpl.
  destruct (spells m0 userId) eqn:E.
  - intros [= <-]. simpl. unfold spells in *. simpl. by rewrite E.
  - intros H. simpl. rewrite E. by apply IH.
Qed.

Lemma markStatus_users userId s ms :
  map user (markStatus userId s ms) = map user ms.
Proof.
  induction ms as [|m0 ms IH]; [done|]. simpl.
  destruct (spells m0 userId); simpl; [done|]. by rewrite IH.
Qed.

Lemma markPaid_users userId now ms :
  map user (markPaid userId now ms) = map user ms.
Proof.
  induction ms as [|m0 ms IH]; [done|]. simpl.
  destruct (bool_decide (user m0 = userId)); simpl; [done|]. by rewrite IH.
Qed.

Lemma markStatus_same userId s ms m :
  List.find (fun m => spells m userId) ms = Some m ->
  paymentStatus m = s -> markStatus userId s ms = ms.
Proof.
  induction ms as [|m0 ms IH]; [done|]. simpl.
  destruct (spells m0 userId) eqn:E.
  - intros [= <-] <-. by destruct m0.
  - intros H Hs. f_equal. by apply IH.
Qed.

(** A contribution that is accepted. *)
Lemma processContribution_ok circleId userId now w c m u :
  circles w !! circleId = Some c ->
  List.find (fun m => bool_decide (user m = userId)) (members c) = Some m ->
  paymentStatus m <> Paid ->
  users w !! userId = Some u ->
  lt (availableBalance (wallet u)) (contributionAmount c) = false ->
  processContribution circleId userId now w
  = ({| users := <[userId := escrowed u (contributionAmount c)]> (users w);
        circles := <[circleId := setMembers c (markPaid userId now (members c))]>
                     (circles w);
        reserve := reserve w; emitted := emitted w |},
     inr (toDecimal128 (vaultBalance (wallet u) + contributionAmount c)%num)).
Proof.
  intros Hc Hm Hp Hu Hlt. unfold processContribution.
  erewrite bind_inr by (unfold findCircle; by rewrite Hc). cbv beta iota.
  rewrite Hm, (bool_decide_eq_false_2 _ Hp).
  erewrite bind_inr by (unfold findUser, loadDoc; by rewrite Hu). cbv beta iota.
  fold (loaded userId u).
  erewrite bind_inr
    by (rewrite escrowToVault_eq, Hlt; by apply save_quiet).
  erewrite bind_inr by apply save_loaded_noop.
  erewrite bind_inr by reflexivity. reflexivity.
Qed.

(** What makes [processContribution] fail, and what it has changed when it
    fails: nothing. *)
Lemma processContribution_inv circleId userId now w w' v :
  processContribution circleId userId now w = (w', inr v) ->
  exists c m u,
    circles w !! circleId = Some c /\
    List.find (fun m => bool_decide (user m = userId)) (members c) = Some m /\
    paymentStatus m <> Paid /\
    users w !! userId = Some u /\
    lt (availableBalance (wallet u)) (contributionAmount c) = false.
Proof.
  unfold processContribution.
  erewrite bind_inr by reflexivity.
  destruct (circles w !! circleId) as [c|] eqn:Hc; [|done].
  destruct (List.find _ (members c)) as [m|] eqn:Hm; [|done].
  destruct (bool_decide (paymentStatus m = Paid)) eqn:Hp; [done|].
  apply bool_decide_eq_false_1 in Hp.
  erewrite bind_inr by reflexivity.
  destruct (loadDoc w userId) as [d|] eqn:Ed; [|done].
  destruct (loadDoc_loaded _ _ _ Ed) as (u & -> & Hu).
  destruct (lt (availableBalance (wallet u)) (contributionAmount c)) eqn:Hlt.
  - erewrite bind_inl by (by rewrite escrowToVault_eq, Hlt). done.
  - intros _. by exists c, m, u.
Qed.

Lemma paidCount_markPaid userId now ms m :
  List.find (fun m => bool_decide (user m = userId)) ms = Some m ->
  paymentStatus m <> Paid ->
  length (filter (fun m => paymentStatus m = Paid) (markPaid userId now ms))
  = S (length (filter (fun m => paymentStatus m = Paid) ms)).
Proof.
  induction ms as [|m0 ms IH]; [done|]. simpl.
  destruct (bool_decide (user m0 = userId)) eqn:E.
  - intros [= <-] Hp. rewrite filter_cons_True by done.
    by rewrite (filter_cons_False _ m0) by done.
  - intros H Hp. destruct (decide (paymentStatus m0 = Paid)) as [Hp0|Hp0].
    + rewrite !filter_cons_True by done. simpl. by rewrite IH.
    + rewrite !filter_cons_False by done. by apply IH.
Qed.

(** A contribution that [processContribution] accepts (from a member that
    has not paid in this cycle, whose available balance is not below the
    contribution) stores as available balance the floating-point difference
    [available - contribution] and as vault the floating-point sum
    [vault + contribution], both as JavaScript numbers round them (so
    neither has to be the decimal difference or sum, and a contribution
    that the rounding absorbs leaves a balance as it was); the debt is
    kept. It marks the member Paid and dates the payment, and changes
    nothing else: no other user, no other circle, not the reserve, and no
    event is emitted. The circle then counts one more paid member. *)
Theorem contribution_is_escrowed
    (circleId : CircleId) (userId : UserId) (now : Time) (w : World)
    (c : Circle) (m : Member) (u : User) :
  circles w !! circleId = Some c ->
  List.find (fun m => bool_decide (user m = userId)) (members c) = Some m ->
  paymentStatus m <> Paid ->
  users w !! userId = Some u ->
  lt (availableBalance (wallet u)) (contributionAmount c) = false ->
  let u' := setWallet u
              {| availableBalance :=
                   toDecimal128 (availableBalance (wallet u)
                                 - contributionAmount c)%num;
                 vaultBalance :=
                   toDecimal128 (vaultBalance (wallet u)
                                 + contributionAmount c)%num;
                 debtBalance := debtBalance (wallet u) |} in
  let c' := setMembers c (markPaid userId now (members c)) in
  processContribution circleId userId now w
  = ({| users := <[userId := u']> (users w);
        circles := <[circleId := c']> (circles w);
        reserve := reserve w; emitted := emitted w |},
     inr (vaultBalance (wallet u'))) /\
  paidCount c' = S (paidCount c) /\
  List.find (fun m => bool_decide (user m = userId)) (members c')
  = Some {| user := user m; paymentStatus := Paid;
            lastPaymentDate := Some now;
            totalContributionsMade := totalContributionsMade m |}.
Proof.
  intros Hc Hm Hp Hu Hlt. simpl. split; [|split].
  - by apply (processContribution_ok circleId userId now w c m u).
  - unfold paidCount. simpl. by eapply paidCount_markPaid.
  - by apply find_markPaid.
Qed.

Lemma contribution_is_escrowed_witness :
  exists w',
    processContribution 1 1 110 rotationWorld1 = (w', inr (ofZ 23940)) /\
    (availableBalance <$> (wallet <$> users w' !! 1%nat)) = Some (ofZ 45760).
Proof.
  destruct (contribution_is_escrowed 1%nat 1%nat 110%nat rotationWorld1
              (advancedCircle rotationWorld
                 (circleOf (ofZ 10000) (ofZ 20000)
                    [memberOf 1 Paid; memberOf 2 Paid] 0 0) 100)
              (resetMember (memberOf 1 Paid))
              (hooked 100 1
                 (memberUser "User 1" (ofZ 40000) (ofZ 10000))
                 (credited (memberUser "User 1" (ofZ 40000) (ofZ 10000))
                    (ofZ 15760) (ofZ 3940))))
    as (E & _ & _).
  - vm_compute. reflexivity.
  - reflexivity.
  - discriminate.
  - vm_compute. reflexivity.
  - vm_compute. reflexivity.
  - eexists. split.
    + rewrite E. vm_compute. reflexivity.
    + vm_compute. reflexivity.
Defined.

(** What [processContribution] refuses, and with what: a user that is no
    member of the circle, a member that has already paid in this cycle, and
    a member whose available balance is below the contribution. A missing
    circle, or a member without a user document, is a type error. Whatever
    the refusal, the database is left as it was. *)
Theorem contribution_refusals
    (circleId : CircleId) (userId : UserId) (now : Time) (w : World) :
  match circles w !! circleId with
  | None => processContribution circleId userId now w = (w, inl TypeError)
  | Some c =>
    match List.find (fun m => bool_decide (user m = userId)) (members c) with
    | None => processContribution circleId userId now w = (w, inl NotAMember)
    | Some m =>
      if bool_decide (paymentStatus m = Paid)
      then processContribution circleId userId now w = (w, inl AlreadyPaid)
      else
        match users w !! userId with
        | None => processContribution circleId userId now w = (w, inl TypeError)
        | Some u =>
          lt (availableBalance (wallet u)) (contributionAmount c) = true ->
          processContribution circleId userId now w
          = (w, inl InsufficientAvailableBalance)
        end
    end
  end.
Proof.
  unfold processContribution. erewrite bind_inr by reflexivity.
  destruct (circles w !! circleId) as [c|] eqn:Hc; [|done].
  destruct (List.find _ (members c)) as [m|] eqn:Hm; [|done].
  destruct (bool_decide (paymentStatus m = Paid)) eqn:Hp; [done|].
  erewrite bind_inr by reflexivity. unfold loadDoc.
  destruct (users w !! userId) as [u|] eqn:Hu; [|done].
  intros Hlt. fold (loaded userId u).
  erewrite bind_inl by (by rewrite escrowToVault_eq, Hlt). done.
Qed.

(** A member cannot pay twice in a cycle through [processContribution]:
    once a contribution has been accepted, the next one of the same user to
    the same circle is refused with "Already paid this cycle" and changes
    nothing. *)
Theorem no_double_contribution
    (circleId : CircleId) (userId : UserId) (now now' : Time)
    (w w1 : World) (v : number) :
  processContribution circleId userId now w = (w1, inr v) ->
  processContribution circleId userId now' w1 = (w1, inl AlreadyPaid).
Proof.
  intros E.
  destruct (processContribution_inv _ _ _ _ _ _ E)
    as (c & m & u & Hc & Hm & Hp & Hu & Hlt).
  rewrite (processContribution_ok _ _ _ _ _ _ _ Hc Hm Hp Hu Hlt) in E.
  injection E as <- _.
  unfold processContribution. erewrite bind_inr by reflexivity. simpl.
  rewrite lookup_insert_eq. simpl.
  by rewrite (find_markPaid _ _ _ _ Hm).
Qed.

Lemma no_double_contribution_witness :
  processContribution 1 1 120 (processContribution 1 1 110 rotationWorld1).1
  = ((processContribution 1 1 110 rotationWorld1).1, inl AlreadyPaid).
Proof.
  eapply (no_double_contribution 1%nat 1%nat 110%nat 120%nat rotationWorld1).
  vm_compute. reflexivity.
Defined.

(** The contribute route: what it accepts, and what it then does. *)
Lemma contributeRoute_ok userId circleId now w c m u :
  circles w !! circleId = Some c ->
  List.find (fun m => spells m userId) (members c) = Some m ->
  users w !! idOf userId = Some u ->
  lt (availableBalance (wallet u)) (contributionAmount c) = false ->
  contributeRoute userId circleId now w
  = ({| users := <[idOf userId := escrowed u (contributionAmount c)]> (users w);
        circles := <[circleId := setMembers c (markStatus userId Paid (members c))]>
                     (circles w);
        reserve := reserve w; emitted := emitted w |},
     inr (contributionAmount c)).
Proof.
  intros Hc Hm Hu Hlt. unfold contributeRoute. rewrite Hc, Hm.
  unfold loadDoc. rewrite Hu. fold (loaded (idOf userId) u).
  rewrite escrowToVault_eq, Hlt, save_quiet by done.
  by rewrite save_loaded_noop.
Qed.

Lemma contributeRoute_inv userId circleId now w w' a :
  contributeRoute userId circleId now w = (w', inr a) ->
  exists c m u,
    circles w !! circleId = Some c /\
    List.find (fun m => spells m userId) (members c) = Some m /\
    users w !! idOf userId = Some u /\
    lt (availableBalance (wallet u)) (contributionAmount c) = false.
Proof.
  unfold contributeRoute.
  destruct (circles w !! circleId) as [c|] eqn:Hc; [|done].
  destruct (List.find _ (members c)) as [m|] eqn:Hm; [|done].
  destruct (loadDoc w (idOf userId)) as [d|] eqn:Ed; [|done].
  destruct (loadDoc_loaded _ _ _ Ed) as (u & -> & Hu).
  rewrite escrowToVault_eq.
  destruct (lt (availableBalance (wallet u)) (contributionAmount c)) eqn:Hlt;
    [done|].
  intros _. by exists c, m, u.
Qed.

(** The contribute route does not ask whether the member has paid: after a
    contribution it has accepted, it accepts the next one of the same user
    to the same circle as long as the available balance covers it, moves a
    second contribution to the vault, and leaves the circle, in which the
    member is Paid already, as it is. *)
Theorem contribute_route_charges_again
    (userId : RawId) (circleId : CircleId) (now now' : Time)
    (w w1 : World) (a : number) (u1 : User) :
  contributeRoute userId circleId now w = (w1, inr a) ->
  users w1 !! idOf userId = Some u1 ->
  lt (availableBalance (wallet u1)) a = false ->
  contributeRoute userId circleId now' w1
  = ({| users := <[idOf userId := escrowed u1 a]> (users w1);
        circles := circles w1; reserve := reserve w1;
        emitted := emitted w1 |}, inr a).
Proof.
  intros E Hu1 Hlt.
  destruct (contributeRoute_inv _ _ _ _ _ _ E)
    as (c & m & u & Hc & Hm & Hu & Hlt0).
  rewrite (contributeRoute_ok _ _ _ _ _ _ _ Hc Hm Hu Hlt0) in E.
  injection E as <- <-.
  set (c1 := setMembers c (markStatus userId Paid (members c))).
  assert (Hc1 : circles
                  {| users := <[idOf userId := escrowed u (contributionAmount c)]> (users w);
                     circles := <[circleId := c1]> (circles w);
                     reserve := reserve w; emitted := emitted w |} !! circleId
                = Some c1) by (simpl; apply lookup_insert_eq).
  rewrite (contributeRoute_ok _ _ now' _ c1 (setPaymentStatus m Paid) u1 Hc1);
    try done.
  - simpl. do 2 f_equal.
    rewrite (markStatus_same userId Paid _ (setPaymentStatus m Paid));
      [|by apply find_markStatus|done].
    fold c1. by rewrite insert_insert_eq.
  - by apply find_markStatus.
Qed.

Lemma contribute_route_charges_again_witness :
  exists w2,
    contributeRoute (canon 1) 1 120 (contributeRoute (canon 1) 1 110 rotationWorld1).1
    = (w2, inr (ofZ 10000)) /\
    (vaultBalance <$> (wallet <$> users w2 !! 1%nat)) = Some (ofZ 33940).
Proof.
  eexists. split.
  - eapply (contribute_route_charges_again (canon 1) 1%nat 110%nat 120%nat
              rotationWorld1 _ (ofZ 10000)
              (escrowed
                 (hooked 100 1
                    (memberUser "User 1" (ofZ 40000) (ofZ 10000))
                    (credited (memberUser "User 1" (ofZ 40000) (ofZ 10000))
                       (ofZ 15760) (ofZ 3940)))
                 (ofZ 10000))).
    + vm_compute. reflexivity.
    + vm_compute. reflexivity.
    + vm_compute. reflexivity.
  - vm_compute. reflexivity.
Defined.

End Contributions.

(** ** Joining a circle *)

Section Joining.

Lemma existsb_spells userId (ms : list Member) :
  existsb (fun m => spells m userId) ms = false
  <-> canonical userId = false \/ idOf userId ∉ map user ms.
Proof.
  unfold spells. destruct (canonical userId); simpl.
  - induction ms as [|m ms IH]; simpl.
    + split; [intros _; right; apply not_elem_of_nil|done].
    + rewrite orb_false_iff, IH. split.
      * intros [H1 [H2|H2]]; [done|]. right.
        apply bool_decide_eq_false_1 in H1. apply not_elem_of_cons.
        split; [congruence|done].
      * intros [H|H]; [done|]. apply not_elem_of_cons in H as [H1 H2].
        split; [apply bool_decide_eq_false_2; congruence|by right].
  - split; [by left|]. intros _. by induction ms.
Qed.

Lemma joinRoute_ok userId circleId now w u c :
  users w !! idOf userId = Some u ->
  circles w !! circleId = Some c ->
  canonical userId = false \/ idOf userId ∉ map user (members c) ->
  joinRoute userId circleId now w
  = ({| users := <[idOf userId := joined u circleId]> (users w);
        circles := <[circleId := joinedCircle c (idOf userId)]> (circles w);
        reserve := reserve w; emitted := emitted w |},
     inr (circleStatus (joinedCircle c (idOf userId)))).
Proof.
  intros Hu Hc Hnot. unfold joinRoute, loadDoc. rewrite Hu, Hc.
  rewrite (proj2 (existsb_spells userId (members c)) Hnot).
  unfold saveCircle, setThis. simpl.
  change (setActiveCircles u (activeCircles u ++ [circleId]))
    with (joined u circleId).
  by rewrite save_quiet.
Qed.



(** What the join route refuses: a user or a circle that does not exist;
    and a user that is a member of the circle already, when the request
    spells the user id the way [toString] prints the stored one, in
    lowercase hexadecimal. (The test for membership compares the strings.)
    The database is left as it was. *)
Theorem join_refusals
    (userId : RawId) (circleId : CircleId) (now : Time) (w : World) :
  match users w !! idOf userId, circles w !! circleId with
  | Some _, Some c =>
    canonical userId = true ->
    idOf userId ∈ map user (members c) ->
    joinRoute userId circleId now w = (w, inl UserAlreadyMember)
  | _, _ => joinRoute userId circleId now w = (w, inl UserOrCircleNotFound)
  end.
Proof.
  unfold joinRoute, loadDoc.
  destruct (users w !! idOf userId) as [u|]; [|done].
  destruct (circles w !! circleId) as [c|]; [|done].
  intros Hcan Hin.
  destruct (existsb _ (members c)) eqn:E; [done|].
  apply existsb_spells in E as [E|E]; [congruence|done].
Qed.

Lemma join_refusals_witness :
  joinRoute (canon 1) 1 100 scenarioWorld
    = (scenarioWorld, inl UserAlreadyMember) /\
  joinRoute (canon 7) 1 100 scenarioWorld
    = (scenarioWorld, inl UserOrCircleNotFound).
Proof.
  split.
  - refine (join_refusals (canon 1) 1%nat 100%nat scenarioWorld eq_refl _).
    left.
  - exact (join_refusals (canon 7) 1%nat 100%nat scenarioWorld).
Defined.



End Joining.

(** ** Consistency of the database *)

Section Consistency.

Lemma wellFormed_members c c' :
  payoutOrder c' = payoutOrder c -> totalPot c' = totalPot c ->
  contributionAmount c' = contributionAmount c ->
  map user (members c') = map user (members c) ->
  wellFormed c -> wellFormed c'.
Proof.
  intros Hpo Hpot Hca Hms (H1 & H2 & H3). unfold wellFormed.
  rewrite Hpo, Hpot, Hca, Hms. split; [done|]. split; [done|].
  assert (Hlen : length (members c') = length (members c)).
  { by rewrite <- (length_map user (members c')), Hms, length_map. }
  destruct H3 as [H3|H3]; [left|right; by rewrite Hlen].
  rewrite H3 in Hlen. by destruct (members c').
Qed.

Lemma wellFormed_joined c userId :
  userId ∉ map user (members c) -> wellFormed c ->
  wellFormed (joinedCircle c userId).
Proof.
  intros Hnot (H1 & H2 & _). unfold wellFormed, joinedCircle. simpl.
  rewrite map_app, H1. simpl. split; [done|]. split.
  - apply NoDup_app. split; [done|]. split.
    + intros x Hx Hin. apply list_elem_of_singleton in Hin. by subst.
    + apply NoDup_singleton.
  - right. by rewrite !length_app, length_map.
Qed.

Lemma consistent_update w w' circleId c c' :
  consistent w ->
  (forall i, is_Some (users w !! i) -> is_Some (users w' !! i)) ->
  circles w !! circleId = Some c ->
  circles w' = <[circleId := c']> (circles w) ->
  wellFormed c' ->
  (forall i, i ∈ map user (members c') ->
     i ∈ map user (members c) \/ is_Some (users w !! i)) ->
  consistent w'.
Proof.
  intros Hcon Hdom Hc Hcs Hwf Hms k ck. rewrite Hcs.
  destruct (decide (circleId = k)) as [<-|Hne].
  - rewrite lookup_insert_eq. intros [= <-]. split; [done|].
    intros m Hm. apply Hdom.
    assert (Hum : user m ∈ map user (members c')).
    { apply list_elem_of_In, in_map. by apply list_elem_of_In. }
    destruct (Hms (user m) Hum) as [Hin|Hin]; [|done].
    apply list_elem_of_In, in_map_iff in Hin as (m' & <- & Hm').
    apply (proj2 (Hcon circleId c Hc)). by apply list_elem_of_In.
  - rewrite lookup_insert_ne by done. intros Hk.
    destruct (Hcon k ck Hk) as [Hw He]. split; [done|].
    intros m Hm. by apply Hdom, He.
Qed.

Lemma consistent_same w w' :
  consistent w ->
  (forall i, is_Some (users w !! i) -> is_Some (users w' !! i)) ->
  circles w' = circles w ->
  consistent w'.
Proof.
  intros Hcon Hdom Hcs k ck. rewrite Hcs. intros Hk.
  destruct (Hcon k ck Hk) as [Hw He]. split; [done|].
  intros m Hm. by apply Hdom, He.
Qed.

Lemma insert_dom (m : gmap UserId User) i u v :
  m !! i = Some u -> forall k, is_Some (m !! k) -> is_Some (<[i := v]> m !! k).
Proof.
  intros Hi k Hk. destruct (decide (i = k)) as [<-|Hne].
  - rewrite lookup_insert_eq. by eexists.
  - by rewrite lookup_insert_ne.
Qed.

(** The default route: what it accepts, and what it then does. *)
Lemma defaultRoute_ok userId circleId now w c m u :
  circles w !! circleId = Some c ->
  List.find (fun m => spells m userId) (members c) = Some m ->
  users w !! idOf userId = Some u ->
  defaultRoute userId circleId now w
  = ({| users := <[idOf userId := hooked now (idOf userId) u
                               (penalized u (contributionAmount c))]> (users w);
        circles := <[circleId :=
                       setMembers c (markStatus userId Defaulted (members c))]>
                     (circles w);
        reserve := reserve w;
        emitted := emitted w ++
          (preSave now {| docId := idOf userId; isNew := false; pristine := u;
                          this := penalized u (contributionAmount c) |}).2 |},
     inr (hooked now (idOf userId) u (penalized u (contributionAmount c)))).
Proof.
  intros Hc Hm Hu. unfold defaultRoute. rewrite Hc, Hm.
  unfold loadDoc. rewrite Hu.
  rewrite applyDefaultPenalty_eq. unfold setThis. simpl.
  rewrite save_doc. simpl.
  by rewrite (alter_stored _ _ _ _ Hu), persist_fresh.
Qed.

Lemma handle_consistent now rq w :
  consistent w -> canonicalJoin rq -> consistent (handle now rq w).
Proof.
  intros Hcon Hcan. destruct rq as [u c|c|u c|u c]; simpl.
  - simpl in Hcan.
    destruct (users w !! idOf u) as [v|] eqn:Hu;
      [|unfold joinRoute, loadDoc; by rewrite Hu].
    destruct (circles w !! c) as [ci|] eqn:Hc;
      [|unfold joinRoute, loadDoc; by rewrite Hu, Hc].
    destruct (decide (idOf u ∈ map user (members ci))) as [Hin|Hnot].
    + unfold joinRoute, loadDoc. rewrite Hu, Hc.
      destruct (existsb _ (members ci)) eqn:E; [done|].
      apply existsb_spells in E as [E|E]; [congruence|done].
    + rewrite (joinRoute_ok _ _ _ _ _ _ Hu Hc (or_intror Hnot)). simpl.
      eapply (consistent_update w _ c ci (joinedCircle ci (idOf u))); try done.
      * simpl. by eapply insert_dom.
      * apply wellFormed_joined; [done|]. by apply (Hcon c ci).
      * simpl. rewrite map_app. intros i Hi.
        apply elem_of_app in Hi as [Hi|Hi]; [by left|].
        apply list_elem_of_singleton in Hi. subst. right. by eexists.
  - unfold payoutRoute.
    destruct (processCirclePayout c now w) as [w' [e|r]] eqn:E; simpl.
    + destruct (payout_failure_usersOnly _ _ _ _ _ E) as (Hcs & _ & Hdom).
      eapply consistent_same; [done| |done]. intros i. apply Hdom.
    + destruct (payout_inv _ _ _ _ _ E)
        as (ci & rid & ru & w3 & Hc & _ & _ & _ & _ & (_ & _ & Hdom) & -> & _).
      eapply (consistent_update w _ c ci (advancedCircle w ci now)); try done.
      * simpl. intros i. apply Hdom.
      * eapply wellFormed_members; [..|by apply (Hcon c ci)]; try done.
        apply resetMember_users.
      * simpl. rewrite resetMember_users. by left.
  - destruct (circles w !! c) as [ci|] eqn:Hc;
      [|unfold contributeRoute; by rewrite Hc].
    destruct (List.find (fun m => spells m u) (members ci))
      as [m|] eqn:Hm; [|unfold contributeRoute; by rewrite Hc, Hm].
    destruct (users w !! idOf u) as [v|] eqn:Hu;
      [|unfold contributeRoute, loadDoc; by rewrite Hc, Hm, Hu].
    destruct (lt (availableBalance (wallet v)) (contributionAmount ci)) eqn:Hlt.
    + unfold contributeRoute, loadDoc. rewrite Hc, Hm, Hu.
      fold (loaded (idOf u) v). by rewrite escrowToVault_eq, Hlt.
    + rewrite (contributeRoute_ok _ _ _ _ _ _ _ Hc Hm Hu Hlt). simpl.
      eapply (consistent_update w _ c ci); try done.
      * simpl. by eapply insert_dom.
      * eapply wellFormed_members; [..|by apply (Hcon c ci)]; try done.
        apply markStatus_users.
      * simpl. rewrite markStatus_users. by left.
  - destruct (circles w !! c) as [ci|] eqn:Hc;
      [|unfold defaultRoute; by rewrite Hc].
    destruct (List.find (fun m => spells m u) (members ci))
      as [m|] eqn:Hm; [|unfold defaultRoute; by rewrite Hc, Hm].
    destruct (users w !! idOf u) as [v|] eqn:Hu;
      [|unfold defaultRoute, loadDoc; by rewrite Hc, Hm, Hu].
    rewrite (defaultRoute_ok _ _ _ _ _ _ _ Hc Hm Hu). simpl.
    eapply (consistent_update w _ c ci); try done.
    + simpl. by eapply insert_dom.
    + eapply wellFormed_members; [..|by apply (Hcon c ci)]; try done.
      apply markStatus_users.
    + simpl. rewrite markStatus_users. by left.
Qed.

(** The routes keep the database consistent, as long as every request to
    join spells its user id the way [toString] prints a stored one (in
    lowercase hexadecimal): after any sequence of such requests to a
    consistent database, the payout order of every circle still lists the
    users of its members, no two members of a circle share a user, the pot
    of every circle with members is the number of its members times the
    contribution, and every member has a user document. (A request to join
    that spells the id of a member otherwise adds the member again.) *)
Theorem requests_keep_consistency (rqs : list (Time * Request)) (w : World) :
  consistent w -> canonicalJoins rqs -> consistent (handleAll rqs w).
Proof.
  revert w. induction rqs as [|[now rq] rest IH]; intros w Hcon Hcan; [done|].
  apply Forall_cons in Hcan as [Hrq Hrest].
  simpl. apply IH; [|done]. by apply handle_consistent.
Qed.

Lemma requests_keep_consistency_witness :
  consistent (handleAll [(100, PostContribute (canon 3) 1); (110, PostPayout 1);
                         (120, PostDefault (canon 2) 1); (130, PostPayout 1);
                         (140, PostJoin (canon 2) 1)]%nat
                scenarioWorld).
Proof.
  apply (requests_keep_consistency
           [(100, PostContribute (canon 3) 1); (110, PostPayout 1);
            (120, PostDefault (canon 2) 1); (130, PostPayout 1);
            (140, PostJoin (canon 2) 1)]%nat scenarioWorld);
    [|repeat constructor].
  intros circleId c Hc. unfold scenarioWorld in Hc. cbn [circles] in Hc.
  apply lookup_singleton_Some in Hc as [_ <-]. split.
  - split; [reflexivity|]. split.
    + apply (bool_decide_unpack _). vm_compute. reflexivity.
    + right. vm_compute. reflexivity.
  - intros m Hm. apply list_elem_of_In in Hm. simpl in Hm.
    destruct Hm as [<-|[<-|[<-|[]]]]; eexists; vm_compute; reflexivity.
Defined.

(** In a consistent database the payout of an Active circle that has
    members finds its recipient, the user of the member at the current turn
    (modulo the number of members), and never stops half-way on a missing
    user document: it succeeds, or it is refused for an insufficient
    backstop and leaves the database as it was. *)
Theorem payout_of_consistent
    (circleId : CircleId) (now : Time) (w : World) (c : Circle) :
  consistent w ->
  circles w !! circleId = Some c ->
  circleStatus c = Active ->
  members c <> [] ->
  exists m u,
    members c !! (currentTurn c mod length (members c))%nat = Some m /\
    users w !! user m = Some u /\
    ((exists w' r, processCirclePayout circleId now w = (w', inr r) /\
                   recipient r = fullName u)
     \/ processCirclePayout circleId now w
        = (w, inl (BackstopInsufficient (shortfallOf c) (creditedBalance w c)))).
Proof.
  intros Hcon Hc Hact Hne.
  destruct (Hcon circleId c Hc) as [(Hpo & _ & _) Hex].
  assert (Hlen : (currentTurn c mod length (members c) < length (members c))%nat).
  { apply Nat.mod_upper_bound. by destruct (members c). }
  destruct (lookup_lt_is_Some_2 _ _ Hlen) as [m Hm].
  assert (Hin : m ∈ members c) by (by eapply list_elem_of_lookup_2).
  destruct (Hex m Hin) as [u Hu]. exists m, u. split; [done|]. split; [done|].
  assert (Hall : populatedOrder w c = payoutOrder c).
  { apply populatedOrder_all. rewrite Hpo. intros i Hi.
    apply list_elem_of_In, in_map_iff in Hi as (m' & <- & Hm').
    apply Hex. by apply list_elem_of_In. }
  assert (Hrid : recipientOf w c = Some (user m)).
  { unfold recipientOf, currentRecipient. rewrite Hall, Hpo.
    destruct (map user (members c)) eqn:E.
    - by destruct (members c).
    - rewrite <- E, length_map.
      change (map user (members c)) with (user <$> members c).
      by rewrite list_lookup_fmap, Hm. }
  destruct (payout_outcome circleId now w c (user m) u Hc Hact Hrid Hu)
    as [(_ & _ & E)|(_ & w3 & _ & [E|[_ Hno]])].
  - by right.
  - left. eexists _, _. split; [exact E|done].
  - by destruct Hno.
Qed.

Lemma payout_of_consistent_witness :
  exists w' r,
    processCirclePayout 1 100 scenarioWorld = (w', inr r) /\
    recipient r = "User 1".
Proof.
  destruct (payout_of_consistent 1%nat 100%nat scenarioWorld
              (circleOf (ofZ 10000) (ofZ 30000)
                 [memberOf 1 Paid; memberOf 2 Paid; memberOf 3 Pending] 0 0))
    as (m & u & Hm & Hu & [(w' & r & E & Hr)|E]).
  - intros circleId c Hc. unfold scenarioWorld in Hc. cbn [circles] in Hc.
    apply lookup_singleton_Some in Hc as [_ <-]. split.
    + split; [reflexivity|]. split.
      * apply (bool_decide_unpack _). vm_compute. reflexivity.
      * right. vm_compute. reflexivity.
    + intros m Hm. apply list_elem_of_In in Hm. simpl in Hm.
      destruct Hm as [<-|[<-|[<-|[]]]]; eexists; vm_compute; reflexivity.
  - reflexivity.
  - reflexivity.
  - discriminate.
  - exists w', r. split; [exact E|]. rewrite Hr.
    injection Hm as <-. vm_compute in Hu. by injection Hu as <-.
  - vm_compute in E. discriminate.
Defined.






End Consistency.

(** ** The methods of the wallet *)

Section WalletMethods.

Lemma save_stored now i u u' w :
  users w !! i = Some u ->
  save now {| docId := i; isNew := false; pristine := u; this := u' |} w
  = ({| users := <[i := hooked now i u u']> (users w);
        circles := circles w; reserve := reserve w;
        emitted := emitted w ++
          (preSave now {| docId := i; isNew := false;
                          pristine := u; this := u' |}).2 |},
     inr (loaded i (hooked now i u u'))).
Proof.
  intros Hu. rewrite save_doc.
  by rewrite (alter_stored _ _ _ _ Hu), persist_fresh.
Qed.

Lemma repayDebt_eq amount now i u w :
  repayDebt amount now (loaded i u) w
  = if gt amount (availableBalance (wallet u)) then (w, inl InsufficientFunds)
    else if gt amount (debtBalance (wallet u)) then (w, inl PaymentExceedsDebt)
    else
      ((save now {| docId := i; isNew := false; pristine := u;
                    this := repaid u amount |} w).1,
       inr (debtBalance (wallet (hooked now i u (repaid u amount))),
            loaded i (hooked now i u (repaid u amount)))).
Proof.
  unfold repayDebt. simpl.
  destruct (gt amount (availableBalance (wallet u))); [done|].
  destruct (gt amount (debtBalance (wallet u))); [done|].
  unfold setThis. simpl. fold (repaid u amount).
  erewrite bind_inr by apply save_doc. by rewrite save_doc.
Qed.

Lemma reputable_hooked now i u u' :
  reputable u -> userTier u' = userTier u ->
  (TRUST_SCORE_MIN <= trustScore u' <= TRUST_SCORE_MAX)%Z ->
  reputable (hooked now i u u').
Proof.
  intros [_ Htier] Ht Hr. unfold reputable.
  rewrite hooked_trustScore, hooked_userTier. split; [done|].
  destruct (decide (trustScore u' = trustScore u)) as [->|]; congruence.
Qed.

Lemma repaid_userTier u amount : userTier (repaid u amount) = userTier u.
Proof. unfold repaid. by destruct (_ && _). Qed.

Lemma repaid_trustScore u amount :
  trustScore (repaid u amount) = Z.min TRUST_SCORE_MAX (trustScore u + 10).
Proof. unfold repaid. by destruct (_ && _). Qed.

Lemma repaid_wallet u amount :
  wallet (repaid u amount)
  = {| availableBalance :=
         toDecimal128 (availableBalance (wallet u) - amount)%num;
       vaultBalance := vaultBalance (wallet u);
       debtBalance := toDecimal128 (debtBalance (wallet u) - amount)%num |}.
Proof. unfold repaid. by destruct (_ && _). Qed.

(** The reputation of a user, the trust score within 300 and 850 and the
    tier the one of the trust score, survives every method of the wallet
    that is called on the user's document as loaded: the default penalty,
    the escrow, and the repayment. *)
Theorem wallet_methods_keep_reputation
    (w : World) (i : UserId) (u : User) (amount : number) (now : Time) :
  users w !! i = Some u ->
  reputable u ->
  (forall w' d', applyDefaultPenalty amount now (loaded i u) w = (w', inr d') ->
     users w' !! i = Some (this d') /\ reputable (this d')) /\
  (forall w' d', escrowToVault amount now (loaded i u) w = (w', inr d') ->
     users w' !! i = Some (this d') /\ reputable (this d')) /\
  (forall w' rest d',
     repayDebt amount now (loaded i u) w = (w', inr (rest, d')) ->
     users w' !! i = Some (this d') /\ reputable (this d')).
Proof.
  intros Hu Hrep.
  assert (Hr := Hrep). destruct Hr as [Hrange _].
  pose proof (trust_updates_in_range (trustScore u) Hrange) as (Hpen & Hrepay & _).
  split; [|split].
  - intros w' d'. rewrite applyDefaultPenalty_eq. unfold setThis, loaded. simpl.
    rewrite (save_stored _ _ _ _ _ Hu). intros [= <- <-]. simpl.
    rewrite lookup_insert_eq. split; [done|]. by apply reputable_hooked.
  - intros w' d'. rewrite escrowToVault_eq.
    destruct (lt (availableBalance (wallet u)) amount); [done|].
    rewrite (save_stored _ _ _ _ _ Hu). intros [= <- <-]. simpl.
    rewrite lookup_insert_eq. split; [done|]. by apply reputable_hooked.
  - intros w' rest d'. rewrite repayDebt_eq.
    destruct (gt amount (availableBalance (wallet u))); [done|].
    destruct (gt amount (debtBalance (wallet u))); [done|].
    rewrite (save_stored _ _ _ _ _ Hu). intros [= <- _ <-]. simpl.
    rewrite lookup_insert_eq. split; [done|]. apply reputable_hooked; [done|..].
    + apply repaid_userTier.
    + by rewrite repaid_trustScore.
Qed.

Lemma wallet_methods_keep_reputation_witness :
  exists w' d',
    applyDefaultPenalty (ofZ 10000) 100 (loaded 1 debtorUser) debtorWorld
    = (w', inr d') /\
    trustScore (this d') = 510%Z /\ userTier (this d') = Bronze /\
    reputable (this d').
Proof.
  destruct (wallet_methods_keep_reputation debtorWorld 1%nat debtorUser
              (ofZ 10000) 100%nat) as (H & _ & _).
  - reflexivity.
  - split; [vm_compute; split; discriminate|reflexivity].
  - eexists _, _. split; [vm_compute; reflexivity|].
    split; [reflexivity|]. split; [reflexivity|].
    eapply H. vm_compute. reflexivity.
Defined.

(** The hook on a document that is blacklisted already: no event, and the
    date and the reason of the blacklisting stay. *)
Lemma hooked_blacklisted now i u u' :
  status u' = Blacklisted ->
  (preSave now {| docId := i; isNew := false; pristine := u; this := u' |}).2 = [] /\
  status (hooked now i u u') = Blacklisted /\
  blacklistedAt (hooked now i u u') = blacklistedAt u' /\
  blacklistReason (hooked now i u u') = blacklistReason u'.
Proof.
  intros Hs. unfold hooked, preSave, isModified. simpl. rewrite Hs.
  rewrite (bool_decide_eq_false_2 (Blacklisted <> Blacklisted))
    by (intros H; by apply H).
  rewrite andb_false_r.
  destruct (bool_decide (debtBalance (wallet u') <> debtBalance (wallet u)) || false);
    simpl; by destruct (bool_decide (trustScore u' <> trustScore u)).
Qed.

(** A repayment never lifts a blacklisting, not even one that clears the
    debt in full: it unfreezes a Frozen account only. The blacklisted user
    keeps the status, the date and the reason, may still join no circle,
    and no event is emitted. *)
Theorem repayDebt_never_lifts_blacklist
    (w w' : World) (i : UserId) (u : User) (amount rest : number) (now : Time)
    (d' : UserDoc) :
  users w !! i = Some u ->
  status u = Blacklisted ->
  repayDebt amount now (loaded i u) w = (w', inr (rest, d')) ->
  exists u',
    users w' !! i = Some u' /\
    rest = toDecimal128 (debtBalance (wallet u) - amount)%num /\
    debtBalance (wallet u') = rest /\
    status u' = Blacklisted /\
    blacklistedAt u' = blacklistedAt u /\
    blacklistReason u' = blacklistReason u /\
    allowed (canJoinCircle u') = false /\
    emitted w' = emitted w.
Proof.
  intros Hu Hs. rewrite repayDebt_eq.
  destruct (gt amount (availableBalance (wallet u))); [done|].
  destruct (gt amount (debtBalance (wallet u))); [done|].
  rewrite (save_stored _ _ _ _ _ Hu). intros [= <- <- <-]. simpl.
  assert (Hrs : repaid u amount
                = setTrustScore
                    (setWallet u (wallet (repaid u amount)))
                    (Z.min TRUST_SCORE_MAX (trustScore u + 10))).
  { rewrite repaid_wallet. unfold repaid. simpl. rewrite Hs.
    by rewrite andb_false_r. }
  assert (Hst : status (repaid u amount) = Blacklisted) by (by rewrite Hrs).
  destruct (hooked_blacklisted now i u (repaid u amount) Hst)
    as (Hev & Hs' & Hat & Hre).
  exists (hooked now i u (repaid u amount)).
  rewrite lookup_insert_eq, hooked_wallet, repaid_wallet, Hev, app_nil_r.
  simpl. do 3 (split; [done|]). split; [exact Hs'|].
  split; [by rewrite Hat, Hrs|]. split; [by rewrite Hre, Hrs|].
  split; [|done]. unfold canJoinCircle. by rewrite Hs'.
Qed.

Lemma repayDebt_never_lifts_blacklist_witness :
  exists u',
    users (repayDebt (ofZ 600000) 100 (loaded 9 solventOutcast) outcastWorld).1
      !! 9%nat = Some u' /\
    debtBalance (wallet u') = ofZ 0 /\ status u' = Blacklisted.
Proof.
  destruct (repayDebt_never_lifts_blacklist outcastWorld
              (repayDebt (ofZ 600000) 100 (loaded 9 solventOutcast) outcastWorld).1
              9%nat solventOutcast (ofZ 600000) (ofZ 0) 100%nat
              (loaded 9 (hooked 100 9 solventOutcast
                           (repaid solventOutcast (ofZ 600000)))))
    as (u' & Hu' & _ & Hd & Hs & _).
  - reflexivity.
  - reflexivity.
  - vm_compute. reflexivity.
  - exists u'. split; [exact Hu'|]. split; [exact Hd|exact Hs].
Defined.

(** A number below zero is not above one that is not below zero. *)
Lemma below_zero_not_above (a b : number) :
  lt a (ofZ 0) = true -> lt b (ofZ 0) = false -> lt b a = false.
Proof.
  unfold lt. change (ofZ 0) with (S754_zero false).
  destruct a as [sa|sa| |sa ma ea], b as [sb|sb| |sb mb eb];
    try destruct sa; try destruct sb; try done.
Qed.

(** Neither the escrow nor the repayment asks whether the amount is
    positive. An amount below zero passes every check of both, whatever the
    balances are (as long as they are not below zero themselves): the
    escrow then moves the amount the other way, and the repayment raises
    the debt and the available balance alike, and the trust score by 10. *)
Theorem negative_amounts_are_accepted
    (w : World) (i : UserId) (u : User) (amount : number) (now : Time) :
  users w !! i = Some u ->
  lt amount (ofZ 0) = true ->
  lt (availableBalance (wallet u)) (ofZ 0) = false ->
  lt (debtBalance (wallet u)) (ofZ 0) = false ->
  (exists w' d',
     escrowToVault amount now (loaded i u) w = (w', inr d') /\
     users w' !! i = Some (this d') /\
     availableBalance (wallet (this d'))
       = toDecimal128 (availableBalance (wallet u) - amount)%num /\
     vaultBalance (wallet (this d'))
       = toDecimal128 (vaultBalance (wallet u) + amount)%num) /\
  (exists w' rest d',
     repayDebt amount now (loaded i u) w = (w', inr (rest, d')) /\
     users w' !! i = Some (this d') /\
     availableBalance (wallet (this d'))
       = toDecimal128 (availableBalance (wallet u) - amount)%num /\
     debtBalance (wallet (this d'))
       = toDecimal128 (debtBalance (wallet u) - amount)%num /\
     trustScore (this d') = Z.min TRUST_SCORE_MAX (trustScore u + 10)).
Proof.
  intros Hu Hneg Ha Hd.
  pose proof (below_zero_not_above _ _ Hneg Ha) as Hla.
  pose proof (below_zero_not_above _ _ Hneg Hd) as Hld.
  split.
  - rewrite escrowToVault_eq, Hla, (save_stored _ _ _ _ _ Hu).
    eexists _, _. split; [reflexivity|]. simpl.
    rewrite lookup_insert_eq, hooked_wallet. done.
  - rewrite repayDebt_eq. unfold gt. unfold lt in Hla, Hld. rewrite Hla, Hld.
    rewrite (save_stored _ _ _ _ _ Hu).
    eexists _, _, _. split; [reflexivity|]. simpl.
    rewrite lookup_insert_eq, hooked_wallet, hooked_trustScore, repaid_wallet,
      repaid_trustScore. done.
Qed.

Lemma negative_amounts_are_accepted_witness :
  exists w' rest d',
    repayDebt (ofZ (-1000)) 100 (loaded 1 debtorUser) debtorWorld
    = (w', inr (rest, d')) /\
    availableBalance (wallet (this d')) = ofZ 6000 /\
    debtBalance (wallet (this d')) = ofZ 496000 /\
    trustScore (this d') = 570%Z.
Proof.
  destruct (negative_amounts_are_accepted debtorWorld 1%nat debtorUser
              (ofZ (-1000)) 100%nat)
    as (_ & w' & rest & d' & E & _ & Ha & Hd & Ht).
  - reflexivity.
  - vm_compute. reflexivity.
  - vm_compute. reflexivity.
  - vm_compute. reflexivity.
  - exists w', rest, d'. split; [exact E|]. rewrite Ha, Hd, Ht.
    repeat split; vm_compute; reflexivity.
Defined.

End WalletMethods.
